(** * opencode-session: the aggregation and cascading-deletion engine

    A shallow embedding of [data/loader] (loadProjects, loadSessions,
    loadProjectInfos, loadLogs, loadAllData) and [data/manager]
    (deleteSession, deleteSessions, cleanFrecencyForDirectory, deleteLog,
    cleanupEmptyProject) over a tree model of the local file system;
    then of the rest of the two modules (deleteProject, deleteLogs,
    loadFrecency, getProjectStorageInfo), of the formatting of [utils]
    and of the deletion of the log and orphan views.

    Conventions
    - a path is the list of its segments below the root; [join dir name]
      appends the name of a directory entry, which is one segment, and
      [Path.join dir text] is [path.join] for a string read from a record
      or passed in: its segments are walked from [dir];
    - file contents are byte strings holding UTF-8 text, [stat().size] is
      their length; [trim] strips the white space of JavaScript in its
      UTF-8 form;
    - the strings that [utils] formats are sequences of UTF-16 code
      units;
    - JS numbers that hold sizes, counts and timestamps are integers ([Z]);
      a date that [new Date(text)] cannot read is [None];
    - a record read from the disk may lack the id that its type promises:
      that is kept, because [path.join] throws on what is no string;
    - [async]/[await] is sequential here, so a call is a function of the
      file system (readers) or a state transformer on it (deleters);
    - [try]/[catch] is kept: throwing primitives return [Throw]. *)

From Stdlib Require Import String Ascii List ZArith Lia Bool Permutation Sorted.
From Stdlib Require Import DecimalString.
Import ListNotations.

Set Warnings "-register-all,-abstract-large-number".

Local Open Scope Z_scope.
Local Open Scope list_scope.

(* ------------------------------------------------------------------ *)
(** ** Strings, as the JS String methods the engine calls               *)
(* ------------------------------------------------------------------ *)

Module Str.

(** [s.startsWith(p)] *)
Definition startsWith (s p : string) : bool := String.prefix p s.

(** [s.endsWith(suffix)] *)
Definition endsWith (s suffix : string) : bool :=
  let n := String.length s in
  let m := String.length suffix in
  (Nat.leb m n && String.eqb (String.substring (n - m) m s) suffix)%bool.

(** The white space and line terminators that [trim] removes, as UTF-8
    holds them.  In one byte: tab, line feed, vertical tab, form feed,
    carriage return, space. *)
Definition isSpace (c : ascii) : bool :=
  match nat_of_ascii c with
  | 9%nat | 10%nat | 11%nat | 12%nat | 13%nat | 32%nat => true
  | _ => false
  end.

Definition byte (n : nat) (c : ascii) : bool := Nat.eqb (nat_of_ascii c) n.

(** In two bytes: U+00A0. *)
Definition isSpace2 (a b : ascii) : bool := (byte 194 a && byte 160 b)%bool.

(** In three bytes: U+1680, U+2000 to U+200A, U+2028, U+2029, U+202F,
    U+205F, U+3000 and U+FEFF. *)
Definition isSpace3 (a b c : ascii) : bool :=
  ((byte 225 a && byte 154 b && byte 128 c)
   || (byte 226 a && byte 128 b
       && ((Nat.leb 128 (nat_of_ascii c) && Nat.leb (nat_of_ascii c) 138)
           || byte 168 c || byte 169 c || byte 175 c))
   || (byte 226 a && byte 129 b && byte 159 c)
   || (byte 227 a && byte 128 b && byte 128 c)
   || (byte 239 a && byte 187 b && byte 191 c))%bool.

Fixpoint trimStart (s : string) : string :=
  match s with
  | EmptyString => EmptyString
  | String a r =>
      if isSpace a then trimStart r
      else
        match r with
        | String b r2 =>
            if isSpace2 a b then trimStart r2
            else
              match r2 with
              | String c r3 => if isSpace3 a b c then trimStart r3 else s
              | EmptyString => s
              end
        | EmptyString => s
        end
  end.

(** The string is white space only. *)
Fixpoint allSpace (s : string) : bool :=
  match s with
  | EmptyString => true
  | String a r =>
      if isSpace a then allSpace r
      else
        match r with
        | String b r2 =>
            if isSpace2 a b then allSpace r2
            else
              match r2 with
              | String c r3 => (isSpace3 a b c && allSpace r3)%bool
              | EmptyString => false
              end
        | EmptyString => false
        end
  end.

(** Drops the trailing white space: what is left ends where the rest is
    white space only. *)
Fixpoint trimEnd (s : string) : string :=
  match s with
  | EmptyString => EmptyString
  | String c r => if allSpace s then EmptyString else String c (trimEnd r)
  end.

(** [s.trim()] *)
Definition trim (s : string) : string := trimEnd (trimStart s).

(** [s.split(sep)] for a one-character separator: never the empty list. *)
Fixpoint split (sep : ascii) (s : string) : list string :=
  match s with
  | EmptyString => [EmptyString]
  | String c r =>
      if Ascii.eqb c sep then EmptyString :: split sep r
      else match split sep r with
           | [] => [String c EmptyString]
           | w :: ws => String c w :: ws
           end
  end.

Definition LF : ascii := ascii_of_nat 10.
Definition nl : string := String LF EmptyString.

(** [lines.join("\n")] *)
Definition joinLines (ls : list string) : string := String.concat nl ls.

End Str.

(* ------------------------------------------------------------------ *)
(** ** The file system                                                  *)
(* ------------------------------------------------------------------ *)

Definition path := list string.

(** [path.join(dir, name)] for the name of a directory entry, as
    [readdir] yields it: one segment. *)
Definition join (dir : path) (name : string) : path := dir ++ [name].

Module Path.

(** A segment applied to a position: empty and [.] stay, [..] goes up. *)
Definition walk (at_ : path) (segment : string) : path :=
  if (String.eqb segment "" || String.eqb segment ".")%bool then at_
  else if String.eqb segment ".." then removelast at_
  else at_ ++ [segment].

(** [path.join(dir, text)] for any string: the text is cut at its
    separators and the segments are walked from [dir]. *)
Definition join (dir : path) (text : string) : path :=
  fold_left walk (Str.split "/"%char text) dir.

(** A string that names one entry: no separator in it, and neither
    empty nor [.] nor [..]. *)
Definition plain (text : string) : bool :=
  match Str.split "/"%char text with
  | [segment] =>
      negb (String.eqb segment "" || String.eqb segment "."
            || String.eqb segment "..")
  | _ => false
  end.

End Path.

Inductive node : Type :=
| File (content : string)
| Dir (entries : list (string * node)).

(** The disk: the tree below the root, and the paths whose removal the
    operating system refuses (permission, busy device). *)
Record FS : Type := mkFS {
  root : node;
  denied : list path
}.

Fixpoint find_entry {V : Type} (name : string) (es : list (string * V))
  : option V :=
  match es with
  | [] => None
  | (k, n) :: rest => if String.eqb k name then Some n else find_entry name rest
  end.

Fixpoint lookup (p : path) (n : node) : option node :=
  match p with
  | [] => Some n
  | name :: rest =>
      match n with
      | Dir es =>
          match find_entry name es with
          | Some c => lookup rest c
          | None => None
          end
      | File _ => None
      end
  end.

Definition remove_entry {V : Type} (name : string) (es : list (string * V))
  : list (string * V) :=
  filter (fun e => negb (String.eqb (fst e) name)) es.

Definition update_entry {V : Type} (name : string) (f : V -> V)
  (es : list (string * V)) : list (string * V) :=
  map (fun e => if String.eqb (fst e) name then (fst e, f (snd e)) else e) es.

(** The tree without the node at [p] (and all below it). *)
Fixpoint remove (p : path) (n : node) : node :=
  match p with
  | [] => n
  | name :: rest =>
      match n with
      | File _ => n
      | Dir es =>
          match rest with
          | [] => Dir (remove_entry name es)
          | _ :: _ => Dir (update_entry name (remove rest) es)
          end
      end
  end.

(** The tree with the file at [p] holding [content]; [None] when the
    parent directory is missing or [p] is a directory. *)
Fixpoint write (p : path) (content : string) (n : node) : option node :=
  match p with
  | [] => None
  | name :: rest =>
      match n with
      | File _ => None
      | Dir es =>
          match rest with
          | [] =>
              match find_entry name es with
              | Some (Dir _) => None
              | Some (File _) =>
                  Some (Dir (update_entry name (fun _ => File content) es))
              | None => Some (Dir (es ++ [(name, File content)]))
              end
          | _ :: _ =>
              match find_entry name es with
              | Some c =>
                  match write rest content c with
                  | Some c' => Some (Dir (update_entry name (fun _ => c') es))
                  | None => None
                  end
              | None => None
              end
          end
      end
  end.

Definition path_eqb (p q : path) : bool :=
  if list_eq_dec String.string_dec p q then true else false.

Definition is_denied (fs : FS) (p : path) : bool :=
  existsb (path_eqb p) (denied fs).

(* ------------------------------------------------------------------ *)
(** ** Results of throwing calls, and the [fs] primitives               *)
(* ------------------------------------------------------------------ *)

Inductive result (A : Type) : Type :=
| Ok (a : A)
| Throw (message : string).
Arguments Ok {A} a.
Arguments Throw {A} message.

Definition bytes (content : string) : Z := Z.of_nat (String.length content).

(** [readdir(p)]: the names in directory [p], in directory order. *)
Definition readdir (fs : FS) (p : path) : result (list string) :=
  match lookup p (root fs) with
  | Some (Dir es) => Ok (map fst es)
  | Some (File _) => Throw "ENOTDIR: not a directory"
  | None => Throw "ENOENT: no such file or directory"
  end.

(** [readFile(p, "utf-8")] *)
Definition readFile (fs : FS) (p : path) : result string :=
  match lookup p (root fs) with
  | Some (File c) => Ok c
  | Some (Dir _) => Throw "EISDIR: illegal operation on a directory"
  | None => Throw "ENOENT: no such file or directory"
  end.

Definition exists_at (fs : FS) (p : path) : bool :=
  match lookup p (root fs) with Some _ => true | None => false end.

Definition is_dir_at (fs : FS) (p : path) : bool :=
  match lookup p (root fs) with Some (Dir _) => true | _ => false end.

(** [writeFile] and [rm] change the disk, and a function body may keep
    mutable locals: a call is a transformer of a state [St] that may
    throw, leaving the state as it was at the throw. *)
Definition M (St A : Type) : Type := St -> St * result A.

Definition ret {St A} (a : A) : M St A := fun st => (st, Ok a).

Definition bind {St A B} (m : M St A) (k : A -> M St B) : M St B :=
  fun st =>
    match m st with
    | (st', Ok a) => k a st'
    | (st', Throw e) => (st', Throw e)
    end.

(** [try { body } catch (error) { handler(error) }] *)
Definition try_catch {St A} (body : M St A) (handler : string -> M St A)
  : M St A :=
  fun st =>
    match body st with
    | (st', Ok a) => (st', Ok a)
    | (st', Throw e) => handler e st'
    end.

(** [throw new Error(e)] *)
Definition throw {St A} (e : string) : M St A := fun st => (st, Throw e).

(** A reader of the state, lifted. *)
Definition reads {St A} (f : St -> A) : M St A := fun st => (st, Ok (f st)).

Notation "x <- m ;; k" := (bind m (fun x => k))
  (at level 61, m at next level, right associativity).
Notation "m ;;; k" := (bind m (fun _ => k))
  (at level 61, right associativity).

(** [for (const x of xs) { body(x) }] *)
Fixpoint for_of {St A} (xs : list A) (body : A -> M St unit) : M St unit :=
  match xs with
  | [] => ret tt
  | x :: rest => body x ;;; for_of rest body
  end.

Definition writeFile (p : path) (content : string) : M FS unit :=
  fun fs =>
    match write p content (root fs) with
    | Some r => (mkFS r (denied fs), Ok tt)
    | None => (fs, Throw "ENOENT: no such file or directory")
    end.

(** [rm(p, {force: true, recursive})]: an absent target is no error; a
    directory needs [recursive]; a refused removal throws; the root is
    never removed. *)
Definition rm (p : path) (recursive : bool) : M FS unit :=
  fun fs =>
    match lookup p (root fs) with
    | None => (fs, Ok tt)
    | Some n =>
        if is_denied fs p then (fs, Throw "EACCES: permission denied")
        else
          match p, n with
          | [], _ => (fs, Throw "EBUSY: resource busy or locked")
          | _, Dir _ =>
              if recursive then (mkFS (remove p (root fs)) (denied fs), Ok tt)
              else (fs, Throw "ERR_FS_EISDIR: path is a directory")
          | _, File _ => (mkFS (remove p (root fs)) (denied fs), Ok tt)
          end
    end.

(* ------------------------------------------------------------------ *)
(** ** Records of the store ([types.ts])                                *)
(* ------------------------------------------------------------------ *)

(** [SessionTime] and [ProjectTime]: the same shape. *)
Record Time : Type := mkTime { created : Z; updated : Z }.

Record SessionSummary : Type :=
  mkSummary { additions : Z; deletions : Z; files : Z }.

Module Session.
Record t : Type := mk {
  id : string;
  slug : option string;
  version : option string;
  projectID : string;
  directory : string;
  parentID : option string;
  title : option string;
  time : Time;
  summary : option SessionSummary
}.

(** What [readJsonFile<Session>] hands over: a record, or a value whose
    [id] is no string; [image] is what [`${session.id}`] gives for it
    ([undefined] when there is no id at all). *)
Inductive record : Type :=
| Typed (session : t)
| NoId (image : string).
End Session.

Module SessionInfo.
(** [interface SessionInfo extends Session] *)
Record t : Type := mk {
  session : Session.t;
  sizeBytes : Z;
  messageCount : Z;
  isOrphan : bool;
  projectWorktree : string
}.
Definition id (s : t) := Session.id (session s).
Definition projectID (s : t) := Session.projectID (session s).
Definition directory (s : t) := Session.directory (session s).
Definition time (s : t) := Session.time (session s).
End SessionInfo.

Module Message.
(** The fields the engine reads: [id], which is [None] when the value
    read has no id that is a string, and [created], which is
    [time.created]. *)
Record t : Type := mk {
  id : option string;
  created : Z
}.
End Message.

Module Project.
Record t : Type := mk {
  id : string;
  worktree : string;
  vcs : option string;
  sandboxes : option (list string);
  time : Time
}.
End Project.

Module ProjectInfo.
(** [interface ProjectInfo extends Project] *)
Record t : Type := mk {
  project : Project.t;
  sessionCount : Z;
  totalSizeBytes : Z;
  isOrphan : bool;
  sessions : list SessionInfo.t
}.
Definition id (p : t) := Project.id (project p).
Definition worktree (p : t) := Project.worktree (project p).
Definition time (p : t) := Project.time (project p).
End ProjectInfo.

Module FrecencyEntry.
(** [path] is [None] when the value read has no path that is a string
    (as [null] has none). *)
Record t : Type := mk {
  path : option string;
  frequency : option Z;
  lastOpen : option Z
}.
End FrecencyEntry.

Module LogFile.
Record t : Type := mk {
  path : list string;
  filename : string;
  date : option Z;                  (* [getTime()]; [None] is NaN *)
  sizeBytes : Z
}.
End LogFile.

(* ------------------------------------------------------------------ *)
(** ** What the engine takes from its runtime                           *)
(* ------------------------------------------------------------------ *)

(** The JavaScript runtime and the operating system, as far as the engine
    relies on them.  A [parse*] field is [JSON.parse(text) as T] where the
    caller goes on: [None] when parsing throws or the value is falsy.  The
    cast checks nothing, so the ids that the engine hands to [path.join]
    may be missing: a session comes as a [Session.record], a message with
    an optional id, a frequency entry with an optional path.  For the
    other fields the cast is taken at its word. *)
Class Runtime : Type := {
  HOME : path;                               (* os.homedir() *)
  resolve : string -> option path;           (* a path string, resolved *)
  dirStatSize : Z;                           (* stat(dir).size *)
  parseProject : string -> option Project.t;
  parseSession : string -> option Session.record;
  parseMessage : string -> option Message.t;
  parseFrecency : string -> option FrecencyEntry.t;
  Date_parse : string -> option Z            (* new Date(text).getTime() *)
}.

(* ------------------------------------------------------------------ *)
(** ** Insertion-ordered maps ([Map<string, V>])                        *)
(* ------------------------------------------------------------------ *)

Module JsMap.

Definition t (V : Type) : Type := list (string * V).

Definition get {V} (k : string) (m : t V) : option V := find_entry k m.

Definition has {V} (k : string) (m : t V) : bool :=
  match get k m with Some _ => true | None => false end.

(** [m.set(k, v)]: a known key keeps its place, a new one goes last. *)
Definition set {V} (k : string) (v : V) (m : t V) : t V :=
  if has k m then update_entry k (fun _ => v) m else m ++ [(k, v)].

End JsMap.

(* ------------------------------------------------------------------ *)
(** ** [Array.prototype.sort]: stable, by a comparator                  *)
(* ------------------------------------------------------------------ *)

Section Sort.
Context {A : Type} (cmp : A -> A -> Z).

(** [x] goes before the first element it does not have to follow. *)
Fixpoint insert_sorted (x : A) (l : list A) : list A :=
  match l with
  | [] => [x]
  | y :: r => if cmp x y <=? 0 then x :: y :: r else y :: insert_sorted x r
  end.

Definition sort (l : list A) : list A := fold_right insert_sorted [] l.
End Sort.

(* ------------------------------------------------------------------ *)
(** ** [config.ts] and [data/loader.ts]                                 *)
(* ------------------------------------------------------------------ *)

Section Engine.
Context {rt : Runtime}.

Definition OPENCODE_STATE_DIR : path := HOME ++ [".local"; "state"; "opencode"]%string.
Definition OPENCODE_SHARE_DIR : path := HOME ++ [".local"; "share"; "opencode"]%string.
Definition FRECENCY_FILE : path := join OPENCODE_STATE_DIR "frecency.jsonl".
Definition STORAGE_DIR : path := join OPENCODE_SHARE_DIR "storage".
Definition SESSION_DIR : path := join STORAGE_DIR "session".
Definition MESSAGE_DIR : path := join STORAGE_DIR "message".
Definition PART_DIR : path := join STORAGE_DIR "part".
Definition PROJECT_DIR : path := join STORAGE_DIR "project".
Definition SESSION_DIFF_DIR : path := join STORAGE_DIR "session_diff".
Definition TODO_DIR : path := join STORAGE_DIR "todo".
Definition SNAPSHOT_DIR : path := join OPENCODE_SHARE_DIR "snapshot".
Definition LOG_DIR : path := join OPENCODE_SHARE_DIR "log".

(** The cross-namespace joins, keyed by ids read from records. *)
Definition messageDir (sessionID : string) : path :=
  Path.join MESSAGE_DIR sessionID.
Definition partDir (messageID : string) : path := Path.join PART_DIR messageID.
Definition dotJson (stem : string) : string := (stem ++ ".json")%string.
Definition diffFile (sessionID : string) : path :=
  Path.join SESSION_DIFF_DIR (dotJson sessionID).
Definition todoFile (sessionID : string) : path :=
  Path.join TODO_DIR (dotJson sessionID).
Definition sessionFile (projectID sessionID : string) : path :=
  Path.join (Path.join SESSION_DIR projectID) (dotJson sessionID).
Definition projectSessionDir (projectID : string) : path :=
  Path.join SESSION_DIR projectID.
Definition snapshotDir (projectID : string) : path :=
  Path.join SNAPSHOT_DIR projectID.

(** The message of the [TypeError] of [path.join] for an argument that
    is no string. *)
Definition ERR_INVALID_ARG_TYPE : string :=
  let q := String (ascii_of_nat 34) EmptyString in
  ("The " ++ q ++ "path" ++ q
   ++ " argument must be of type string. Received undefined")%string.

Definition isJson (file : string) : bool := Str.endsWith file ".json".

(** [readJsonFile<T>(path)]: never throws. *)
Definition readJsonFile {T} (parse : string -> option T) (fs : FS) (p : path)
  : option T :=
  match readFile fs p with
  | Ok content => parse content
  | Throw _ => None
  end.

(** The walk of [getDirSize] from a directory node: files count with
    their size, directories with their own walk. *)
Fixpoint walkSize (n : node) : Z :=
  match n with
  | File _ => 0
  | Dir es =>
      (fix entriesLoop (es : list (string * node)) (totalSize : Z) : Z :=
         match es with
         | [] => totalSize
         | (_, entry) :: rest =>
             match entry with
             | File c => entriesLoop rest (totalSize + bytes c)
             | Dir _ => entriesLoop rest (totalSize + walkSize entry)
             end
         end) es 0
  end.

(** [getDirSize(dirPath)]: 0 when [readdir] throws. *)
Definition getDirSize (fs : FS) (dirPath : path) : Z :=
  match lookup dirPath (root fs) with
  | Some n => walkSize n
  | None => 0
  end.

(** [getFileSize(filePath)]: [stat().size], 0 when [stat] throws. *)
Definition getFileSize (fs : FS) (filePath : path) : Z :=
  match lookup filePath (root fs) with
  | Some (File c) => bytes c
  | Some (Dir _) => dirStatSize
  | None => 0
  end.

(** [directoryExists(path)] *)
Definition directoryExists (fs : FS) (p : string) : bool :=
  match resolve p with
  | Some target => exists_at fs target
  | None => false
  end.

Definition loadProjects (fs : FS) : JsMap.t Project.t :=
  match readdir fs PROJECT_DIR with
  | Throw _ => []
  | Ok files =>
      fold_left
        (fun projects file =>
           if negb (isJson file) then projects
           else match readJsonFile parseProject fs (join PROJECT_DIR file) with
                | Some project => JsMap.set (Project.id project) project projects
                | None => projects
                end)
        files []
  end.

Definition getSessionMessageCount (fs : FS) (sessionID : string) : Z :=
  match readdir fs (messageDir sessionID) with
  | Ok files => Z.of_nat (length (filter isJson files))
  | Throw _ => 0
  end.

(** The loop of [getSessionSize] over the message files.  It runs in
    a [try]: for a message without a string id [join] throws, which ends
    the loop with what was added so far. *)
Fixpoint partsLoop (fs : FS) (sessionID : string) (messageFiles : list string)
  (totalSize : Z) : Z :=
  match messageFiles with
  | [] => totalSize
  | file :: rest =>
      if negb (isJson file) then partsLoop fs sessionID rest totalSize
      else
        match readJsonFile parseMessage fs (join (messageDir sessionID) file) with
        | None => partsLoop fs sessionID rest totalSize
        | Some message =>
            match Message.id message with
            | Some messageID =>
                partsLoop fs sessionID rest
                  (totalSize + getDirSize fs (partDir messageID))
            | None => totalSize
            end
        end
  end.

(** [getSessionSize(sessionID)] for a string. *)
Definition getSessionSize (fs : FS) (sessionID : string) : Z :=
  let totalSize := getDirSize fs (messageDir sessionID) in
  let totalSize :=
    match readdir fs (messageDir sessionID) with
    | Ok messageFiles => partsLoop fs sessionID messageFiles totalSize
    | Throw _ => totalSize
    end in
  let totalSize := totalSize + getFileSize fs (diffFile sessionID) in
  let totalSize := totalSize + getFileSize fs (todoFile sessionID) in
  totalSize.

(** The inner loop of [loadSessions], over the files of one project
    directory; [sessions] is the array being filled.  The flag tells
    whether the scan goes on: for a record without a string id
    [getSessionSize] rejects (its first [join] is outside its [try]), and
    that ends the scan of the whole store. *)
Fixpoint sessionFilesLoop (fs : FS) (projectSessionDir : path)
  (projectWorktree : string) (sessionFiles : list string)
  (sessions : list SessionInfo.t) : list SessionInfo.t * bool :=
  match sessionFiles with
  | [] => (sessions, true)
  | file :: rest =>
      if negb (isJson file)
      then sessionFilesLoop fs projectSessionDir projectWorktree rest sessions
      else
        let sessionPath := join projectSessionDir file in
        match readJsonFile parseSession fs sessionPath with
        | None =>
            sessionFilesLoop fs projectSessionDir projectWorktree rest sessions
        | Some (Session.NoId _) => (sessions, false)
        | Some (Session.Typed session) =>
            let sessionFileSize := getFileSize fs sessionPath in
            let messageCount := getSessionMessageCount fs (Session.id session) in
            let additionalSize := getSessionSize fs (Session.id session) in
            let isOrphan := negb (directoryExists fs (Session.directory session)) in
            sessionFilesLoop fs projectSessionDir projectWorktree rest
              (sessions ++
               [SessionInfo.mk session (sessionFileSize + additionalSize)
                  messageCount isOrphan projectWorktree])
        end
  end.

(** The outer loop; a throwing [stat] or [readdir], or the inner loop,
    ends it, and the [catch] keeps what was pushed. *)
Fixpoint projectDirsLoop (fs : FS) (projects : JsMap.t Project.t)
  (projectDirs : list string) (sessions : list SessionInfo.t)
  : list SessionInfo.t :=
  match projectDirs with
  | [] => sessions
  | projectID :: rest =>
      let projectSessionDir := join SESSION_DIR projectID in
      match lookup projectSessionDir (root fs) with
      | None => sessions
      | Some (File _) => projectDirsLoop fs projects rest sessions
      | Some (Dir _) =>
          match readdir fs projectSessionDir with
          | Throw _ => sessions
          | Ok sessionFiles =>
              let projectWorktree :=
                match JsMap.get projectID projects with
                | Some project => Project.worktree project
                | None => "/"%string
                end in
              let (sessions, goesOn) :=
                sessionFilesLoop fs projectSessionDir projectWorktree
                  sessionFiles sessions in
              if (goesOn : bool) then projectDirsLoop fs projects rest sessions
              else sessions
          end
      end
  end.

Definition byUpdatedDesc (a b : SessionInfo.t) : Z :=
  updated (SessionInfo.time b) - updated (SessionInfo.time a).

Definition loadSessions (fs : FS) (projects : JsMap.t Project.t)
  : list SessionInfo.t :=
  sort byUpdatedDesc
    match readdir fs SESSION_DIR with
    | Ok projectDirs => projectDirsLoop fs projects projectDirs []
    | Throw _ => []
    end.

(** [loadMessages(sessionID)]: the message records of a session, by
    creation time. *)
Definition byCreatedAsc (a b : Message.t) : Z :=
  Message.created a - Message.created b.

Definition loadMessages (fs : FS) (sessionID : string) : list Message.t :=
  sort byCreatedAsc
    match readdir fs (messageDir sessionID) with
    | Ok files =>
        fold_left
          (fun messages file =>
             if negb (isJson file) then messages
             else match readJsonFile parseMessage fs
                          (join (messageDir sessionID) file) with
                  | Some message => messages ++ [message]
                  | None => messages
                  end)
          files []
    | Throw _ => []
    end.

(** [Math.min(...xs)] and [Math.max(...xs)] on a list that is not empty
    (a group of sessions never is; the empty case stands for the
    infinities, which no timestamp holds). *)
Definition Math_min (xs : list Z) : Z :=
  match xs with [] => 0 | x :: r => fold_left Z.min r x end.
Definition Math_max (xs : list Z) : Z :=
  match xs with [] => 0 | x :: r => fold_left Z.max r x end.

(** [sessionsByProject]: the sessions grouped by [projectID]. *)
Definition groupByProject (sessions : list SessionInfo.t)
  : JsMap.t (list SessionInfo.t) :=
  fold_left
    (fun sessionsByProject session =>
       let projectSessions :=
         match JsMap.get (SessionInfo.projectID session) sessionsByProject with
         | Some l => l
         | None => []
         end in
       JsMap.set (SessionInfo.projectID session)
         (projectSessions ++ [session]) sessionsByProject)
    sessions [].

Definition totalSize (projectSessions : list SessionInfo.t) : Z :=
  fold_left (fun sum s => sum + SessionInfo.sizeBytes s) projectSessions 0.

(** One entry of the first loop of [loadProjectInfos]. *)
Definition groupInfo (fs : FS) (projects : JsMap.t Project.t)
  (group : string * list SessionInfo.t) : ProjectInfo.t :=
  let (projectID, projectSessions) := group in
  match JsMap.get projectID projects with
  | None =>
      ProjectInfo.mk
        (Project.mk projectID
           match projectSessions with
           | s :: _ => SessionInfo.directory s
           | [] => "/unknown"%string
           end
           None None
           (mkTime
              (Math_min (map (fun s => created (SessionInfo.time s)) projectSessions))
              (Math_max (map (fun s => updated (SessionInfo.time s)) projectSessions))))
        (Z.of_nat (length projectSessions))
        (totalSize projectSessions)
        true
        projectSessions
  | Some project =>
      ProjectInfo.mk project
        (Z.of_nat (length projectSessions))
        (totalSize projectSessions)
        (negb (directoryExists fs (Project.worktree project)))
        projectSessions
  end.

(** One entry of the second loop: a project record without sessions. *)
Definition emptyInfo (fs : FS) (project : Project.t) : ProjectInfo.t :=
  ProjectInfo.mk project 0 0
    (negb (directoryExists fs (Project.worktree project))) [].

Definition byProjectUpdatedDesc (a b : ProjectInfo.t) : Z :=
  updated (ProjectInfo.time b) - updated (ProjectInfo.time a).

Definition loadProjectInfos (fs : FS) (sessions : list SessionInfo.t)
  (projects : JsMap.t Project.t) : list ProjectInfo.t :=
  let sessionsByProject := groupByProject sessions in
  let projectInfos := map (groupInfo fs projects) sessionsByProject in
  let projectInfos :=
    fold_left
      (fun projectInfos entry =>
         if JsMap.has (fst entry) sessionsByProject then projectInfos
         else projectInfos ++ [emptyInfo fs (snd entry)])
      projects projectInfos in
  sort byProjectUpdatedDesc projectInfos.

(** The file-name pattern of [loadLogs],
    [^(\d{4}-\d{2}-\d{2})T(\d{2})(\d{2})(\d{2})\.log$]. *)
Inductive pat : Type := Digit | Lit (c : ascii).

Definition isDigit (c : ascii) : bool :=
  (Nat.leb 48 (nat_of_ascii c) && Nat.leb (nat_of_ascii c) 57)%bool.

Fixpoint matches (ps : list pat) (s : string) : bool :=
  match ps, s with
  | [], EmptyString => true
  | Digit :: ps', String c r => (isDigit c && matches ps' r)%bool
  | Lit k :: ps', String c r => (Ascii.eqb c k && matches ps' r)%bool
  | _, _ => false
  end.

Definition lits (s : string) : list pat := map Lit (list_ascii_of_string s).

Definition logNamePattern : list pat :=
  repeat Digit 4 ++ lits "-" ++ repeat Digit 2 ++ lits "-" ++ repeat Digit 2
  ++ lits "T" ++ repeat Digit 6 ++ lits ".log".

(** The date of a log: from the file name when it has the pattern,
    otherwise the [new Date()] taken for this file. *)
Definition logDate (now : Z) (file : string) : option Z :=
  if matches logNamePattern file then
    Date_parse (String.substring 0 10 file ++ "T" ++ String.substring 11 2 file
                ++ ":" ++ String.substring 13 2 file
                ++ ":" ++ String.substring 15 2 file)%string
  else Some now.

Definition isLog (file : string) : bool := Str.endsWith file ".log".

(** The loop of [loadLogs]; [tick] counts the [new Date()] calls made. *)
Fixpoint logFilesLoop (fs : FS) (clock : nat -> Z) (tick : nat)
  (files : list string) (logs : list LogFile.t) : list LogFile.t :=
  match files with
  | [] => logs
  | file :: rest =>
      if negb (isLog file) then logFilesLoop fs clock tick rest logs
      else
        let filePath := join LOG_DIR file in
        match lookup filePath (root fs) with
        | None => logs
        | Some _ =>
            logFilesLoop fs clock (S tick) rest
              (logs ++ [LogFile.mk filePath file (logDate (clock tick) file)
                          (getFileSize fs filePath)])
        end
  end.

(** [b.date.getTime() - a.date.getTime()]; with a date that is NaN the
    difference is NaN, which the sort takes for 0. *)
Definition byDateDesc (a b : LogFile.t) : Z :=
  match LogFile.date b, LogFile.date a with
  | Some tb, Some ta => tb - ta
  | _, _ => 0
  end.

(** [loadLogs()]; [clock k] is what the wall clock shows at the [k]-th
    [new Date()] of the call.  Where a date is NaN the comparator is no
    order, and the place of the entries is the engine's choice: the order
    of the result then stands for one such choice. *)
Definition loadLogs (fs : FS) (clock : nat -> Z) : list LogFile.t :=
  sort byDateDesc
    match readdir fs LOG_DIR with
    | Ok files => logFilesLoop fs clock 0 files []
    | Throw _ => []
    end.

Record LoadedData : Type := mkLoaded {
  ld_sessions : list SessionInfo.t;
  ld_projects : list ProjectInfo.t;
  ld_logs : list LogFile.t
}.

Definition loadAllData (fs : FS) (clock : nat -> Z) : LoadedData :=
  let projects := loadProjects fs in
  let sessions := loadSessions fs projects in
  let projectInfos := loadProjectInfos fs sessions projects in
  let logs := loadLogs fs clock in
  mkLoaded sessions projectInfos logs.

(* ------------------------------------------------------------------ *)
(** ** [data/manager.ts]                                                *)
(* ------------------------------------------------------------------ *)

(** [safeRm(path, options)]: true when [rm] returned, false when it threw. *)
Definition safeRm (p : path) (recursive : bool) : M FS bool :=
  try_catch (rm p recursive ;;; ret true) (fun _ => ret false).

Record DeleteSessionResult : Type := mkDSR {
  success : bool;
  sessionID : string;
  filesDeleted : Z;
  bytesFreed : Z;
  error : option string
}.

(** Step 1 of [deleteSession]: the ids of the message records, in
    directory order, [None] for a record without a string id; empty when
    the message directory cannot be read. *)
Definition readMessageIDs (fs : FS) (sessionID : string)
  : list (option string) :=
  match readdir fs (messageDir sessionID) with
  | Ok messageFiles =>
      fold_left
        (fun messageIDs file =>
           if negb (isJson file) then messageIDs
           else match readJsonFile parseMessage fs
                        (join (messageDir sessionID) file) with
                | Some message => messageIDs ++ [Message.id message]
                | None => messageIDs
                end)
        messageFiles []
  | Throw _ => []
  end.

(** The body of [deleteSession] runs on the disk and the local
    [filesDeleted]. *)
Definition Locals : Type := (FS * Z)%type.

Definition onDisk {A} (m : M FS A) : M Locals A :=
  fun st =>
    let (fs', r) := m (fst st) in ((fs', snd st), r).

(** [if (await safeRm(p, options)) filesDeleted++] *)
Definition rmCounted (p : path) (recursive : bool) : M Locals unit :=
  removed <- onDisk (safeRm p recursive) ;;
  if (removed : bool) then (fun st => ((fst st, snd st + 1), Ok tt)) else ret tt.

(** One turn of the loop over [messageIDs]: [join] throws on what is no
    string. *)
Definition rmParts (messageID : option string) : M Locals unit :=
  match messageID with
  | Some id => rmCounted (partDir id) true
  | None => throw ERR_INVALID_ARG_TYPE
  end.

Definition deleteSessionBody (session : SessionInfo.t) : M Locals unit :=
  messageIDs <- reads (fun st => readMessageIDs (fst st) (SessionInfo.id session)) ;;
  for_of messageIDs rmParts ;;;
  rmCounted (messageDir (SessionInfo.id session)) true ;;;
  rmCounted (diffFile (SessionInfo.id session)) false ;;;
  rmCounted (todoFile (SessionInfo.id session)) false ;;;
  rmCounted
    (sessionFile (SessionInfo.projectID session) (SessionInfo.id session)) false.

Definition deleteSession (session : SessionInfo.t) : M FS DeleteSessionResult :=
  fun fs =>
    let bytesFreed := SessionInfo.sizeBytes session in
    match deleteSessionBody session (fs, 0) with
    | ((fs', filesDeleted), Ok _) =>
        (fs', Ok (mkDSR true (SessionInfo.id session) filesDeleted bytesFreed None))
    | ((fs', filesDeleted), Throw e) =>
        (fs', Ok (mkDSR false (SessionInfo.id session) filesDeleted 0 (Some e)))
    end.

Fixpoint deleteSessionsLoop (sessions : list SessionInfo.t)
  (results : list DeleteSessionResult) : M FS (list DeleteSessionResult) :=
  match sessions with
  | [] => ret results
  | session :: rest =>
      r <- deleteSession session ;;
      deleteSessionsLoop rest (results ++ [r])
  end.

Definition deleteSessions (sessions : list SessionInfo.t)
  : M FS (list DeleteSessionResult) :=
  deleteSessionsLoop sessions [].

(** The loop of [cleanFrecencyForDirectory] over the lines: the kept
    lines and the count of the removed ones. *)
Definition frecencyStep (directory : string) (acc : list string * Z)
  (line : string) : list string * Z :=
  let (filteredLines, removedCount) := acc in
  if String.eqb line "" then acc
  else match parseFrecency line with
       | Some entry =>
           match FrecencyEntry.path entry with
           | Some entryPath =>
               if negb (Str.startsWith entryPath directory)
               then (filteredLines ++ [line], removedCount)
               else (filteredLines, removedCount + 1)
           | None => (filteredLines ++ [line], removedCount)
           end
       | None => (filteredLines ++ [line], removedCount)
       end.

Definition cleanFrecencyForDirectory (directory : string) : M FS Z :=
  try_catch
    (content <- (fun fs => (fs, readFile fs FRECENCY_FILE)) ;;
     let lines := Str.split Str.LF (Str.trim content) in
     let (filteredLines, removedCount) :=
       fold_left (frecencyStep directory) lines ([], 0) in
     writeFile FRECENCY_FILE (Str.joinLines filteredLines ++ Str.nl)%string ;;;
     ret removedCount)
    (fun _ => ret 0).

Record DeleteLogResult : Type := mkDLR {
  log_success : bool;
  log_filename : string;
  log_bytesFreed : Z;
  log_error : option string
}.

Definition deleteLog (log : LogFile.t) : M FS DeleteLogResult :=
  try_catch
    (rm (LogFile.path log) false ;;;
     ret (mkDLR true (LogFile.filename log) (LogFile.sizeBytes log) None))
    (fun e => ret (mkDLR false (LogFile.filename log) 0 (Some e))).

Definition getProjectSessionCount (fs : FS) (projectID : string) : Z :=
  match readdir fs (projectSessionDir projectID) with
  | Ok files => Z.of_nat (length (filter isJson files))
  | Throw _ => 0
  end.

Definition projectFile (projectID : string) : path :=
  Path.join PROJECT_DIR (dotJson projectID).

Definition cleanupEmptyProject (projectID worktree : string) : M FS bool :=
  remainingCount <- reads (fun fs => getProjectSessionCount fs projectID) ;;
  if remainingCount =? 0 then
    safeRm (projectFile projectID) false ;;;
    safeRm (projectSessionDir projectID) true ;;;
    safeRm (snapshotDir projectID) true ;;;
    cleanFrecencyForDirectory worktree ;;;
    ret true
  else ret false.

End Engine.

(* ------------------------------------------------------------------ *)
(** ** A reference runtime, to run the engine on concrete disks         *)
(* ------------------------------------------------------------------ *)

(** JSON documents and a fuelled recursive-descent reader for them.  A
    number that is no integer is kept as its text. *)
Module Json.

Inductive t : Type :=
| JNull
| JBool (b : bool)
| JNum (z : Z)
| JFrac (text : string)
| JStr (s : string)
| JArr (items : list t)
| JObj (members : list (string * t)).

Definition DQ : ascii := ascii_of_nat 34.
Definition BSL : ascii := ascii_of_nat 92.

Definition ch (c : ascii) (s : string) : bool :=
  match s with String k EmptyString => Ascii.eqb c k | _ => false end.

(** The white space of JSON: space, tab, line feed, carriage return. *)
Definition isWs (c : ascii) : bool :=
  match nat_of_ascii c with
  | 9%nat | 10%nat | 13%nat | 32%nat => true
  | _ => false
  end.

Fixpoint skip_ws (cs : list ascii) : list ascii :=
  match cs with
  | c :: r => if isWs c then skip_ws r else cs
  | [] => []
  end.

(** A hexadecimal digit. *)
Definition hex (c : ascii) : option nat :=
  let n := nat_of_ascii c in
  if (Nat.leb 48 n && Nat.leb n 57)%bool then Some (n - 48)%nat
  else if (Nat.leb 65 n && Nat.leb n 70)%bool then Some (n - 55)%nat
  else if (Nat.leb 97 n && Nat.leb n 102)%bool then Some (n - 87)%nat
  else None.

(** The four digits after [\u]. *)
Definition read_unit (cs : list ascii) : option (nat * list ascii) :=
  match cs with
  | a :: b :: c :: d :: r =>
      match hex a, hex b, hex c, hex d with
      | Some x, Some y, Some z, Some w =>
          Some (((x * 16 + y) * 16 + z) * 16 + w, r)%nat
      | _, _, _, _ => None
      end
  | _ => None
  end.

(** A code point in UTF-8; a surrogate on its own is written as U+FFFD,
    as the encoder does. *)
Definition utf8 (cp : nat) : string :=
  let b (n : nat) := String (ascii_of_nat n) EmptyString in
  (if Nat.ltb cp 128 then b cp
   else if Nat.ltb cp 2048
        then b (192 + cp / 64)%nat ++ b (128 + cp mod 64)%nat
   else if (Nat.leb 55296 cp && Nat.leb cp 57343)%bool
        then b 239%nat ++ b 191%nat ++ b 189%nat
   else if Nat.ltb cp 65536
        then b (224 + cp / 4096)%nat ++ b (128 + (cp / 64) mod 64)%nat
             ++ b (128 + cp mod 64)%nat
   else b (240 + cp / 262144)%nat ++ b (128 + (cp / 4096) mod 64)%nat
        ++ b (128 + (cp / 64) mod 64)%nat ++ b (128 + cp mod 64)%nat)%string.

(** The characters of a string literal after its opening quote; every
    turn uses up some of them, so their number is fuel enough. *)
Fixpoint read_string (fuel : nat) (cs : list ascii) (acc : string)
  : option (string * list ascii) :=
  match fuel with
  | O => None
  | S fuel' =>
      match cs with
      | [] => None
      | c :: r =>
          if Ascii.eqb c DQ then Some (acc, r)
          else if Ascii.eqb c BSL then
            match r with
            | e :: r' =>
                let plain (k : ascii) :=
                  read_string fuel' r' (acc ++ String k EmptyString) in
                if Ascii.eqb e DQ then plain DQ
                else if Ascii.eqb e BSL then plain BSL
                else if ch e "/" then plain "/"%char
                else if ch e "n" then plain Str.LF
                else if ch e "t" then plain (ascii_of_nat 9)
                else if ch e "r" then plain (ascii_of_nat 13)
                else if ch e "b" then plain (ascii_of_nat 8)
                else if ch e "f" then plain (ascii_of_nat 12)
                else if ch e "u" then
                  match read_unit r' with
                  | Some (hi, r2) =>
                      let one := read_string fuel' r2 (acc ++ utf8 hi) in
                      if (Nat.leb 55296 hi && Nat.leb hi 56319)%bool then
                        match r2 with
                        | b1 :: u1 :: r3 =>
                            if (Ascii.eqb b1 BSL && ch u1 "u")%bool then
                              match read_unit r3 with
                              | Some (lo, r4) =>
                                  if (Nat.leb 56320 lo && Nat.leb lo 57343)%bool
                                  then read_string fuel' r4
                                         (acc ++ utf8 (65536 + (hi - 55296) * 1024
                                                       + (lo - 56320))%nat)
                                  else one
                              | None => one
                              end
                            else one
                        | _ => one
                        end
                      else one
                  | None => None
                  end
                else None
            | [] => None
            end
          else if Nat.ltb (nat_of_ascii c) 32 then None
          else read_string fuel' r (acc ++ String c EmptyString)
      end
  end.

Definition isDigit (c : ascii) : bool :=
  (Nat.leb 48 (nat_of_ascii c) && Nat.leb (nat_of_ascii c) 57)%bool.

Fixpoint read_digits (cs : list ascii) (acc : Z) : Z * list ascii :=
  match cs with
  | c :: r =>
      if isDigit c
      then read_digits r (10 * acc + Z.of_nat (nat_of_ascii c - 48))
      else (acc, cs)
  | [] => (acc, [])
  end.

(** The characters of [cs] up to [rest]. *)
Fixpoint taken (cs rest : list ascii) : string :=
  match cs with
  | [] => EmptyString
  | c :: r =>
      if Nat.eqb (length cs) (length rest) then EmptyString
      else String c (taken r rest)
  end.

(** A number literal: a sign, digits without a leading zero, a fraction,
    an exponent.  Its value when that is an integer, its text
    otherwise. *)
Definition read_number (cs : list ascii) : option (t * list ascii) :=
  let (neg, ds) :=
    match cs with
    | c :: r => if ch c "-" then (true, r) else (false, cs)
    | [] => (false, cs)
    end in
  match ds with
  | d :: r =>
      if isDigit d then
        let (n, rest) := read_digits ds 0 in
        let leadingZero :=
          (ch d "0" && match r with k :: _ => isDigit k | [] => false end)%bool in
        if leadingZero then None
        else
          (* the fraction: its digits go on the mantissa *)
          let fraction :=
            match rest with
            | k :: f :: r1 =>
                if (ch k "." && isDigit f)%bool then
                  let (m, rest1) := read_digits (f :: r1) n in
                  Some (m, Z.of_nat (length (f :: r1)) - Z.of_nat (length rest1),
                        rest1)
                else if ch k "." then None
                else Some (n, 0, rest)
            | [k] => if ch k "." then None else Some (n, 0, rest)
            | [] => Some (n, 0, rest)
            end in
          match fraction with
          | None => None
          | Some (m, scale, rest1) =>
              let exponent :=
                match rest1 with
                | k :: r2 =>
                    if (ch k "e" || ch k "E")%bool then
                      let (minus, r3) :=
                        match r2 with
                        | sg :: r3 =>
                            if ch sg "-" then (true, r3)
                            else if ch sg "+" then (false, r3)
                            else (false, r2)
                        | [] => (false, r2)
                        end in
                      match r3 with
                      | x :: _ =>
                          if isDigit x then
                            let (e, rest2) := read_digits r3 0 in
                            Some (if minus then - e else e, rest2)
                          else None
                      | [] => None
                      end
                    else Some (0, rest1)
                | [] => Some (0, rest1)
                end in
              match exponent with
              | None => None
              | Some (e, rest2) =>
                  let shift := e - scale in
                  let m := if neg then - m else m in
                  if 0 <=? shift then Some (JNum (m * 10 ^ shift), rest2)
                  else if m mod 10 ^ (- shift) =? 0
                       then Some (JNum (m / 10 ^ (- shift)), rest2)
                       else Some (JFrac (taken cs rest2), rest2)
              end
          end
      else None
  | [] => None
  end.

Fixpoint drop_word (w : list ascii) (cs : list ascii) : option (list ascii) :=
  match w, cs with
  | [], _ => Some cs
  | k :: w', c :: r => if Ascii.eqb k c then drop_word w' r else None
  | _ :: _, [] => None
  end.

Inductive mode : Type :=
| Value
| Members (acc : list (string * t))
| Items (acc : list t).

(** What [mode] asks for, read from the front of [cs]; [Members] and
    [Items] start after the opening bracket or a comma. *)
Fixpoint read (fuel : nat) (m : mode) (cs : list ascii)
  : option (t * list ascii) :=
  match fuel with
  | O => None
  | S fuel' =>
      match m, skip_ws cs with
      | Value, c :: r =>
          if ch c "{" then
            match skip_ws r with
            | k :: r' => if ch k "}" then Some (JObj [], r')
                         else read fuel' (Members []) r
            | [] => None
            end
          else if ch c "[" then
            match skip_ws r with
            | k :: r' => if ch k "]" then Some (JArr [], r')
                         else read fuel' (Items []) r
            | [] => None
            end
          else if Ascii.eqb c DQ then
            match read_string (length r) r "" with
            | Some (s, r') => Some (JStr s, r')
            | None => None
            end
          else if ch c "t" then
            option_map (fun r' => (JBool true, r'))
              (drop_word (list_ascii_of_string "true") (c :: r))
          else if ch c "f" then
            option_map (fun r' => (JBool false, r'))
              (drop_word (list_ascii_of_string "false") (c :: r))
          else if ch c "n" then
            option_map (fun r' => (JNull, r'))
              (drop_word (list_ascii_of_string "null") (c :: r))
          else
            read_number (c :: r)
      | Members acc, c :: r =>
          if Ascii.eqb c DQ then
            match read_string (length r) r "" with
            | Some (key, r1) =>
                match skip_ws r1 with
                | colon :: r2 =>
                    if ch colon ":" then
                      match read fuel' Value r2 with
                      | Some (v, r3) =>
                          match skip_ws r3 with
                          | k :: r4 =>
                              if ch k "," then
                                read fuel' (Members (acc ++ [(key, v)])) r4
                              else if ch k "}" then
                                Some (JObj (acc ++ [(key, v)]), r4)
                              else None
                          | [] => None
                          end
                      | None => None
                      end
                    else None
                | [] => None
                end
            | None => None
            end
          else None
      | Items acc, c :: r =>
          match read fuel' Value (c :: r) with
          | Some (v, r1) =>
              match skip_ws r1 with
              | k :: r2 =>
                  if ch k "," then read fuel' (Items (acc ++ [v])) r2
                  else if ch k "]" then Some (JArr (acc ++ [v]), r2)
                  else None
              | [] => None
              end
          | None => None
          end
      | _, [] => None
      end
  end.

(** [JSON.parse(text)]: one value, white space around it, nothing else. *)
Definition parse (text : string) : option t :=
  let cs := list_ascii_of_string text in
  match read (S (length cs)) Value cs with
  | Some (v, rest) => match skip_ws rest with [] => Some v | _ => None end
  | None => None
  end.

(** [value.key]: the last member of that name wins. *)
Definition field (key : string) (v : t) : option t :=
  match v with
  | JObj ms => find_entry key (rev ms)
  | _ => None
  end.

Definition str (key : string) (v : t) : option string :=
  match field key v with Some (JStr s) => Some s | _ => None end.

Definition num (key : string) (v : t) : option Z :=
  match field key v with Some (JNum z) => Some z | _ => None end.

Definition time (v : t) : option Time :=
  match field "time" v with
  | Some tm =>
      match num "created" tm, num "updated" tm with
      | Some c, Some u => Some (mkTime c u)
      | _, _ => None
      end
  | None => None
  end.

(** A value in a condition. *)
Definition truthy (v : t) : bool :=
  match v with
  | JNull => false
  | JBool b => b
  | JNum z => negb (z =? 0)
  | JStr s => negb (String.eqb s "")
  | JFrac _ | JArr _ | JObj _ => true
  end.

(** [String(v)], as a template literal shows a value; a number that is
    no integer is shown as it was written. *)
Fixpoint image (v : t) : string :=
  match v with
  | JNull => "null"
  | JBool true => "true"
  | JBool false => "false"
  | JNum z => NilZero.string_of_int (Z.to_int z)
  | JFrac text => text
  | JStr s => s
  | JObj _ => "[object Object]"
  | JArr items =>
      String.concat ","
        ((fix each (items : list t) : list string :=
            match items with
            | [] => []
            | JNull :: rest => EmptyString :: each rest
            | item :: rest => image item :: each rest
            end) items)
  end%string.

Definition asProject (v : t) : option Project.t :=
  match str "id" v, str "worktree" v, time v with
  | Some i, Some w, Some tm => Some (Project.mk i w (str "vcs" v) None tm)
  | _, _, _ => None
  end.

(** A session: a value without a string id keeps the image of what it
    has for one. *)
Definition asSession (v : t) : option Session.record :=
  if truthy v then
    match str "id" v with
    | Some i =>
        match str "projectID" v, str "directory" v, time v with
        | Some p, Some d, Some tm =>
            Some (Session.Typed
                    (Session.mk i (str "slug" v) (str "version" v) p d
                       (str "parentID" v) (str "title" v) tm None))
        | _, _, _ => None
        end
    | None =>
        Some (Session.NoId match field "id" v with
                           | Some w => image w
                           | None => "undefined"%string
                           end)
    end
  else None.

(** A message: any value that is not falsy; [created] is 0 where the
    value holds no integer for it. *)
Definition asMessage (v : t) : option Message.t :=
  if truthy v then
    Some (Message.mk (str "id" v)
            match field "time" v with
            | Some tm => match num "created" tm with Some c => c | None => 0 end
            | None => 0
            end)
  else None.

(** A line of the frequency log: any value that parses. *)
Definition asFrecency (v : t) : option FrecencyEntry.t :=
  Some (FrecencyEntry.mk (str "path" v) (num "frequency" v) (num "lastOpen" v)).

Definition decode {T} (as_ : t -> option T) (text : string) : option T :=
  match parse text with Some v => as_ v | None => None end.

(** JSON text written with single quotes, to be read with double ones. *)
Fixpoint js (s : string) : string :=
  match s with
  | EmptyString => EmptyString
  | String c r => String (if ch c "'" then DQ else c) (js r)
  end.

End Json.

Module Posix.

(** The path a string names, from the working directory [cwd] unless it
    starts at the root; the empty string names nothing. *)
Definition resolve (cwd : path) (s : string) : option path :=
  if String.eqb s "" then None
  else Some (fold_left Path.walk (Str.split "/"%char s)
               (if Str.startsWith s "/" then [] else cwd)).

Definition digits (s : string) : Z :=
  fst (Json.read_digits (list_ascii_of_string s) 0).

Definition days_from_civil (y m d : Z) : Z :=
  let y := if m <=? 2 then y - 1 else y in
  let era := y / 400 in
  let yoe := y - era * 400 in
  let doy := (153 * ((m + 9) mod 12) + 2) / 5 + d - 1 in
  era * 146097 + (yoe * 365 + yoe / 4 - yoe / 100 + doy) - 719468.

(** [new Date("YYYY-MM-DDTHH:MM:SS").getTime()] in the zone UTC: NaN
    when a field is out of its range (a month above 12, a day above 31,
    an hour above 24, ...); a day the month does not have runs over into
    the next. *)
Definition Date_parse (s : string) : option Z :=
  let f (i n : Z) := digits (String.substring (Z.to_nat i) (Z.to_nat n) s) in
  let inRange :=
    ((1 <=? f 5 2) && (f 5 2 <=? 12) && (1 <=? f 8 2) && (f 8 2 <=? 31)
     && (f 14 2 <=? 59) && (f 17 2 <=? 59)
     && ((f 11 2 <=? 23)
         || ((f 11 2 =? 24) && (f 14 2 =? 0) && (f 17 2 =? 0))))%bool in
  if inRange then
    Some ((((days_from_civil (f 0 4) (f 5 2) (f 8 2) * 24 + f 11 2) * 60
            + f 14 2) * 60 + f 17 2) * 1000)
  else None.

End Posix.

(** The runtime of a user whose home is [/home/u], working at the root. *)
#[export] Instance reference : Runtime := {|
  HOME := ["home"; "u"]%string;
  resolve := Posix.resolve [];
  dirStatSize := 4096;
  parseProject := Json.decode Json.asProject;
  parseSession := Json.decode Json.asSession;
  parseMessage := Json.decode Json.asMessage;
  parseFrecency := Json.decode Json.asFrecency;
  Date_parse := Posix.Date_parse
|}.

(* ------------------------------------------------------------------ *)
(** ** The vocabulary of the statements                                 *)
(* ------------------------------------------------------------------ *)

(** [x] is what is left of [y]: the same file, or a directory again. *)
Definition remnant (x y : node) : Prop :=
  match x, y with
  | File c, File c' => c = c'
  | Dir _, Dir _ => True
  | _, _ => False
  end.

(** Two paths part ways: at some segment they differ. *)
Fixpoint diverge (p q : path) : bool :=
  match p, q with
  | a :: p', b :: q' => if String.eqb a b then diverge p' q' else true
  | _, _ => false
  end.

(** No separator in the string. *)
Fixpoint noSep (sep : ascii) (s : string) : bool :=
  match s with
  | EmptyString => true
  | String c r => (negb (Ascii.eqb c sep) && noSep sep r)%bool
  end.

(** The removal of [p] is refused: the target is there, and it is a
    denied one, a directory asked without [recursive], or the root. *)
Definition refused (fs : FS) (p : path) (recursive : bool) : bool :=
  (exists_at fs p
   && (is_denied fs p || (negb recursive && is_dir_at fs p)
       || match p with [] => true | _ :: _ => false end))%bool.

(** [fs'] is [fs] after removals only: nothing new, kinds kept. *)
Record shrinks (fs fs' : FS) : Prop := mkShrinks {
  shrinks_denied : denied fs' = denied fs;
  shrinks_lookup : forall q x,
    lookup q (root fs') = Some x ->
    exists y, lookup q (root fs) = Some y /\ remnant x y
}.

(** A removal step: the target and whether it is removed recursively. *)
Definition step : Type := (path * bool)%type.

Definition runSteps (l : list step) : M Locals unit :=
  for_of l (fun st => rmCounted (fst st) (snd st)).

Definition unrefused (fs : FS) (st : step) : bool :=
  negb (refused fs (fst st) (snd st)).

Fixpoint sumZ (l : list Z) : Z :=
  match l with
  | [] => 0
  | x :: r => x + sumZ r
  end.



Section NodeInduction.
Variable P : node -> Prop.
Hypothesis P_File : forall c, P (File c).
Hypothesis P_Dir : forall es, Forall (fun e => P (snd e)) es -> P (Dir es).

End NodeInduction.

(** The time of a log whose date is one. *)
Definition logTime (log : LogFile.t) : Z :=
  match LogFile.date log with Some t => t | None => 0 end.

Definition dated (log : LogFile.t) : bool :=
  match LogFile.date log with Some _ => true | None => false end.

(** What a log entry says of its file, the date left out. *)
Definition logEntry (log : LogFile.t) : path * string * Z :=
  (LogFile.path log, LogFile.filename log, LogFile.sizeBytes log).

(** A list in the order of a sort by [key], largest first. *)
Definition descending {A : Type} (key : A -> Z) (l : list A) : Prop :=
  StronglySorted (fun a b => key b <= key a) l.

Definition ofProject (key : string) (s : SessionInfo.t) : bool :=
  String.eqb (SessionInfo.projectID s) key.

(** The groups while [seen] have been put in: distinct keys, each
    group the sessions seen of its key, in order, and none empty. *)
Record grouped (seen : list SessionInfo.t)
  (m : JsMap.t (list SessionInfo.t)) : Prop := mkGrouped {
  grouped_keys : NoDup (map fst m);
  grouped_members : forall k l, In (k, l) m ->
      l = filter (ofProject k) seen /\ l <> [];
  grouped_all : forall s, In s seen -> In (SessionInfo.projectID s) (map fst m)
}.

Definition addToGroup (m : JsMap.t (list SessionInfo.t)) (s : SessionInfo.t)
  : JsMap.t (list SessionInfo.t) :=
  JsMap.set (SessionInfo.projectID s)
    (match JsMap.get (SessionInfo.projectID s) m with
     | Some l => l
     | None => []
     end ++ [s]) m.

(** The ids of a list before the first that is missing: all of them
    when none is. *)
Fixpoint typedIds (ids : list (option string)) : list string :=
  match ids with
  | Some id :: rest => id :: typedIds rest
  | _ => []
  end.


(** An id that is a string, and one that, if a string, names one
    entry. *)
Definition typedId (id : option string) : bool :=
  match id with Some _ => true | None => false end.

Definition plainId (id : option string) : bool :=
  match id with Some m => Path.plain m | None => true end.

Definition allTyped (ids : list (option string)) : bool := forallb typedId ids.

(** The same removal again. *)
Definition sameStep (a b : step) : bool :=
  (path_eqb (fst a) (fst b) && Bool.eqb (snd a) (snd b))%bool.

(** The targets of the steps lie apart: none of them is inside another,
    and where two are the same the steps are. *)
Fixpoint apart (l : list step) : bool :=
  match l with
  | [] => true
  | st :: rest =>
      (forallb (fun other => diverge (fst st) (fst other) || sameStep st other)
               rest
       && apart rest)%bool
  end.

Section Vocabulary.
Context {rt : Runtime}.

(** The removals of the part directories, for the message ids that
    [deleteSession] gets to. *)
Definition partSteps (fs : FS) (session : SessionInfo.t) : list step :=
  map (fun messageID => (partDir messageID, true))
      (typedIds (readMessageIDs fs (SessionInfo.id session))).

(** The targets of [deleteSession], in the order they are removed. *)
Definition steps (fs : FS) (session : SessionInfo.t) : list step :=
  partSteps fs session
  ++ [ (messageDir (SessionInfo.id session), true);
       (diffFile (SessionInfo.id session), false);
       (todoFile (SessionInfo.id session), false);
       (sessionFile (SessionInfo.projectID session) (SessionInfo.id session),
        false) ].

(** [fs'] is [fs] after removals and rewrites of the frequency log:
    nothing new, kinds kept, and contents kept but for the log. *)
Definition fades (fs fs' : FS) : Prop :=
  forall q x,
    lookup q (root fs') = Some x ->
    exists y, lookup q (root fs) = Some y /\
              match x, y with
              | File c, File c' => q = FRECENCY_FILE \/ c = c'
              | Dir _, Dir _ => True
              | _, _ => False
              end.

(** Every message record of the session has an id that is [ok]. *)
Definition messagesAll (ok : option string -> bool) (fs : FS)
  (sessionID : string) : Prop :=
  forall file message,
    isJson file = true ->
    readJsonFile parseMessage fs (join (messageDir sessionID) file)
      = Some message ->
    ok (Message.id message) = true.

(** A session whose message records all have a string for their id. *)
Definition typedSession (fs : FS) (s : SessionInfo.t) : bool :=
  allTyped (readMessageIDs fs (SessionInfo.id s)).

(** A session whose id, project id and message ids each name one
    entry. *)
Definition plainSession (fs : FS) (s : SessionInfo.t) : bool :=
  (Path.plain (SessionInfo.id s) && Path.plain (SessionInfo.projectID s)
   && forallb plainId (readMessageIDs fs (SessionInfo.id s)))%bool.


(** The targets of [deleteSession]: the part directories of the message
    ids read, the message directory, the diff file, the todo file and the
    session record file. *)
Definition targets (fs : FS) (session : SessionInfo.t) : list path :=
  map fst (steps fs session).

(** How many of the targets are on the disk. *)
Definition existingTargets (fs : FS) (session : SessionInfo.t) : Z :=
  Z.of_nat (length (filter (exists_at fs) (targets fs session))).

(** The lines of the log the rewrite goes over: those of the trimmed
    content that are not empty. *)
Definition entryLines (content : string) : list string :=
  filter (fun line => negb (String.eqb line "")) (Str.split Str.LF (Str.trim content)).

(** An entry has a path that starts with [prefix]. *)
Definition pathUnder (prefix : string) (entry : FrecencyEntry.t) : bool :=
  match FrecencyEntry.path entry with
  | Some entryPath => Str.startsWith entryPath prefix
  | None => false
  end.

(** A line holds an entry whose path starts with [prefix]. *)
Definition underPrefix (prefix line : string) : bool :=
  match parseFrecency line with
  | Some entry => pathUnder prefix entry
  | None => false
  end.

(** The log as the spec words it: every line is kept but those whose
    entry's path starts with [prefix]; one line feed after each. *)
Definition keptLines (prefix content : string) : list string :=
  filter (fun line => negb (underPrefix prefix line)) (entryLines content).

Definition removedCount (prefix content : string) : Z :=
  Z.of_nat (length (filter (underPrefix prefix) (entryLines content))).

Definition rewritten (prefix content : string) : string :=
  (Str.joinLines (keptLines prefix content) ++ Str.nl)%string.

(** The message records read from the files of a message directory. *)
Definition recordsIn (fs : FS) (sessionID : string) (files : list string)
  : list Message.t :=
  flat_map
    (fun file =>
       if isJson file then
         match readJsonFile parseMessage fs (join (messageDir sessionID) file) with
         | Some message => [message]
         | None => []
         end
       else [])
    files.

(** [s] is the entry [loadSessions] makes of the record [file] found in
    the session directory [projectID]. *)
Definition loadedFrom (fs : FS) (projects : JsMap.t Project.t)
  (projectID file : string) (s : SessionInfo.t) : Prop :=
  let sessionPath := join (join SESSION_DIR projectID) file in
  isJson file = true /\
  readJsonFile parseSession fs sessionPath
    = Some (Session.Typed (SessionInfo.session s)) /\
  SessionInfo.sizeBytes s =
    getFileSize fs sessionPath + getSessionSize fs (SessionInfo.id s) /\
  SessionInfo.messageCount s = getSessionMessageCount fs (SessionInfo.id s) /\
  SessionInfo.isOrphan s = negb (directoryExists fs (SessionInfo.directory s)) /\
  SessionInfo.projectWorktree s =
    match JsMap.get projectID projects with
    | Some project => Project.worktree project
    | None => "/"%string
    end.

Definition loaded (fs : FS) (projects : JsMap.t Project.t) (s : SessionInfo.t)
  : Prop :=
  exists projectID file, loadedFrom fs projects projectID file s.

(** The sessions as the scan of [loadSessions] finds them, before the
    sort. *)
Definition scannedSessions (fs : FS) (projects : JsMap.t Project.t)
  : list SessionInfo.t :=
  match readdir fs SESSION_DIR with
  | Ok projectDirs => projectDirsLoop fs projects projectDirs []
  | Throw _ => []
  end.

(** The session record in [file] of the directory [dir], if there is
    one, has a string for its id. *)
Definition typedFile (fs : FS) (dir : path) (file : string) : bool :=
  if isJson file then
    match readJsonFile parseSession fs (join dir file) with
    | Some (Session.NoId _) => false
    | _ => true
    end
  else true.

Definition typedDir (fs : FS) (projectID : string) : bool :=
  match readdir fs (join SESSION_DIR projectID) with
  | Ok sessionFiles => forallb (typedFile fs (join SESSION_DIR projectID)) sessionFiles
  | Throw _ => true
  end.


(** The project records that have no group of sessions. *)
Definition withoutSessions (sessions : list SessionInfo.t)
  (projects : JsMap.t Project.t) : list (string * Project.t) :=
  filter (fun entry => negb (JsMap.has (fst entry) (groupByProject sessions)))
         projects.

(** The list [loadProjectInfos] sorts. *)
Definition unsortedInfos (fs : FS) (sessions : list SessionInfo.t)
  (projects : JsMap.t Project.t) : list ProjectInfo.t :=
  map (groupInfo fs projects) (groupByProject sessions)
  ++ map (fun entry => emptyInfo fs (snd entry)) (withoutSessions sessions projects).

(** The key of a project in a map is its id. *)
Definition keyed (projects : JsMap.t Project.t) : Prop :=
  forall key project, In (key, project) projects -> key = Project.id project.

(** The names [loadLogs] takes for logs. *)
Definition logNames (fs : FS) : list string :=
  match readdir fs LOG_DIR with
  | Ok files => filter isLog files
  | Throw _ => []
  end.

End Vocabulary.

(* ------------------------------------------------------------------ *)
(** ** A small store, to run the engine on                              *)
(* ------------------------------------------------------------------ *)

Module Demo.
Local Open Scope string_scope.

Definition project_p1 : string :=
  Json.js "{'id':'p1','worktree':'/home/u/work/app','time':{'created':1,'updated':5}}".

Definition project_p2 : string :=
  Json.js "{'id':'p2','worktree':'/home/u/gone','vcs':'git','time':{'created':2,'updated':3}}".

Definition session_text (id projectID directory : string) (created updated : string)
  : string :=
  Json.js ("{'id':'" ++ id ++ "','slug':'x','version':'1','projectID':'"
           ++ projectID ++ "','directory':'" ++ directory
           ++ "','time':{'created':" ++ created ++ ",'updated':" ++ updated ++ "}}").

Definition message_text (id sessionID created : string) : string :=
  Json.js ("{'id':'" ++ id ++ "','sessionID':'" ++ sessionID
           ++ "','role':'user','time':{'created':" ++ created ++ "}}").

Definition frecency_line_ab : string :=
  Json.js "{'path':'/a/b','frequency':1,'lastOpen':0}".
Definition frecency_line_c : string :=
  Json.js "{'path':'/c','frequency':2,'lastOpen':0}".

(** The tree of a home directory [/home/u] with the given store. *)
Definition disk (storage logs snapshot work : list (string * node))
  (state : list (string * node)) : node :=
  Dir [("home", Dir [("u", Dir [
    (".local", Dir [
       ("share", Dir [("opencode", Dir [
          ("storage", Dir storage);
          ("log", Dir logs);
          ("snapshot", Dir snapshot)])]);
       ("state", Dir [("opencode", Dir state)])]);
    ("work", Dir work)])])].

(** The storage directory; [messages] are the message files of [s1]. *)
Definition storageWith (messages : list (string * node))
  : list (string * node) :=
  [ ("project", Dir [("p1.json", File project_p1); ("p2.json", File project_p2);
                     ("notes.txt", File "not a record")]);
    ("session", Dir [
       ("p1", Dir [("s1.json", File (session_text "s1" "p1" "/home/u/work/app" "1" "10"));
                   ("s2.json", File (session_text "s2" "p1" "/home/u/gone" "2" "20"));
                   ("broken.json", File "{")]);
       ("p9", Dir [("s3.json", File (session_text "s3" "p9" "/home/u/gone" "3" "15"))])]);
    ("message", Dir [("s1", Dir messages)]);
    ("part", Dir [
       ("m1", Dir [("x.json", File "0123456789"); ("y.json", File "01234")]);
       ("m2", Dir [("z.json", File "0123456");
                   ("sub", Dir [("deep.bin", File "012")])])]);
    ("session_diff", Dir [("s1.json", File "[]")]);
    ("todo", Dir [("s1.json", File "[1]")]) ].

Definition storage1 : list (string * node) :=
  storageWith [("m2.json", File (message_text "m2" "s1" "8"));
               ("m1.json", File (message_text "m1" "s1" "7"))].

Definition logs1 : list (string * node) :=
  [ ("2026-01-17T071231.log", File "first");
    ("a.log", File "aa");
    ("b.log", File "bbb");
    ("readme.md", File "no log") ].

Definition state1 : list (string * node) :=
  [ ("frecency.jsonl",
     File (frecency_line_ab ++ Str.nl ++ frecency_line_c ++ Str.nl)) ].

Definition tree1 : node :=
  disk storage1 logs1 [("p1", Dir [("snap", File "s")])] [("app", Dir [])] state1.

(** The store, nothing denied. *)
Definition fs1 : FS := mkFS tree1 [].

(** The same store when the removal of the message directory of [s1]
    is refused. *)
Definition fs1_denied : FS := mkFS tree1 [messageDir "s1"].




(** A frequency log whose first line begins with a space and names no
    entry, with an empty line after it. *)
Definition state8 : list (string * node) :=
  [ ("frecency.jsonl",
     File (" zzz" ++ Str.nl ++ Str.nl ++ frecency_line_c ++ Str.nl)) ].

Definition fs8 : FS := mkFS (disk [] [] [] [] state8) [].

(** A store holding one bare session: no messages, no diff, no todo. *)
Definition tree2 : node :=
  disk [("session", Dir [("p1", Dir [
          ("s1.json", File (session_text "s1" "p1" "/home/u/work/app" "1" "10"))])])]
       [] [] [] [].

Definition fs2 : FS := mkFS tree2 [].

(** What [loadSessions] makes of [s1] on [fs1], and of the bare session
    on [fs2]. *)
Definition session_s1 : SessionInfo.t :=
  SessionInfo.mk
    (Session.mk "s1" (Some "x") (Some "1") "p1" "/home/u/work/app" None None (mkTime 1 10) None)
    274 2 false "/home/u/work/app".

Definition session_bare : SessionInfo.t :=
  SessionInfo.mk
    (Session.mk "s1" (Some "x") (Some "1") "p1" "/home/u/work/app" None None (mkTime 1 10) None)
    118 0 true "/".

Definition record_p2 : Project.t :=
  Project.mk "p2" "/home/u/gone" (Some "git") None (mkTime 2 3).

(** A log that was loaded once and is on no disk here. *)
Definition log_gone : LogFile.t :=
  LogFile.mk (join LOG_DIR "2026-01-01T000000.log") "2026-01-01T000000.log"
    (Some 1767225600000) 77.

(** A project with three sessions. *)
Definition tree3 : node :=
  disk [ ("project", Dir [("p1.json", File project_p1)]);
         ("session", Dir [("p1", Dir [
            ("a.json", File (session_text "a" "p1" "/home/u/work/app" "1" "10"));
            ("b.json", File (session_text "b" "p1" "/home/u/work/app" "2" "20"));
            ("c.json", File (session_text "c" "p1" "/home/u/work/app" "3" "30"))])]) ]
       [] [("p1", Dir [])] [("app", Dir [])] state1.

Definition fs3 : FS := mkFS tree3 [].

Definition session_of (id : string) (created updated : Z) : SessionInfo.t :=
  SessionInfo.mk
    (Session.mk id (Some "x") (Some "1") "p1" "/home/u/work/app" None None
       (mkTime created updated) None)
    117 0 false "/home/u/work/app".

(** The disk after a batch delete of two of the three, and of all. *)
Definition fs3_one_left : FS :=
  fst (deleteSessions [session_of "a" 1 10; session_of "b" 2 20] fs3).

Definition fs3_none_left : FS :=
  fst (deleteSessions
         [session_of "a" 1 10; session_of "b" 2 20; session_of "c" 3 30] fs3).

(** The disk after the batch delete of all three, when the removal of
    the project record is refused. *)
Definition fs3_denied : FS := mkFS (root fs3_none_left) [projectFile "p1"].

(** A store whose logs all carry their date in the name. *)
Definition fs4 : FS :=
  mkFS (disk [] [ ("2026-01-17T071231.log", File "first");
                  ("2026-02-01T010203.log", File "second") ] [] [] []) [].

(** Two runs of the wall clock: one moves on between two readings, one
    does not. *)
Definition tick (k : nat) : Z := 1793000000000 + Z.of_nat k.
Definition still (k : nat) : Z := 1793000005000.

End Demo.

(* ------------------------------------------------------------------ *)
(** ** The rest of [data/manager.ts] and [data/loader.ts]               *)
(* ------------------------------------------------------------------ *)

(** A call on the disk, run beside the mutable locals [L] of a body. *)
Definition beside {L A} (m : M FS A) : M (FS * L) A :=
  fun st =>
    let (fs', r) := m (fst st) in ((fs', snd st), r).

(** An update of the locals. *)
Definition update {L} (f : L -> L) : M (FS * L) unit :=
  fun st => ((fst st, f (snd st)), Ok tt).

Record DeleteProjectResult : Type := mkDPR {
  project_success : bool;
  project_projectID : string;
  sessionsDeleted : Z;
  project_filesDeleted : Z;
  project_bytesFreed : Z;
  frecencyEntriesRemoved : Z;
  project_error : option string
}.

(** The locals of [deleteProject]: [sessionsDeleted], [totalFilesDeleted],
    [totalBytesFreed] and [frecencyEntriesRemoved]. *)
Record ProjectTally : Type := mkTally {
  tally_sessions : Z;
  tally_files : Z;
  tally_bytes : Z;
  tally_frecency : Z
}.

Section MoreEngine.
Context {rt : Runtime}.

(** One turn of the first loop of [deleteProject]. *)
Definition deleteProjectSession (session : SessionInfo.t)
  : M (FS * ProjectTally) unit :=
  result <- beside (deleteSession session) ;;
  if success result then
    update (fun t => mkTally (tally_sessions t + 1)
                             (tally_files t + filesDeleted result)
                             (tally_bytes t + bytesFreed result)
                             (tally_frecency t))
  else ret tt.

Definition countFile : M (FS * ProjectTally) unit :=
  update (fun t => mkTally (tally_sessions t) (tally_files t + 1)
                           (tally_bytes t) (tally_frecency t)).

Definition deleteProjectBody (project : ProjectInfo.t)
  : M (FS * ProjectTally) unit :=
  for_of (ProjectInfo.sessions project) deleteProjectSession ;;;
  removed <- beside (safeRm (projectFile (ProjectInfo.id project)) false) ;;
  (if (removed : bool) then countFile else ret tt) ;;;
  beside (safeRm (projectSessionDir (ProjectInfo.id project)) true) ;;;
  removed <- beside (safeRm (snapshotDir (ProjectInfo.id project)) true) ;;
  (if (removed : bool) then countFile else ret tt) ;;;
  n <- beside (cleanFrecencyForDirectory (ProjectInfo.worktree project)) ;;
  update (fun t => mkTally (tally_sessions t) (tally_files t) (tally_bytes t) n).

Definition deleteProject (project : ProjectInfo.t) : M FS DeleteProjectResult :=
  fun fs =>
    match deleteProjectBody project (fs, mkTally 0 0 0 0) with
    | ((fs', t), Ok _) =>
        (fs', Ok (mkDPR true (ProjectInfo.id project) (tally_sessions t)
                    (tally_files t) (tally_bytes t) (tally_frecency t) None))
    | ((fs', t), Throw e) =>
        (fs', Ok (mkDPR false (ProjectInfo.id project) (tally_sessions t)
                    (tally_files t) (tally_bytes t) (tally_frecency t) (Some e)))
    end.

Fixpoint deleteLogsLoop (logs : list LogFile.t) (results : list DeleteLogResult)
  : M FS (list DeleteLogResult) :=
  match logs with
  | [] => ret results
  | log :: rest =>
      r <- deleteLog log ;;
      deleteLogsLoop rest (results ++ [r])
  end.

Definition deleteLogs (logs : list LogFile.t) : M FS (list DeleteLogResult) :=
  deleteLogsLoop logs [].

(** [loadFrecency()]: the entries of the lines that parse, in order. *)
Definition loadFrecency (fs : FS) : list FrecencyEntry.t :=
  match readFile fs FRECENCY_FILE with
  | Ok content =>
      fold_left
        (fun entries line =>
           if String.eqb line "" then entries
           else match parseFrecency line with
                | Some entry => entries ++ [entry]
                | None => entries
                end)
        (Str.split Str.LF (Str.trim content)) []
  | Throw _ => []
  end.

End MoreEngine.

(** What [deleteLogs] reports of one log on the disk [fs] it started
    from. *)
Definition logReport (fs : FS) (log : LogFile.t) (r : DeleteLogResult) : Prop :=
  log_filename r = LogFile.filename log /\
  (refused fs (LogFile.path log) false = false ->
   log_success r = true /\ log_bytesFreed r = LogFile.sizeBytes log) /\
  (log_success r = false -> log_bytesFreed r = 0 /\ log_error r <> None).

(* ------------------------------------------------------------------ *)
(** ** A second small store                                             *)
(* ------------------------------------------------------------------ *)

Module Scene.
Local Open Scope string_scope.

(** A project at [/a/b] with two sessions, a snapshot, and the frequency
    log of [/a/b] and [/c]. *)
Definition project_ab : string :=
  Json.js "{'id':'p1','worktree':'/a/b','time':{'created':1,'updated':5}}".

Definition tree5 : node :=
  Demo.disk
    [ ("project", Dir [("p1.json", File project_ab)]);
      ("session", Dir [("p1", Dir [
         ("a.json", File (Demo.session_text "a" "p1" "/a/b" "1" "10"));
         ("b.json", File (Demo.session_text "b" "p1" "/a/b" "2" "20"))])]);
      ("message", Dir [("a", Dir [("m1.json", File (Demo.message_text "m1" "a" "7"));
                                  ("draft.json", File "{")])]);
      ("part", Dir [("m1", Dir [("x.json", File "0123456789")])]) ]
    [] [("p1", Dir [("snap", File "s")])] [] Demo.state1.

Definition fs5 : FS := mkFS tree5 [].

Definition session_a : SessionInfo.t :=
  SessionInfo.mk (Session.mk "a" (Some "x") (Some "1") "p1" "/a/b" None None (mkTime 1 10) None)
    178 2 true "/a/b".

Definition session_b : SessionInfo.t :=
  SessionInfo.mk (Session.mk "b" (Some "x") (Some "1") "p1" "/a/b" None None (mkTime 2 20) None)
    105 0 true "/a/b".

Definition info_p1 : ProjectInfo.t :=
  ProjectInfo.mk (Project.mk "p1" "/a/b" None None (mkTime 1 5))
    2 283 true [session_b; session_a].

End Scene.

(* ------------------------------------------------------------------ *)
(** ** Lines that survive a rewrite of the frequency log unchanged      *)
(* ------------------------------------------------------------------ *)

(** A line with no white space at either end, as a line holding one
    JSON object is: [trim] leaves it as it is, and it is not empty. *)
Definition tidy (line : string) : bool :=
  (negb (String.eqb line "") && String.eqb (Str.trim line) line)%bool.

Fixpoint noLF (s : string) : bool :=
  match s with
  | EmptyString => true
  | String c r => (negb (Ascii.eqb c Str.LF) && noLF r)%bool
  end.

(** The string begins with a white-space character. *)
Definition headSpace (s : string) : bool :=
  match s with
  | String a r =>
      (Str.isSpace a
       || match r with
          | String b r2 =>
              Str.isSpace2 a b
              || match r2 with
                 | String c _ => Str.isSpace3 a b c
                 | EmptyString => false
                 end
          | EmptyString => false
          end)%bool
  | EmptyString => false
  end.

(** No end of the string is white space only. *)
Fixpoint solid (s : string) : bool :=
  match s with
  | EmptyString => true
  | String _ r => (negb (Str.allSpace s) && solid r)%bool
  end.

Section MoreVocabulary.
Context {rt : Runtime}.

(** The loop of [loadProjects]. *)
Definition projectsStep (fs : FS) (projects : JsMap.t Project.t) (file : string)
  : JsMap.t Project.t :=
  if negb (isJson file) then projects
  else match readJsonFile parseProject fs (join PROJECT_DIR file) with
       | Some project => JsMap.set (Project.id project) project projects
       | None => projects
       end.

(** A project of the map is the record of some file. *)
Definition fromRecord (fs : FS) (project : Project.t) : Prop :=
  exists file,
    isJson file = true /\
    readJsonFile parseProject fs (join PROJECT_DIR file) = Some project.

End MoreVocabulary.

(* ------------------------------------------------------------------ *)
(** ** What the logs directory lists                                    *)
(* ------------------------------------------------------------------ *)

Section LogVocabulary.
Context {rt : Runtime}.

(** What [loadLogs] says of the log named [file], the date left out. *)
Definition listedLog (fs : FS) (file : string) : path * string * Z :=
  (join LOG_DIR file, file, getFileSize fs (join LOG_DIR file)).

End LogVocabulary.

(* ------------------------------------------------------------------ *)
(** ** [utils.ts]: formatting for the views                             *)
(* ------------------------------------------------------------------ *)

Module Js.

(** A string of the program: its UTF-16 code units. *)
Definition str : Type := list N.

(** The units of a text in ASCII. *)
Definition lit (s : string) : str := map N_of_ascii (list_ascii_of_string s).

(** [s.length] *)
Definition length (s : str) : Z := Z.of_nat (List.length s).

(** [s.slice(start, end)] on integer arguments: a negative index counts
    from the end, and both are clamped to the string. *)
Definition slice (s : str) (start end_ : Z) : str :=
  let len := length s in
  let from := if start <? 0 then Z.max (len + start) 0 else Z.min start len in
  let to := if end_ <? 0 then Z.max (len + end_) 0 else Z.min end_ len in
  firstn (Z.to_nat (to - from)) (skipn (Z.to_nat from) s).

(** [s.slice(start)] *)
Definition sliceFrom (s : str) (start : Z) : str := slice s start (length s).

(** [s.repeat(count)] *)
Fixpoint repeat (s : str) (count : nat) : str :=
  match count with
  | O => []
  | S k => s ++ repeat s k
  end.

(** [s.startsWith(p)] *)
Fixpoint startsWith (s p : str) : bool :=
  match p, s with
  | [], _ => true
  | a :: p', b :: s' => (N.eqb a b && startsWith s' p')%bool
  | _ :: _, [] => false
  end.

(** The text of an integer in a template literal, for an integer below
    1e21 in size (from there on the program prints an exponent). *)
Definition template (n : Z) : str := lit (NilZero.string_of_int (Z.to_int n)).

(** [Math.ceil(n / 2)] and [Math.floor(n / 2)] of an integer. *)
Definition ceilHalf (n : Z) : Z := - ((- n) / 2).
Definition floorHalf (n : Z) : Z := n / 2.

End Js.

(** The times of the program: what a [Date] can hold, from the epoch on;
    on such integers the arithmetic of [formatRelativeTime] is exact. *)
Definition isTime (t : Z) : Prop := 0 <= t <= 8640000000000000.

(** [formatRelativeTime(timestamp)]; [now] is what [Date.now()] returns. *)
Definition formatRelativeTime (now timestamp : Z) : Js.str :=
  let diff := now - timestamp in
  let seconds := diff / 1000 in
  let minutes := seconds / 60 in
  let hours := minutes / 60 in
  let days := hours / 24 in
  let weeks := days / 7 in
  let months := days / 30 in
  let years := days / 365 in
  if years >? 0 then Js.template years ++ Js.lit "y ago"
  else if months >? 0 then Js.template months ++ Js.lit "mo ago"
  else if weeks >? 0 then Js.template weeks ++ Js.lit "w ago"
  else if days >? 0 then Js.template days ++ Js.lit "d ago"
  else if hours >? 0 then Js.template hours ++ Js.lit "h ago"
  else if minutes >? 0 then Js.template minutes ++ Js.lit "m ago"
  else Js.lit "just now".

(** The local [displayPath] of [truncatePath]; [env_HOME] is
    [process.env.HOME]. *)
Definition displayPath (env_HOME : option Js.str) (path : Js.str) : Js.str :=
  let home := match env_HOME with Some h => h | None => [] end in
  if (negb (Js.length home =? 0) && Js.startsWith path home)%bool
  then Js.lit "~" ++ Js.sliceFrom path (Js.length home)
  else path.

(** [truncatePath(path, maxLength)] *)
Definition truncatePath (env_HOME : option Js.str) (path : Js.str)
  (maxLength : Z) : Js.str :=
  if Js.length path <=? maxLength then path
  else
    let displayPath := displayPath env_HOME path in
    if Js.length displayPath <=? maxLength then displayPath
    else
      let ellipsis := Js.lit "..." in
      let availableLength := maxLength - Js.length ellipsis in
      let startLength := Js.ceilHalf availableLength in
      let endLength := Js.floorHalf availableLength in
      Js.slice displayPath 0 startLength ++ ellipsis
      ++ Js.sliceFrom displayPath (- endLength).

(** [padRight(str, length)]: [repeat] is reached with a positive count
    only. *)
Definition padRight (str : Js.str) (length : Z) : Js.str :=
  if Js.length str >=? length then Js.slice str 0 length
  else str ++ Js.repeat (Js.lit " ") (Z.to_nat (length - Js.length str)).

(** [padLeft(str, length)] *)
Definition padLeft (str : Js.str) (length : Z) : Js.str :=
  if Js.length str >=? length then Js.slice str 0 length
  else Js.repeat (Js.lit " ") (Z.to_nat (length - Js.length str)) ++ str.

(* ------------------------------------------------------------------ *)
(** ** [getProjectStorageInfo] ([data/loader.ts])                       *)
(* ------------------------------------------------------------------ *)

Record ProjectStorageInfo : Type := mkStorage {
  storage_sessionFiles : Z;
  storage_messageFiles : Z;
  storage_partFiles : Z;
  storage_diffSize : Z;
  storage_todoSize : Z;
  storage_totalMessages : Z;
  storage_totalParts : Z
}.

Section Storage.
Context {rt : Runtime}.

(** One turn of the loop over [msgFiles]: the counters are the locals;
    for a message without a string id [join] throws into the [catch]
    around the count of its parts. *)
Definition partsStep (fs : FS) (sessionID : string)
  (info : ProjectStorageInfo) (msgFile : string) : ProjectStorageInfo :=
  match readJsonFile parseMessage fs (join (messageDir sessionID) msgFile) with
  | None => info
  | Some msg =>
      match Message.id msg with
      | None => info
      | Some messageID =>
          match readdir fs (partDir messageID) with
          | Ok partEntries =>
              let prtFiles := Z.of_nat (length (filter isJson partEntries)) in
              mkStorage (storage_sessionFiles info) (storage_messageFiles info)
                (storage_partFiles info + prtFiles)
                (storage_diffSize info) (storage_todoSize info)
                (storage_totalMessages info) (storage_totalParts info + prtFiles)
          | Throw _ => info
          end
      end
  end.

(** The count of the messages and parts of one session. *)
Definition messagesStep (fs : FS) (sessionID : string)
  (info : ProjectStorageInfo) : ProjectStorageInfo :=
  match readdir fs (messageDir sessionID) with
  | Ok messageEntries =>
      let msgFiles := filter isJson messageEntries in
      let n := Z.of_nat (length msgFiles) in
      fold_left (partsStep fs sessionID) msgFiles
        (mkStorage (storage_sessionFiles info)
           (storage_messageFiles info + n) (storage_partFiles info)
           (storage_diffSize info) (storage_todoSize info)
           (storage_totalMessages info + n) (storage_totalParts info))
  | Throw _ => info
  end.

(** [`${session.id}`] *)
Definition idImage (record : Session.record) : string :=
  match record with
  | Session.Typed session => Session.id session
  | Session.NoId image => image
  end.

(** One turn of the loop over [sessionEntries]; for a record without a
    string id [join] throws into the [catch] around the count of the
    messages, and the diff and todo files are looked up under the image
    of what it has for an id. *)
Definition storageStep (fs : FS) (sessionDir : path)
  (info : ProjectStorageInfo) (sessionFile : string) : ProjectStorageInfo :=
  if negb (isJson sessionFile) then info
  else
    match readJsonFile parseSession fs (join sessionDir sessionFile) with
    | None => info
    | Some record =>
        let info :=
          match record with
          | Session.Typed session => messagesStep fs (Session.id session) info
          | Session.NoId _ => info
          end in
        mkStorage (storage_sessionFiles info) (storage_messageFiles info)
          (storage_partFiles info)
          (storage_diffSize info + getFileSize fs (diffFile (idImage record)))
          (storage_todoSize info + getFileSize fs (todoFile (idImage record)))
          (storage_totalMessages info) (storage_totalParts info)
    end.

(** [getProjectStorageInfo(projectID)]: only the first [readdir] can
    reach the outer [catch]. *)
Definition getProjectStorageInfo (fs : FS) (projectID : string)
  : ProjectStorageInfo :=
  let sessionDir := projectSessionDir projectID in
  match readdir fs sessionDir with
  | Ok sessionEntries =>
      fold_left (storageStep fs sessionDir) sessionEntries
        (mkStorage (Z.of_nat (length (filter isJson sessionEntries)))
           0 0 0 0 0 0)
  | Throw _ => mkStorage 0 0 0 0 0 0 0
  end.

(** The entries [loadSessions] makes of the directory [projectID] of the
    session store. *)
Definition loadedHere (fs : FS) (projects : JsMap.t Project.t)
  (projectID : string) : list SessionInfo.t :=
  match readdir fs (join SESSION_DIR projectID) with
  | Ok sessionFiles =>
      fst (sessionFilesLoop fs (join SESSION_DIR projectID)
             match JsMap.get projectID projects with
             | Some project => Project.worktree project
             | None => "/"%string
             end sessionFiles [])
  | Throw _ => []
  end.

(** Every session record of the store has a string for its id and lies
    in the directory named by its project. *)
Definition filedByProject (fs : FS) : bool :=
  match readdir fs SESSION_DIR with
  | Ok projectDirs =>
      forallb
        (fun projectID =>
           match readdir fs (join SESSION_DIR projectID) with
           | Ok sessionFiles =>
               forallb
                 (fun file =>
                    if isJson file then
                      match readJsonFile parseSession fs
                              (join (join SESSION_DIR projectID) file) with
                      | Some (Session.Typed session) =>
                          String.eqb (Session.projectID session) projectID
                      | Some (Session.NoId _) => false
                      | None => true
                      end
                    else true)
                 sessionFiles
           | Throw _ => true
           end)
        projectDirs
  | Throw _ => true
  end.

End Storage.

(* ------------------------------------------------------------------ *)
(** ** The views that delete ([ui/views])                               *)
(* ------------------------------------------------------------------ *)

(** [items[index]]: [undefined] outside the array. *)
Definition at_index {A} (items : list A) (index : Z) : option A :=
  if index <? 0 then None else nth_error items (Z.to_nat index).

(** [indices.map((i) => items[i]).filter(Boolean)] for an array of
    objects. *)
Definition pick {A} (items : list A) (indices : list Z) : list A :=
  flat_map (fun i => match at_index items i with
                     | Some item => [item]
                     | None => []
                     end) indices.

(** A string in a condition. *)
Definition truthy (s : string) : bool := negb (String.eqb s "").

Record DeleteResult : Type := mkDeleteResult {
  deletedCount : Z;
  freedBytes : Z;
  errors : list string
}.

(** [Set<string>], in insertion order. *)
Module JsSet.

Definition t : Type := list string.

Definition has (x : string) (s : t) : bool := existsb (String.eqb x) s.

Definition add (x : string) (s : t) : t := if has x s then s else s ++ [x].

Definition delete (x : string) (s : t) : t :=
  filter (fun y => negb (String.eqb y x)) s.

(** [new Set(array)] *)
Definition of_array (l : list string) : t := fold_left (fun s x => add x s) l [].

End JsSet.

Module LogListView.
Section View.
Context {rt : Runtime}.

(** [getTotalSize(indices)]; [logs] is [getItems()]. *)
Definition getTotalSize (logs : list LogFile.t) (indices : list Z) : Z :=
  fold_left
    (fun sum index =>
       match at_index logs index with
       | Some log => sum + LogFile.sizeBytes log
       | None => sum
       end)
    indices 0.

(** One turn of the loop over [results]. *)
Definition tally (acc : DeleteResult) (result : DeleteLogResult) : DeleteResult :=
  if log_success result then
    mkDeleteResult (deletedCount acc + 1)
      (freedBytes acc + log_bytesFreed result) (errors acc)
  else
    match log_error result with
    | Some e =>
        if truthy e then
          mkDeleteResult (deletedCount acc) (freedBytes acc)
            (errors acc ++ [(log_filename result ++ ": " ++ e)%string])
        else acc
    | None => acc
    end.

Definition executeDelete (logs : list LogFile.t) (indices : list Z)
  : M FS DeleteResult :=
  let toDelete := pick logs indices in
  results <- deleteLogs toDelete ;;
  ret (fold_left tally results (mkDeleteResult 0 0 [])).

End View.
End LogListView.

Module OrphanListView.

Inductive OrphanListItem : Type :=
| ProjectItem (project : ProjectInfo.t) (projectIndex : Z)
| SessionItem (session : SessionInfo.t) (project : ProjectInfo.t)
    (projectIndex sessionIndex : Z).

(** [item.project] *)
Definition project (item : OrphanListItem) : ProjectInfo.t :=
  match item with
  | ProjectItem project _ => project
  | SessionItem _ project _ _ => project
  end.





(** What an item adds in [getTotalSize]. *)
Definition itemSize (item : OrphanListItem) : Z :=
  match item with
  | ProjectItem project _ => ProjectInfo.totalSizeBytes project
  | SessionItem session _ _ _ => SessionInfo.sizeBytes session
  end.

Definition getTotalSize (items : list OrphanListItem) (indices : list Z) : Z :=
  fold_left
    (fun sum index =>
       match at_index items index with
       | None => sum
       | Some item => sum + itemSize item
       end)
    indices 0.

(** The locals [projectsToDelete], [sessionsToDelete] and
    [deletedProjectIds] of [executeDelete]. *)
Record Selection : Type := mkSelection {
  projectsToDelete : list ProjectInfo.t;
  sessionsToDelete : list SessionInfo.t;
  deletedProjectIds : JsSet.t
}.

(** One turn of the loop over [selectedItems]. *)
Definition selectStep (sel : Selection) (item : OrphanListItem) : Selection :=
  match item with
  | ProjectItem project _ =>
      mkSelection (projectsToDelete sel ++ [project]) (sessionsToDelete sel)
        (JsSet.add (ProjectInfo.id project) (deletedProjectIds sel))
  | SessionItem session project _ _ =>
      if negb (JsSet.has (ProjectInfo.id project) (deletedProjectIds sel))
      then mkSelection (projectsToDelete sel) (sessionsToDelete sel ++ [session])
             (deletedProjectIds sel)
      else sel
  end.

Definition select (selectedItems : list OrphanListItem) : Selection :=
  fold_left selectStep selectedItems (mkSelection [] [] []).

Section View.
Context {rt : Runtime}.

(** One turn of the loop over [projectsToDelete]. *)
Definition tallyProject (project : ProjectInfo.t) : M (FS * DeleteResult) unit :=
  result <- beside (deleteProject project) ;;
  if project_success result then
    update (fun acc => mkDeleteResult (deletedCount acc + 1)
                         (freedBytes acc + project_bytesFreed result)
                         (errors acc))
  else
    match project_error result with
    | Some e =>
        if truthy e then
          update (fun acc => mkDeleteResult (deletedCount acc) (freedBytes acc)
                               (errors acc
                                ++ [(ProjectInfo.worktree project ++ ": " ++ e)%string]))
        else ret tt
    | None => ret tt
    end.

(** One turn of the loop over the results of [deleteSessions]. *)
Definition tallySession (result : DeleteSessionResult)
  : M (FS * DeleteResult) unit :=
  if success result then
    update (fun acc => mkDeleteResult (deletedCount acc + 1)
                         (freedBytes acc + bytesFreed result) (errors acc))
  else
    match error result with
    | Some e =>
        if truthy e then
          update (fun acc => mkDeleteResult (deletedCount acc) (freedBytes acc)
                               (errors acc ++ [(sessionID result ++ ": " ++ e)%string]))
        else ret tt
    | None => ret tt
    end.

(** The loop that cleans up the projects left empty; [projectIDs] is the
    set it empties. *)
Fixpoint cleanupLoop (sessions : list SessionInfo.t) (projectIDs : JsSet.t)
  : M FS unit :=
  match sessions with
  | [] => ret tt
  | session :: rest =>
      if JsSet.has (SessionInfo.projectID session) projectIDs then
        cleanupEmptyProject (SessionInfo.projectID session)
          (SessionInfo.projectWorktree session) ;;;
        cleanupLoop rest (JsSet.delete (SessionInfo.projectID session) projectIDs)
      else cleanupLoop rest projectIDs
  end.

Definition executeDeleteBody (sel : Selection) : M (FS * DeleteResult) unit :=
  for_of (projectsToDelete sel) tallyProject ;;;
  if (0 <? Z.of_nat (length (sessionsToDelete sel))) then
    results <- beside (deleteSessions (sessionsToDelete sel)) ;;
    for_of results tallySession ;;;
    beside (cleanupLoop (sessionsToDelete sel)
              (JsSet.of_array (map SessionInfo.projectID (sessionsToDelete sel))))
  else ret tt.

(** [executeDelete(indices)]; [items] is [getItems()]. *)
Definition executeDelete (items : list OrphanListItem) (indices : list Z)
  : M FS DeleteResult :=
  fun fs =>
    let selectedItems := pick items indices in
    match executeDeleteBody (select selectedItems) (fs, mkDeleteResult 0 0 []) with
    | ((fs', acc), Ok _) => (fs', Ok acc)
    | ((fs', _), Throw e) => (fs', Throw e)
    end.

End View.
End OrphanListView.

(* ================================================================== *)
(** * Properties                                                        *)
(* ================================================================== *)

(* ------------------------------------------------------------------ *)
(** ** Directory entries                                                *)
(* ------------------------------------------------------------------ *)

Section Entries.
Context {V : Type}.
Implicit Types (es : list (string * V)) (name k : string).

Lemma find_entry_update name k f es :
  find_entry name (update_entry k f es) =
  if String.eqb k name then option_map f (find_entry name es)
  else find_entry name es.
Proof.
  induction es as [|[k0 v] es IH]; simpl.
  - now destruct (String.eqb k name).
  - destruct (String.eqb k0 k) eqn:Ek; simpl.
    + apply String.eqb_eq in Ek; subst k0.
      destruct (String.eqb k name) eqn:En; [reflexivity|exact IH].
    + destruct (String.eqb k0 name) eqn:E0.
      * apply String.eqb_eq in E0; subst k0.
        rewrite String.eqb_sym, Ek. reflexivity.
      * exact IH.
Qed.

Lemma find_entry_remove name k es :
  find_entry name (remove_entry k es) =
  if String.eqb k name then None else find_entry name es.
Proof.
  unfold remove_entry.
  induction es as [|[k0 v] es IH]; cbn [filter find_entry fst].
  - now destruct (String.eqb k name).
  - destruct (String.eqb k0 k) eqn:Ek; cbn [negb find_entry].
    + apply String.eqb_eq in Ek; subst k0. rewrite IH.
      now destruct (String.eqb k name).
    + destruct (String.eqb k0 name) eqn:E0; [|exact IH].
      apply String.eqb_eq in E0; subst k0.
      now rewrite String.eqb_sym, Ek.
Qed.

Lemma find_entry_app_fresh name k v es :
  find_entry name (es ++ [(k, v)]) =
  match find_entry name es with
  | Some x => Some x
  | None => if String.eqb k name then Some v else None
  end.
Proof.
  induction es as [|[k0 v0] es IH]; simpl; [reflexivity|].
  now destruct (String.eqb k0 name).
Qed.

Lemma find_entry_In name es v :
  find_entry name es = Some v -> In (name, v) es.
Proof.
  induction es as [|[k0 v0] es IH]; simpl; [discriminate|].
  destruct (String.eqb k0 name) eqn:E.
  - apply String.eqb_eq in E. intros [= ->]. left. now subst.
  - intros H. right. now apply IH.
Qed.

Lemma In_find_entry name es v :
  In (name, v) es -> exists w, find_entry name es = Some w.
Proof.
  induction es as [|[k0 v0] es IH]; simpl; [tauto|].
  intros [[= -> ->]|H].
  - rewrite String.eqb_refl. eauto.
  - destruct (String.eqb k0 name); eauto.
Qed.

Lemma find_entry_None name es :
  find_entry name es = None <-> ~ In name (map fst es).
Proof.
  induction es as [|[k0 v0] es IH]; simpl; [tauto|].
  destruct (String.eqb k0 name) eqn:E.
  - apply String.eqb_eq in E. split; [discriminate|]. intros H. exfalso. auto.
  - apply String.eqb_neq in E. rewrite IH. tauto.
Qed.

End Entries.

(* ------------------------------------------------------------------ *)
(** ** Removing and writing in the tree                                 *)
(* ------------------------------------------------------------------ *)

Lemma remnant_refl x : remnant x x.
Proof. now destruct x. Qed.

Lemma lookup_remove_same p n : p <> [] -> lookup p (remove p n) = None.
Proof.
  revert n. induction p as [|name rest IH]; intros n Hp; [congruence|].
  destruct n as [c|es]; [reflexivity|].
  destruct rest as [|x rest]; cbn [remove lookup].
  - rewrite find_entry_remove, String.eqb_refl. reflexivity.
  - rewrite find_entry_update, String.eqb_refl.
    destruct (find_entry name es) as [c|]; [|reflexivity].
    cbn [option_map]. apply IH. discriminate.
Qed.

Lemma lookup_remove_remnant p : forall q n x,
  lookup q (remove p n) = Some x ->
  exists y, lookup q n = Some y /\ remnant x y.
Proof.
  induction p as [|name rest IH]; intros q n x H.
  - exists x. split; [exact H|apply remnant_refl].
  - destruct n as [c|es].
    { exists x. split; [exact H|apply remnant_refl]. }
    destruct q as [|qn qrest].
    { cbn in H. exists (Dir es). split; [reflexivity|].
      destruct rest; injection H as <-; exact I. }
    destruct rest as [|r0 rest]; cbn [remove lookup] in H |- *.
    + rewrite find_entry_remove in H.
      destruct (String.eqb name qn); [discriminate|].
      destruct (find_entry qn es) as [c|]; [|discriminate].
      exists x. split; [exact H|apply remnant_refl].
    + rewrite find_entry_update in H.
      destruct (String.eqb name qn).
      * destruct (find_entry qn es) as [c|]; [|discriminate].
        cbn [option_map] in H. now apply IH in H.
      * destruct (find_entry qn es) as [c|]; [|discriminate].
        exists x. split; [exact H|apply remnant_refl].
Qed.

Lemma diverge_app h p q : diverge (h ++ p) (h ++ q) = diverge p q.
Proof.
  induction h as [|a h IH]; [reflexivity|].
  cbn. now rewrite String.eqb_refl.
Qed.

Lemma diverge_sym p q : diverge p q = diverge q p.
Proof.
  revert q. induction p as [|a p IH]; intros [|b q]; try reflexivity.
  cbn. rewrite (String.eqb_sym b a). now rewrite IH.
Qed.

Lemma lookup_remove_diverge p : forall q n,
  diverge p q = true -> lookup q (remove p n) = lookup q n.
Proof.
  induction p as [|name rest IH]; intros q n H; [reflexivity|].
  destruct q as [|qn qrest]; [discriminate|].
  destruct n as [c|es]; [reflexivity|].
  cbn in H.
  destruct rest as [|r0 rest]; cbn [remove lookup].
  - rewrite find_entry_remove.
    destruct (String.eqb name qn); [|reflexivity].
    destruct qrest; discriminate.
  - rewrite find_entry_update.
    destruct (String.eqb name qn); [|reflexivity].
    destruct (find_entry qn es) as [c|]; [|reflexivity].
    cbn [option_map]. now apply IH.
Qed.

Lemma write_deep name r0 rest content es :
  write (name :: r0 :: rest) content (Dir es) =
  match find_entry name es with
  | Some c =>
      match write (r0 :: rest) content c with
      | Some c' => Some (Dir (update_entry name (fun _ => c') es))
      | None => None
      end
  | None => None
  end.
Proof. reflexivity. Qed.

Lemma lookup_write_diverge p content : forall q n n',
  diverge p q = true -> write p content n = Some n' ->
  lookup q n' = lookup q n.
Proof.
  induction p as [|name rest IH]; intros q n n' H W; [discriminate|].
  destruct q as [|qn qrest]; [discriminate|].
  destruct n as [c|es]; [discriminate|].
  cbn in H.
  destruct rest as [|r0 rest]; [cbn [write] in W|rewrite write_deep in W].
  - destruct (String.eqb name qn) eqn:E; [destruct qrest; discriminate|].
    destruct (find_entry name es) as [[c|sub]|]; try discriminate;
      injection W as <-; cbn [lookup].
    + now rewrite find_entry_update, E.
    + rewrite find_entry_app_fresh, E. now destruct (find_entry qn es).
  - destruct (find_entry name es) as [c|] eqn:F; [|discriminate].
    destruct (write (r0 :: rest) content c) as [c'|] eqn:Wc; [|discriminate].
    injection W as <-. cbn [lookup].
    rewrite find_entry_update.
    destruct (String.eqb name qn) eqn:E; [|reflexivity].
    apply String.eqb_eq in E; subst qn. rewrite F. cbn [option_map].
    eapply IH; eauto.
Qed.

Lemma lookup_write_same p content : forall n n',
  write p content n = Some n' -> lookup p n' = Some (File content).
Proof.
  induction p as [|name rest IH]; intros n n' W; [discriminate|].
  destruct n as [c|es]; [discriminate|].
  destruct rest as [|r0 rest]; [cbn [write] in W|rewrite write_deep in W].
  - destruct (find_entry name es) as [[c|sub]|] eqn:F; try discriminate;
      injection W as <-; cbn [lookup].
    + now rewrite find_entry_update, String.eqb_refl, F.
    + now rewrite find_entry_app_fresh, F, String.eqb_refl.
  - destruct (find_entry name es) as [c|] eqn:F; [|discriminate].
    destruct (write (r0 :: rest) content c) as [c'|] eqn:Wc; [|discriminate].
    injection W as <-. cbn [lookup].
    rewrite find_entry_update, String.eqb_refl, F. cbn [option_map].
    eapply IH; eauto.
Qed.

Lemma write_over_file p content : forall n c,
  p <> [] -> lookup p n = Some (File c) ->
  exists n', write p content n = Some n'.
Proof.
  induction p as [|name rest IH]; intros n c Hp L; [congruence|].
  destruct n as [c0|es]; [discriminate|].
  cbn [lookup] in L.
  destruct (find_entry name es) as [sub|] eqn:F; [|discriminate].
  destruct rest as [|r0 rest]; [cbn [write]|rewrite write_deep]; rewrite F.
  - cbn in L. injection L as ->. eauto.
  - destruct (IH sub c) as [n' W]; [discriminate|exact L|].
    rewrite W. eauto.
Qed.

(* ------------------------------------------------------------------ *)

(** Writing over a file makes nothing new. *)
Lemma write_over_file_absent p content : forall n n' c q,
  lookup p n = Some (File c) -> write p content n = Some n' ->
  lookup q n = None -> lookup q n' = None.
Proof.
  induction p as [|name rest IH]; intros n n' c q L W; [discriminate|].
  destruct n as [c0|es]; [discriminate|].
  cbn [lookup] in L.
  destruct (find_entry name es) as [sub|] eqn:F; [|discriminate].
  destruct q as [|qn qrest]; [discriminate|].
  destruct rest as [|r0 rest]; [cbn [write] in W|rewrite write_deep in W];
    rewrite F in W.
  - cbn in L. injection L as ->. injection W as <-. cbn [lookup].
    rewrite find_entry_update.
    destruct (String.eqb name qn) eqn:E; [|auto].
    apply String.eqb_eq in E. subst qn. rewrite F. cbn [option_map].
    now destruct qrest.
  - destruct (write (r0 :: rest) content sub) as [c'|] eqn:Wc; [|discriminate].
    injection W as <-. cbn [lookup].
    rewrite find_entry_update.
    destruct (String.eqb name qn) eqn:E; [|auto].
    apply String.eqb_eq in E. subst qn. rewrite F. cbn [option_map].
    eapply IH; eauto.
Qed.

(** Writing over a file changes the content of that file only. *)
Lemma write_over_file_kept p content : forall n n' c q x,
  lookup p n = Some (File c) -> write p content n = Some n' ->
  lookup q n' = Some x ->
  exists y, lookup q n = Some y /\
            match x, y with
            | File a, File b => q = p \/ a = b
            | Dir _, Dir _ => True
            | _, _ => False
            end.
Proof.
  induction p as [|name rest IH]; intros n n' c q x L W; [discriminate|].
  destruct n as [c0|es]; [discriminate|].
  cbn [lookup] in L.
  destruct (find_entry name es) as [sub|] eqn:F; [|discriminate].
  destruct q as [|qn qrest].
  { cbn [lookup]. intros [= <-]. exists (Dir es). split; [reflexivity|].
    destruct rest as [|r0 rest]; [cbn [write] in W|rewrite write_deep in W];
      rewrite F in W.
    - cbn in L. injection L as ->. now injection W as <-.
    - destruct (write (r0 :: rest) content sub); [|discriminate].
      now injection W as <-. }
  assert (Same : forall m, lookup (qn :: qrest) (Dir es) = Some m ->
            exists y, lookup (qn :: qrest) (Dir es) = Some y /\
              match m, y with
              | File a, File b => qn :: qrest = name :: rest \/ a = b
              | Dir _, Dir _ => True
              | _, _ => False
              end).
  { intros m E. exists m. split; [exact E|]. destruct m; auto. }
  destruct rest as [|r0 rest]; [cbn [write] in W|rewrite write_deep in W];
    rewrite F in W.
  - cbn in L. injection L as ->. injection W as <-. cbn [lookup].
    rewrite find_entry_update.
    destruct (String.eqb name qn) eqn:E; [|apply Same].
    apply String.eqb_eq in E. subst qn. rewrite F. cbn [option_map].
    destruct qrest; [|discriminate]. cbn [lookup]. intros [= <-].
    exists (File c). split; [reflexivity|now left].
  - destruct (write (r0 :: rest) content sub) as [c'|] eqn:Wc; [|discriminate].
    injection W as <-. cbn [lookup].
    rewrite find_entry_update.
    destruct (String.eqb name qn) eqn:E; [|apply Same].
    apply String.eqb_eq in E. subst qn. rewrite F. cbn [option_map].
    intros Q. destruct (IH sub c' c qrest x L Wc Q) as (y & Ly & K).
    exists y. split; [exact Ly|].
    destruct x, y; auto. destruct K as [->|K]; auto.
Qed.

(** ** [rm] and [safeRm] on the disk                                    *)
(* ------------------------------------------------------------------ *)

Lemma shrinks_refl fs : shrinks fs fs.
Proof.
  split; [reflexivity|]. intros q x H. exists x. split; [exact H|apply remnant_refl].
Qed.

Lemma remnant_trans x y z : remnant x y -> remnant y z -> remnant x z.
Proof. destruct x, y, z; cbn; congruence || tauto. Qed.

Lemma shrinks_trans a b c : shrinks a b -> shrinks b c -> shrinks a c.
Proof.
  intros [D1 L1] [D2 L2]. split; [congruence|].
  intros q x H. destruct (L2 q x H) as (y & Hy & Ry).
  destruct (L1 q y Hy) as (z & Hz & Rz).
  exists z. split; [exact Hz|eapply remnant_trans; eauto].
Qed.

Lemma shrinks_exists a b q :
  shrinks a b -> exists_at b q = true -> exists_at a q = true.
Proof.
  intros [_ L]. unfold exists_at.
  destruct (lookup q (root b)) as [x|] eqn:E; [|discriminate].
  destruct (L q x E) as (y & -> & _). reflexivity.
Qed.

Lemma shrinks_is_dir a b q :
  shrinks a b -> is_dir_at b q = true -> is_dir_at a q = true.
Proof.
  intros [_ L]. unfold is_dir_at.
  destruct (lookup q (root b)) as [x|] eqn:E; [|discriminate].
  destruct (L q x E) as (y & -> & R).
  destruct x, y; cbn in R; try discriminate; tauto.
Qed.

Lemma shrinks_refused a b p recursive :
  shrinks a b -> refused b p recursive = true -> refused a p recursive = true.
Proof.
  intros S. unfold refused, is_denied. rewrite (shrinks_denied _ _ S).
  rewrite !andb_true_iff, !orb_true_iff, !andb_true_iff.
  intros [E [[D|[R I]]|T]]; split;
    eauto using shrinks_exists, shrinks_is_dir.
Qed.


(** What one [rm] does. *)
Lemma rm_run p recursive fs :
  if refused fs p recursive
  then exists e, rm p recursive fs = (fs, Throw e)
  else exists fs',
      rm p recursive fs = (fs', Ok tt) /\
      exists_at fs' p = false /\
      shrinks fs fs' /\
      (forall q, diverge p q = true ->
                 lookup q (root fs') = lookup q (root fs)).
Proof.
  unfold refused, rm, exists_at, is_dir_at.
  destruct (lookup p (root fs)) as [n|] eqn:L; cbn [andb].
  - destruct (is_denied fs p); cbn [orb]; [eauto|].
    destruct p as [|a p].
    { rewrite orb_true_r. eauto. }
    rewrite orb_false_r.
    assert (R : exists_at (mkFS (remove (a :: p) (root fs)) (denied fs)) (a :: p)
                = false
                /\ shrinks fs (mkFS (remove (a :: p) (root fs)) (denied fs))
                /\ (forall q, diverge (a :: p) q = true ->
                      lookup q (root (mkFS (remove (a :: p) (root fs)) (denied fs)))
                      = lookup q (root fs))).
    { unfold exists_at. cbn [root]. rewrite lookup_remove_same by discriminate.
      split; [reflexivity|]. split.
      - split; [reflexivity|]. cbn [root]. intros q x.
        apply lookup_remove_remnant.
      - intros q. apply lookup_remove_diverge. }
    destruct n as [c|es]; destruct recursive; cbn [negb andb]; eauto.
  - exists fs. rewrite L. repeat split; try reflexivity.
    intros q x H. exists x. split; [exact H|apply remnant_refl].
Qed.

(** What one [safeRm] does: it never throws. *)
Lemma safeRm_run p recursive fs :
  exists fs',
    safeRm p recursive fs = (fs', Ok (negb (refused fs p recursive))) /\
    (refused fs p recursive = true -> fs' = fs) /\
    (refused fs p recursive = false -> exists_at fs' p = false) /\
    shrinks fs fs' /\
    (forall q, diverge p q = true -> lookup q (root fs') = lookup q (root fs)).
Proof.
  pose proof (rm_run p recursive fs) as R.
  unfold safeRm, try_catch, bind, ret.
  destruct (refused fs p recursive).
  - destruct R as (e & ->). exists fs. cbn.
    repeat split; try reflexivity; try discriminate.
    intros q x H. exists x. split; [exact H|apply remnant_refl].
  - destruct R as (fs' & -> & E & S & F). exists fs'. cbn.
    repeat split; auto; try discriminate; apply S.
Qed.

(* ------------------------------------------------------------------ *)
(** ** What a directory lists                                           *)
(* ------------------------------------------------------------------ *)

Lemma lookup_app p q n :
  lookup (p ++ q) n =
  match lookup p n with
  | Some m => lookup q m
  | None => None
  end.
Proof.
  revert n. induction p as [|name rest IH]; intros n; [reflexivity|].
  cbn [app lookup]. destruct n as [c|es]; [reflexivity|].
  destruct (find_entry name es); [apply IH|reflexivity].
Qed.

(** A name that [readdir] lists is on the disk. *)
Lemma readdir_entry fs dir names name :
  readdir fs dir = Ok names -> In name names ->
  exists_at fs (join dir name) = true.
Proof.
  unfold readdir, exists_at, join. rewrite lookup_app.
  destruct (lookup dir (root fs)) as [[c|es]|]; try discriminate.
  intros [= <-] I. cbn [lookup].
  destruct (find_entry name es) eqn:F; [reflexivity|].
  apply find_entry_None in F. contradiction.
Qed.

(** What is on the disk is listed by [readdir] of its directory. *)
Lemma lookup_listed fs dir name :
  exists_at fs (join dir name) = true ->
  exists names, readdir fs dir = Ok names /\ In name names.
Proof.
  unfold exists_at, readdir, join. rewrite lookup_app.
  destruct (lookup dir (root fs)) as [[c|es]|]; cbn [lookup]; try discriminate.
  destruct (find_entry name es) as [v|] eqn:F; [|discriminate].
  intros _. exists (map fst es). split; [reflexivity|].
  apply find_entry_In in F. now apply (in_map fst) in F.
Qed.

(** A file read after removals was there before, with the same
    content. *)
Lemma shrinks_readFile a b p content :
  shrinks a b -> readFile b p = Ok content -> readFile a p = Ok content.
Proof.
  intros [_ L]. unfold readFile.
  destruct (lookup p (root b)) as [[c|es]|] eqn:E; try discriminate.
  intros [= <-]. destruct (L p _ E) as (y & -> & R).
  destruct y; cbn in R; [now subst|contradiction].
Qed.

(* ------------------------------------------------------------------ *)
(** ** Paths from ids                                                   *)
(* ------------------------------------------------------------------ *)

Lemma join_nonempty dir name : join dir name <> [].
Proof. unfold join. destruct dir; discriminate. Qed.

Lemma split_nonempty sep s : Str.split sep s <> [].
Proof.
  destruct s as [|c r]; cbn; [discriminate|].
  destruct (Ascii.eqb c sep); [discriminate|].
  destruct (Str.split sep r); discriminate.
Qed.

Lemma split_noSep sep s : noSep sep s = true -> Str.split sep s = [s].
Proof.
  induction s as [|c r IH]; cbn; [reflexivity|].
  destruct (Ascii.eqb c sep); cbn; [discriminate|].
  intros H. now rewrite (IH H).
Qed.

Lemma split_single sep s x : Str.split sep s = [x] -> noSep sep s = true /\ x = s.
Proof.
  revert x. induction s as [|c r IH]; cbn; intros x E.
  - injection E as <-. now split.
  - destruct (Ascii.eqb c sep); cbn.
    + injection E as _ E. now apply split_nonempty in E.
    + destruct (Str.split sep r) as [|w ws] eqn:S.
      * now apply split_nonempty in S.
      * injection E as <- ->. destruct (IH w eq_refl) as [N ->]. now split.
Qed.

Lemma noSep_append sep a b :
  noSep sep (a ++ b) = (noSep sep a && noSep sep b)%bool.
Proof.
  induction a as [|c a IH]; cbn; [reflexivity|].
  now rewrite IH, andb_assoc.
Qed.

(** For a string that names one entry, [path.join] appends it. *)
Lemma join_plain dir name :
  Path.plain name = true -> Path.join dir name = join dir name.
Proof.
  unfold Path.plain, Path.join.
  destruct (Str.split "/" name) as [|x [|y l]] eqn:S; try discriminate.
  destruct (split_single _ _ _ S) as [_ ->].
  cbn [fold_left]. unfold Path.walk.
  destruct (String.eqb name ""); [discriminate|].
  destruct (String.eqb name "."); [discriminate|].
  destruct (String.eqb name ".."); [discriminate|]. reflexivity.
Qed.

Lemma length_append_string (a b : string) :
  String.length (a ++ b) = (String.length a + String.length b)%nat.
Proof. induction a as [|c a IH]; cbn; [reflexivity|now rewrite IH]. Qed.

Lemma append_same_suffix (a b s : string) :
  (a ++ s = b ++ s)%string -> a = b.
Proof.
  revert b. induction a as [|c a IH]; intros [|d b] E; cbn in E.
  - reflexivity.
  - apply (f_equal String.length) in E. cbn in E.
    rewrite length_append_string in E. lia.
  - apply (f_equal String.length) in E. cbn in E.
    rewrite length_append_string in E. lia.
  - injection E as -> E. f_equal. now apply IH.
Qed.

Lemma dotJson_differs a b : a <> b -> String.eqb (dotJson a) (dotJson b) = false.
Proof.
  intros N. apply String.eqb_neq. intros E. apply N.
  unfold dotJson in E. now apply append_same_suffix in E.
Qed.

Lemma plain_dotJson id : Path.plain id = true -> Path.plain (dotJson id) = true.
Proof.
  unfold Path.plain.
  destruct (Str.split "/" id) as [|x [|y l]] eqn:S; try discriminate.
  destruct (split_single _ _ _ S) as [N _]. intros _.
  unfold dotJson. rewrite split_noSep
    by (rewrite noSep_append, N; reflexivity).
  assert (L : forall t, (String.length t < 5)%nat ->
                String.eqb (id ++ ".json") t = false).
  { intros t Lt. apply String.eqb_neq. intros E.
    apply (f_equal String.length) in E.
    rewrite length_append_string in E. cbn in E. lia. }
  rewrite !L by (cbn; lia). reflexivity.
Qed.

Section PlainPaths.
Context {rt : Runtime}.

Lemma messageDir_plain id :
  Path.plain id = true -> messageDir id = join MESSAGE_DIR id.
Proof. apply join_plain. Qed.

Lemma partDir_plain id :
  Path.plain id = true -> partDir id = join PART_DIR id.
Proof. apply join_plain. Qed.

Lemma diffFile_plain id :
  Path.plain id = true -> diffFile id = join SESSION_DIFF_DIR (dotJson id).
Proof. intros P. apply join_plain, plain_dotJson, P. Qed.

Lemma todoFile_plain id :
  Path.plain id = true -> todoFile id = join TODO_DIR (dotJson id).
Proof. intros P. apply join_plain, plain_dotJson, P. Qed.

Lemma projectSessionDir_plain projectID :
  Path.plain projectID = true ->
  projectSessionDir projectID = join SESSION_DIR projectID.
Proof. apply join_plain. Qed.

Lemma snapshotDir_plain projectID :
  Path.plain projectID = true ->
  snapshotDir projectID = join SNAPSHOT_DIR projectID.
Proof. apply join_plain. Qed.

Lemma projectFile_plain projectID :
  Path.plain projectID = true ->
  projectFile projectID = join PROJECT_DIR (dotJson projectID).
Proof. intros P. apply join_plain, plain_dotJson, P. Qed.

Lemma sessionFile_plain projectID id :
  Path.plain projectID = true -> Path.plain id = true ->
  sessionFile projectID id = join (join SESSION_DIR projectID) (dotJson id).
Proof.
  intros P Q. unfold sessionFile.
  rewrite (join_plain _ projectID P). apply join_plain, plain_dotJson, Q.
Qed.

End PlainPaths.

(* ------------------------------------------------------------------ *)
(** ** The removal steps of [deleteSession]                             *)
(* ------------------------------------------------------------------ *)

Lemma bind_run {St A B} (m : M St A) (k : A -> M St B) st :
  bind m k st =
  match m st with
  | (st', Ok a) => k a st'
  | (st', Throw e) => (st', Throw e)
  end.
Proof. reflexivity. Qed.

Lemma for_of_app {St A} (a b : list A) (body : A -> M St unit) st :
  for_of (a ++ b) body st = (for_of a body ;;; for_of b body) st.
Proof.
  revert st. induction a as [|x a IH]; intros st; cbn [app for_of].
  - reflexivity.
  - unfold bind in *. destruct (body x st) as [st1 [[]|e]]; [|reflexivity].
    apply IH.
Qed.

Lemma for_of_map {St A B} (f : A -> B) (l : list A) (body : B -> M St unit) st :
  for_of (map f l) body st = for_of l (fun x => body (f x)) st.
Proof.
  revert st. induction l as [|x l IH]; intros st; cbn [map for_of]; [reflexivity|].
  unfold bind. destruct (body (f x) st) as [st1 [[]|e]]; [apply IH|reflexivity].
Qed.

Lemma rmCounted_run p recursive fs c :
  exists fs',
    rmCounted p recursive (fs, c) =
      ((fs', if refused fs p recursive then c else c + 1), Ok tt) /\
    (refused fs p recursive = true -> fs' = fs) /\
    (refused fs p recursive = false -> exists_at fs' p = false) /\
    shrinks fs fs' /\
    (forall q, diverge p q = true -> lookup q (root fs') = lookup q (root fs)).
Proof.
  destruct (safeRm_run p recursive fs) as (fs' & R & K & E & S & F).
  exists fs'. split; [|auto].
  unfold rmCounted, bind, onDisk. cbn [fst snd]. rewrite R.
  now destruct (refused fs p recursive).
Qed.

(** The steps run one after the other; none throws.  [fs0] is the disk
    the whole removal started from. *)
Lemma runSteps_run (l : list step) : forall fs0 fs c,
  shrinks fs0 fs ->
  exists fs' n,
    runSteps l (fs, c) = ((fs', c + n), Ok tt) /\
    shrinks fs fs' /\
    Z.of_nat (length (filter (unrefused fs0) l)) <= n <= Z.of_nat (length l) /\
    (forall st, In st l -> unrefused fs0 st = true ->
                exists_at fs' (fst st) = false) /\
    (forall q, Forall (fun st => diverge (fst st) q = true) l ->
               lookup q (root fs') = lookup q (root fs)).
Proof.
  induction l as [|[p r] l IH]; intros fs0 fs c S0.
  - exists fs, 0. cbn. rewrite Z.add_0_r.
    split; [reflexivity|]. split; [apply shrinks_refl|].
    split; [lia|]. split; [intros st []|reflexivity].
  - destruct (rmCounted_run p r fs c) as (fs1 & R & _ & E1 & S1 & F1).
    destruct (IH fs0 fs1 (if refused fs p r then c else c + 1)
                (shrinks_trans _ _ _ S0 S1))
      as (fs' & n & Rl & Sl & Bl & Al & Fl).
    assert (U : unrefused fs0 (p, r) = true -> refused fs p r = false).
    { unfold unrefused. cbn [fst snd]. intros U.
      destruct (refused fs p r) eqn:Rf; [|reflexivity].
      rewrite (shrinks_refused _ _ _ _ S0 Rf) in U. discriminate. }
    exists fs', (n + if refused fs p r then 0 else 1).
    split.
    { unfold runSteps. cbn [for_of fst snd]. unfold bind at 1. rewrite R.
      fold (runSteps l). rewrite Rl. f_equal. f_equal.
      destruct (refused fs p r); lia. }
    split; [eapply shrinks_trans; eauto|].
    split.
    { cbn [filter length]. destruct (unrefused fs0 (p, r)) eqn:Eu.
      - rewrite (U eq_refl). cbn [length]. lia.
      - destruct (refused fs p r); cbn [length]; lia. }
    split.
    { intros st [<-|Hin] Hu; [|now apply Al].
      cbn [fst]. specialize (E1 (U Hu)).
      destruct (exists_at fs' p) eqn:Ex; [|reflexivity].
      rewrite (shrinks_exists _ _ _ Sl Ex) in E1. discriminate. }
    intros q D. inversion D as [|? ? Dp Dl]; subst. cbn [fst] in Dp.
    rewrite (Fl q Dl). now apply F1.
Qed.


Lemma apart_app a b : apart (a ++ b) = true -> apart a = true.
Proof.
  induction a as [|st a IH]; cbn [app apart]; [reflexivity|].
  rewrite forallb_app, !andb_true_iff. intros [[H _] A]. split; [exact H|auto].
Qed.

Lemma allTyped_typedIds ids :
  allTyped ids = true -> map Some (typedIds ids) = ids.
Proof.
  induction ids as [|[id|] ids IH]; cbn; [reflexivity| |discriminate].
  intros H. now rewrite (IH H).
Qed.

Section Deletion.
Context {rt : Runtime}.

(** The loop over the message ids runs the part steps, and throws after
    them when an id is missing. *)
Lemma rmParts_loop ids st :
  for_of ids rmParts st =
  (runSteps (map (fun messageID => (partDir messageID, true)) (typedIds ids)) ;;;
   if allTyped ids then ret tt else throw ERR_INVALID_ARG_TYPE) st.
Proof.
  revert st. induction ids as [|[id|] ids IH]; intros st.
  - reflexivity.
  - cbn [for_of typedIds map allTyped forallb andb rmParts].
    unfold runSteps. cbn [for_of fst snd]. rewrite !bind_run.
    destruct (rmCounted (partDir id) true st) as [st1 [[]|e]]; [|reflexivity].
    rewrite IH. reflexivity.
  - reflexivity.
Qed.

Lemma deleteSessionBody_steps session fs c :
  deleteSessionBody session (fs, c) =
  if allTyped (readMessageIDs fs (SessionInfo.id session))
  then runSteps (steps fs session) (fs, c)
  else (runSteps (partSteps fs session) ;;; throw ERR_INVALID_ARG_TYPE) (fs, c).
Proof.
  unfold deleteSessionBody, steps, partSteps.
  rewrite bind_run. unfold reads at 1. cbn [fst].
  rewrite bind_run, rmParts_loop, bind_run.
  destruct (allTyped (readMessageIDs fs (SessionInfo.id session))).
  - unfold runSteps at 2. rewrite for_of_app, bind_run.
    fold (runSteps (map (fun messageID => (partDir messageID, true))
                      (typedIds (readMessageIDs fs (SessionInfo.id session))))).
    match goal with
    | |- context [runSteps ?l (fs, c)] =>
        destruct (runSteps l (fs, c)) as [st1 [[]|e]]; [|reflexivity]
    end.
    cbn [for_of fst snd]. unfold ret at 1. rewrite !bind_run.
    repeat match goal with
    | |- context [rmCounted ?p ?r ?st] =>
        destruct (rmCounted p r st) as [? [[]|?]];
        rewrite ?bind_run; try reflexivity
    end.
  - rewrite bind_run.
    match goal with
    | |- context [runSteps ?l (fs, c)] =>
        destruct (runSteps l (fs, c)) as [st1 [[]|e]]; reflexivity
    end.
Qed.

(** What [deleteSession] reports, and the disk it leaves.  With a string
    for every message id all steps run and the result is a success; with
    an id missing the part steps before it run, and the error of [join]
    is reported. *)
Lemma deleteSession_run session fs :
  exists fs' n,
    shrinks fs fs' /\
    if allTyped (readMessageIDs fs (SessionInfo.id session))
    then
      deleteSession session fs =
        (fs', Ok (mkDSR true (SessionInfo.id session) n
                    (SessionInfo.sizeBytes session) None)) /\
      runSteps (steps fs session) (fs, 0) = ((fs', n), Ok tt) /\
      Z.of_nat (length (filter (unrefused fs) (steps fs session))) <= n
        <= Z.of_nat (length (steps fs session)) /\
      (forall st, In st (steps fs session) -> unrefused fs st = true ->
                  exists_at fs' (fst st) = false) /\
      (forall q, Forall (fun st => diverge (fst st) q = true) (steps fs session) ->
                 lookup q (root fs') = lookup q (root fs))
    else
      deleteSession session fs =
        (fs', Ok (mkDSR false (SessionInfo.id session) n 0
                    (Some ERR_INVALID_ARG_TYPE))) /\
      runSteps (partSteps fs session) (fs, 0) = ((fs', n), Ok tt) /\
      Z.of_nat (length (filter (unrefused fs) (partSteps fs session))) <= n
        <= Z.of_nat (length (partSteps fs session)) /\
      (forall st, In st (partSteps fs session) -> unrefused fs st = true ->
                  exists_at fs' (fst st) = false) /\
      (forall q, Forall (fun st => diverge (fst st) q = true)
                   (partSteps fs session) ->
                 lookup q (root fs') = lookup q (root fs)).
Proof.
  unfold deleteSession. rewrite deleteSessionBody_steps.
  destruct (allTyped (readMessageIDs fs (SessionInfo.id session))).
  - destruct (runSteps_run (steps fs session) fs fs 0 (shrinks_refl fs))
      as (fs' & n & R & S & B & A & F).
    exists fs', n. rewrite R. cbn [Z.add] in *.
    split; [exact S|]. split; [reflexivity|]. split; [reflexivity|].
    split; [exact B|]. split; [exact A|exact F].
  - destruct (runSteps_run (partSteps fs session) fs fs 0 (shrinks_refl fs))
      as (fs' & n & R & S & B & A & F).
    exists fs', n. rewrite bind_run, R. cbn [Z.add] in *.
    split; [exact S|]. split; [reflexivity|]. split; [reflexivity|].
    split; [exact B|]. split; [exact A|exact F].
Qed.

(** [deleteSession] leaves alone what lies apart from all its targets. *)
Lemma deleteSession_frame session fs q :
  Forall (fun st => diverge (fst st) q = true) (steps fs session) ->
  lookup q (root (fst (deleteSession session fs))) = lookup q (root fs).
Proof.
  intros D. destruct (deleteSession_run session fs) as (fs' & n & S & R).
  destruct (allTyped (readMessageIDs fs (SessionInfo.id session))).
  - destruct R as (-> & _ & _ & _ & F). now apply F.
  - destruct R as (-> & _ & _ & _ & F). apply F.
    unfold steps in D. now apply Forall_app in D.
Qed.


End Deletion.

Example session_s1_loaded :
  In Demo.session_s1 (loadSessions Demo.fs1 (loadProjects Demo.fs1)).
Proof. vm_compute. right. right. left. reflexivity. Qed.

Example session_bare_loaded :
  loadSessions Demo.fs2 (loadProjects Demo.fs2) = [Demo.session_bare].
Proof. vm_compute. reflexivity. Qed.

(* ------------------------------------------------------------------ *)
(** ** Deleting a session                                               *)
(* ------------------------------------------------------------------ *)

Lemma filter_all {A} (f : A -> bool) (l : list A) :
  forallb f l = true -> filter f l = l.
Proof.
  induction l as [|x l IH]; cbn; [reflexivity|].
  destruct (f x); cbn; [|discriminate]. intros H. now rewrite IH.
Qed.

Section DeleteSession.
Context {rt : Runtime}.

Lemma steps_length fs session :
  allTyped (readMessageIDs fs (SessionInfo.id session)) = true ->
  Z.of_nat (length (steps fs session)) =
  Z.of_nat (length (readMessageIDs fs (SessionInfo.id session))) + 4.
Proof.
  intros T. unfold steps, partSteps.
  rewrite length_app, length_map. cbn [length].
  rewrite <- (allTyped_typedIds _ T) at 2. rewrite length_map. lia.
Qed.


(** C2, as amended: [deleteSession] returns, and when it returns with
    success=true a string was read for every message id, and every target
    (the part directory of each message id read, the message directory,
    the diff file, the todo file, the session record file) whose removal
    is not refused is absent from the disk afterwards; when no removal is
    refused all targets are absent and [filesDeleted] is the number of
    removal steps, one per message id read plus four, whether or not
    their targets existed. *)
Theorem deleteSession_complete (session : SessionInfo.t) (fs : FS) :
  exists fs' r,
    deleteSession session fs = (fs', Ok r) /\
    (success r = true ->
     allTyped (readMessageIDs fs (SessionInfo.id session)) = true /\
     Forall (fun st => unrefused fs st = true -> exists_at fs' (fst st) = false)
            (steps fs session) /\
     (forallb (unrefused fs) (steps fs session) = true ->
      Forall (fun t => exists_at fs' t = false) (targets fs session) /\
      filesDeleted r =
        Z.of_nat (length (readMessageIDs fs (SessionInfo.id session))) + 4)).
Proof.
  destruct (deleteSession_run session fs) as (fs' & n & S & R).
  destruct (allTyped (readMessageIDs fs (SessionInfo.id session))) eqn:T.
  - destruct R as (R & _ & B & A & _).
    exists fs', (mkDSR true (SessionInfo.id session) n
                   (SessionInfo.sizeBytes session) None).
    split; [exact R|]. intros _. split; [reflexivity|].
    split; [apply Forall_forall; exact A|].
    intros H. rewrite (filter_all _ _ H), (steps_length _ _ T) in B.
    split; [|cbn [filesDeleted]; lia].
    apply Forall_forall. intros t Ht. unfold targets in Ht.
    apply in_map_iff in Ht. destruct Ht as (st & <- & Hst).
    apply A; [exact Hst|]. rewrite forallb_forall in H. now apply H.
  - destruct R as (R & _).
    exists fs', (mkDSR false (SessionInfo.id session) n 0
                   (Some ERR_INVALID_ARG_TYPE)).
    split; [exact R|]. cbn [success]. discriminate.
Qed.


End DeleteSession.

(** On the bare store the session record is the only target on the
    disk, and [deleteSession] reports four files deleted; and where the
    removal of the message directory is refused, [deleteSession] reports
    success with that directory still on the disk. *)
Lemma deleteSession_counts_absent_targets :
  (exists fs' r,
      deleteSession Demo.session_bare Demo.fs2 = (fs', Ok r) /\
      success r = true /\
      filesDeleted r = 4 /\
      existingTargets Demo.fs2 Demo.session_bare = 1 /\
      filesDeleted r <> existingTargets Demo.fs2 Demo.session_bare) /\
  (exists fs' r,
      deleteSession Demo.session_s1 Demo.fs1_denied = (fs', Ok r) /\
      success r = true /\
      In (messageDir "s1") (targets Demo.fs1_denied Demo.session_s1) /\
      exists_at fs' (messageDir "s1") = true).
Proof.
  split.
  - eexists. eexists. split; [vm_compute; reflexivity|].
    cbn [success filesDeleted]. repeat split; vm_compute; congruence.
  - eexists. eexists. split; [vm_compute; reflexivity|].
    cbn [success]. split; [reflexivity|]. split.
    + vm_compute. do 2 right. left. reflexivity.
    + vm_compute. reflexivity.
Qed.

Lemma deleteSession_complete_witness :
  exists fs' r,
    deleteSession Demo.session_s1 Demo.fs1 = (fs', Ok r) /\
    success r = true /\
    Forall (fun t => exists_at fs' t = false)
           (targets Demo.fs1 Demo.session_s1) /\
    filesDeleted r = 6.
Proof.
  destruct (deleteSession_complete Demo.session_s1 Demo.fs1)
    as (fs' & r & R & H).
  exists fs', r. split; [exact R|].
  assert (S : success r = true).
  { vm_compute in R. injection R as _ <-. reflexivity. }
  destruct (H S) as (_ & _ & All). split; [exact S|].
  apply All. vm_compute. reflexivity.
Defined.



(** ** Deleting a log                                                   *)
(* ------------------------------------------------------------------ *)

(** C10: for a log whose path is no longer on the disk, [deleteLog]
    returns success=true and [bytesFreed] equal to the [sizeBytes]
    recorded in the [LogFile], and the disk is as it was: nothing was
    freed. *)
Theorem deleteLog_absent (log : LogFile.t) (fs : FS) :
  exists_at fs (LogFile.path log) = false ->
  deleteLog log fs =
    (fs, Ok (mkDLR true (LogFile.filename log) (LogFile.sizeBytes log) None)).
Proof.
  unfold exists_at, deleteLog, try_catch, bind, rm, ret.
  destruct (lookup (LogFile.path log) (root fs)); [discriminate|reflexivity].
Qed.

Lemma deleteLog_absent_witness :
  deleteLog Demo.log_gone Demo.fs1 =
    (Demo.fs1, Ok (mkDLR true "2026-01-01T000000.log" 77 None)).
Proof.
  apply (deleteLog_absent Demo.log_gone Demo.fs1). vm_compute. reflexivity.
Defined.

(* ------------------------------------------------------------------ *)
(* ------------------------------------------------------------------ *)
(** ** The frequency index                                              *)
(* ------------------------------------------------------------------ *)

Section Frecency.
Context {rt : Runtime}.

Lemma frecencyStep_eq directory kept n line :
  frecencyStep directory (kept, n) line =
  if String.eqb line "" then (kept, n)
  else if underPrefix directory line then (kept, n + 1)
  else (kept ++ [line], n).
Proof.
  unfold frecencyStep, underPrefix, pathUnder.
  destruct (String.eqb line ""); [reflexivity|].
  destruct (parseFrecency line) as [entry|]; [|reflexivity].
  destruct (FrecencyEntry.path entry) as [entryPath|]; [|reflexivity].
  now destruct (Str.startsWith entryPath directory).
Qed.

Lemma frecency_loop directory lines : forall kept n,
  fold_left (frecencyStep directory) lines (kept, n) =
  (kept ++ filter (fun line => negb (underPrefix directory line))
             (filter (fun line => negb (String.eqb line "")) lines),
   n + Z.of_nat (length (filter (underPrefix directory)
             (filter (fun line => negb (String.eqb line "")) lines)))).
Proof.
  induction lines as [|line lines IH]; intros kept n; cbn [fold_left filter].
  - rewrite app_nil_r. cbn. f_equal. lia.
  - rewrite frecencyStep_eq.
    destruct (String.eqb line ""); cbn [negb]; [apply IH|].
    cbn [filter].
    destruct (underPrefix directory line); cbn [negb]; rewrite IH.
    + f_equal. cbn [length]. lia.
    + rewrite <- app_assoc. reflexivity.
Qed.

Lemma FRECENCY_FILE_nonempty : FRECENCY_FILE <> [].
Proof. apply join_nonempty. Qed.

(** What one call of [cleanFrecencyForDirectory] does. *)
Lemma cleanFrecency_run directory fs :
  match readFile fs FRECENCY_FILE with
  | Ok content =>
      exists fs',
        cleanFrecencyForDirectory directory fs =
          (fs', Ok (removedCount directory content)) /\
        readFile fs' FRECENCY_FILE = Ok (rewritten directory content) /\
        denied fs' = denied fs /\
        (forall q, diverge FRECENCY_FILE q = true ->
                   lookup q (root fs') = lookup q (root fs))
  | Throw _ => cleanFrecencyForDirectory directory fs = (fs, Ok 0)
  end.
Proof.
  unfold cleanFrecencyForDirectory, try_catch. rewrite bind_run.
  destruct (readFile fs FRECENCY_FILE) as [content|e] eqn:R; [|reflexivity].
  rewrite (frecency_loop directory _ [] 0). cbn [app].
  fold (entryLines content). fold (keptLines directory content).
  rewrite Z.add_0_l. fold (removedCount directory content).
  fold (rewritten directory content).
  assert (L : lookup FRECENCY_FILE (root fs) = Some (File content)).
  { unfold readFile in R.
    destruct (lookup FRECENCY_FILE (root fs)) as [[c|es]|]; congruence. }
  destruct (write_over_file FRECENCY_FILE (rewritten directory content)
              (root fs) content FRECENCY_FILE_nonempty L) as (n' & W).
  exists (mkFS n' (denied fs)).
  rewrite bind_run. unfold writeFile. rewrite W. cbn [ret].
  split; [reflexivity|]. split.
  - unfold readFile. cbn [root]. now rewrite (lookup_write_same _ _ _ _ W).
  - split; [reflexivity|]. intros q D. cbn [root].
    eapply lookup_write_diverge; eauto.
Qed.

(** Cleaning the log makes nothing new. *)
Lemma cleanFrecency_absent directory fs q :
  exists_at fs q = false ->
  exists_at (fst (cleanFrecencyForDirectory directory fs)) q = false.
Proof.
  intros A. unfold cleanFrecencyForDirectory, try_catch. rewrite bind_run.
  destruct (readFile fs FRECENCY_FILE) as [content|e] eqn:R; [|exact A].
  match goal with
  | |- context [fold_left ?f ?l ?a] => destruct (fold_left f l a) as [kept n]
  end.
  rewrite bind_run. unfold writeFile.
  match goal with
  | |- context [write ?p ?c ?n] => destruct (write p c n) as [n'|] eqn:W
  end; cbn [fst ret]; [|exact A].
  unfold exists_at in *. cbn [root].
  assert (L : exists c, lookup FRECENCY_FILE (root fs) = Some (File c)).
  { unfold readFile in R.
    destruct (lookup FRECENCY_FILE (root fs)) as [[c|es]|]; try discriminate.
    eauto. }
  destruct L as [c L].
  destruct (lookup q (root fs)) eqn:Q; [discriminate|].
  now rewrite (write_over_file_absent _ _ _ _ _ _ L W Q).
Qed.

(** C7, as amended: [cleanFrecencyForDirectory prefix] rewrites the log
    from its content with the white space at both ends stripped: the new
    content is the lines kept, in their order, a line feed after each.  A
    line of the stripped content is kept exactly when it is not empty and
    holds no entry whose path starts with [prefix]; a line that is not
    empty and does not parse is among them, as it stands in the stripped
    content.  The result is the number of the lines that hold an entry
    whose path starts with [prefix].  When the log file does not exist
    the result is 0 and the disk stays as it is: no file is made. *)
Theorem cleanFrecency_filters (prefix : string) (fs : FS) :
  (forall content,
      readFile fs FRECENCY_FILE = Ok content ->
      let lines := Str.split Str.LF (Str.trim content) in
      let matching line :=
        exists entry entryPath,
          parseFrecency line = Some entry /\
          FrecencyEntry.path entry = Some entryPath /\
          Str.startsWith entryPath prefix = true in
      exists fs' kept,
        cleanFrecencyForDirectory prefix fs
          = (fs', Ok (Z.of_nat (length
                        (filter (fun line => negb (String.eqb line "")
                                             && underPrefix prefix line)%bool
                                lines)))) /\
        readFile fs' FRECENCY_FILE = Ok (Str.joinLines kept ++ Str.nl)%string /\
        kept = filter (fun line => negb (String.eqb line "")
                                   && negb (underPrefix prefix line))%bool lines /\
        (forall line, underPrefix prefix line = true <-> matching line) /\
        (forall line, In line kept <->
                      In line lines /\ line <> ""%string /\ ~ matching line) /\
        (forall line, In line lines -> line <> ""%string ->
                      parseFrecency line = None -> In line kept)) /\
  (exists_at fs FRECENCY_FILE = false ->
   cleanFrecencyForDirectory prefix fs = (fs, Ok 0) /\
   exists_at (fst (cleanFrecencyForDirectory prefix fs)) FRECENCY_FILE = false).
Proof.
  pose proof (cleanFrecency_run prefix fs) as R. split.
  - intros content E lines matching. rewrite E in R.
    destruct R as (fs' & R & C & _).
    assert (U : forall line, underPrefix prefix line = true <-> matching line).
    { intros line. unfold underPrefix, pathUnder, matching.
      destruct (parseFrecency line) as [entry|].
      - destruct (FrecencyEntry.path entry) as [entryPath|] eqn:P.
        + split.
          * intros S. exists entry, entryPath. auto.
          * intros (e & p & [= <-] & Q & S). congruence.
        + split; [discriminate|]. intros (e & p & [= <-] & Q & _). congruence.
      - split; [discriminate|]. intros (e & p & Q & _). discriminate. }
    assert (FF : forall (f : string -> bool) l,
               filter f (filter (fun line => negb (String.eqb line "")) l)
               = filter (fun line => negb (String.eqb line "") && f line)%bool l).
    { intros f l. induction l as [|x l IH]; cbn [filter]; [reflexivity|].
      destruct (String.eqb x ""); cbn [negb andb filter]; [exact IH|].
      destruct (f x); now rewrite IH. }
    exists fs', (keptLines prefix content). split.
    { rewrite R. unfold removedCount, entryLines. fold lines.
      now rewrite FF. }
    split; [exact C|].
    split.
    { unfold keptLines, entryLines. fold lines. apply FF. }
    assert (K : forall line, In line (keptLines prefix content) <->
                In line lines /\ line <> ""%string /\ ~ matching line).
    { intros line. unfold keptLines, entryLines. fold lines.
      rewrite !filter_In, !negb_true_iff, <- U.
      rewrite <- (not_true_iff_false (underPrefix prefix line)).
      rewrite String.eqb_neq. tauto. }
    split; [exact U|]. split; [exact K|].
    intros line I Ne P. apply K. split; [exact I|]. split; [exact Ne|].
    intros (e & p & Q & _). congruence.
  - intros E. unfold exists_at in E. unfold readFile in R.
    destruct (lookup FRECENCY_FILE (root fs)) eqn:L; [discriminate|].
    rewrite R. cbn [fst]. split; [reflexivity|].
    unfold exists_at. now rewrite L.
Qed.

End Frecency.

(** A log with a first line [" zzz"], which is no entry, and an empty
    line: cleaning for ["/a"] removes no entry, yet the file changes: the
    first line is written without its space and the empty line is left
    out, so the line that does not parse is not kept as it was. *)
Lemma cleanFrecency_strips_lines :
  readFile Demo.fs8 FRECENCY_FILE
    = Ok (" zzz" ++ Str.nl ++ Str.nl ++ Demo.frecency_line_c ++ Str.nl)%string /\
  parseFrecency " zzz" = None /\
  exists fs',
    cleanFrecencyForDirectory "/a" Demo.fs8 = (fs', Ok 0) /\
    readFile fs' FRECENCY_FILE
      = Ok ("zzz" ++ Str.nl ++ Demo.frecency_line_c ++ Str.nl)%string /\
    forall content',
      readFile fs' FRECENCY_FILE = Ok content' ->
      ~ In " zzz"%string (Str.split Str.LF content').
Proof.
  split; [vm_compute; reflexivity|]. split; [vm_compute; reflexivity|].
  eexists. split; [vm_compute; reflexivity|].
  split; [vm_compute; reflexivity|].
  intros content' E. vm_compute in E. injection E as <-.
  vm_compute. intros [H|[H|[H|[]]]]; discriminate.
Qed.

(** The log of the store [fs1] holds the lines for [/a/b] and [/c]:
    cleaning for ["/a"] leaves the second and returns 1; on the bare
    store, which has no log, it returns 0 and makes no file. *)
Lemma cleanFrecency_filters_witness :
  (exists fs',
      cleanFrecencyForDirectory "/a" Demo.fs1 = (fs', Ok 1) /\
      readFile fs' FRECENCY_FILE = Ok (Demo.frecency_line_c ++ Str.nl)%string) /\
  cleanFrecencyForDirectory "/a" Demo.fs2 = (Demo.fs2, Ok 0).
Proof.
  split.
  - destruct (cleanFrecency_filters "/a" Demo.fs1) as [H _].
    destruct (H (Demo.frecency_line_ab ++ Str.nl ++ Demo.frecency_line_c ++ Str.nl)%string
                eq_refl) as (fs' & kept & R & C & K & _).
    exists fs'. split; [exact R|]. rewrite C, K. vm_compute. reflexivity.
  - apply (cleanFrecency_filters "/a" Demo.fs2). vm_compute. reflexivity.
Defined.

(* ------------------------------------------------------------------ *)
(** ** Cleaning up an empty project                                     *)
(* ------------------------------------------------------------------ *)

Section Cleanup.
Context {rt : Runtime}.

(** The frequency log lies under [state], the store under [share]. *)
Lemma diverge_share_state (p q : path) :
  diverge (OPENCODE_SHARE_DIR ++ p) (OPENCODE_STATE_DIR ++ q) = true.
Proof.
  unfold OPENCODE_SHARE_DIR, OPENCODE_STATE_DIR.
  rewrite <- !app_assoc, diverge_app. reflexivity.
Qed.

Lemma projectFile_apart projectID :
  Path.plain projectID = true ->
  diverge (projectFile projectID) FRECENCY_FILE = true.
Proof.
  intros P. rewrite (projectFile_plain _ P).
  unfold PROJECT_DIR, STORAGE_DIR, FRECENCY_FILE, join.
  rewrite <- !app_assoc. apply diverge_share_state.
Qed.

Lemma sessionDir_apart projectID :
  Path.plain projectID = true ->
  diverge (projectSessionDir projectID) FRECENCY_FILE = true.
Proof.
  intros P. rewrite (projectSessionDir_plain _ P).
  unfold SESSION_DIR, STORAGE_DIR, FRECENCY_FILE, join.
  rewrite <- !app_assoc. apply diverge_share_state.
Qed.

Lemma snapshotDir_apart projectID :
  Path.plain projectID = true ->
  diverge (snapshotDir projectID) FRECENCY_FILE = true.
Proof.
  intros P. rewrite (snapshotDir_plain _ P).
  unfold SNAPSHOT_DIR, FRECENCY_FILE, join.
  rewrite <- !app_assoc. apply diverge_share_state.
Qed.

Lemma unrefused_later a b p recursive :
  shrinks a b -> refused a p recursive = false -> refused b p recursive = false.
Proof.
  intros S R. destruct (refused b p recursive) eqn:E; [|reflexivity].
  rewrite (shrinks_refused _ _ _ _ S E) in R. discriminate.
Qed.

Lemma absent_later a b p :
  shrinks a b -> exists_at a p = false -> exists_at b p = false.
Proof.
  intros S R. destruct (exists_at b p) eqn:E; [|reflexivity].
  rewrite (shrinks_exists _ _ _ S E) in R. discriminate.
Qed.

(** C6, as amended: [cleanupEmptyProject] returns true exactly when the
    live count of session files of the project is zero.  Then the project
    record file, the project's session directory and its snapshot
    directory are removed, each unless the system refuses that removal,
    and the frequency log is rewritten without the entries under
    [worktree] (for a project id that names one entry; whatever the id,
    the log is rewritten so or it is gone with what was removed);
    otherwise it returns false and the disk is as it was. *)
Theorem cleanupEmptyProject_iff_empty (projectID worktree : string) (fs : FS) :
  exists fs',
    cleanupEmptyProject projectID worktree fs =
      (fs', Ok (getProjectSessionCount fs projectID =? 0)) /\
    (getProjectSessionCount fs projectID <> 0 -> fs' = fs) /\
    (getProjectSessionCount fs projectID = 0 ->
       (refused fs (projectFile projectID) false = false ->
        exists_at fs' (projectFile projectID) = false) /\
       (refused fs (projectSessionDir projectID) true = false ->
        exists_at fs' (projectSessionDir projectID) = false) /\
       (refused fs (snapshotDir projectID) true = false ->
        exists_at fs' (snapshotDir projectID) = false) /\
       (forall content,
          readFile fs FRECENCY_FILE = Ok content ->
          readFile fs' FRECENCY_FILE = Ok (rewritten worktree content) \/
          exists_at fs' FRECENCY_FILE = false) /\
       (Path.plain projectID = true ->
        forall content,
          readFile fs FRECENCY_FILE = Ok content ->
          readFile fs' FRECENCY_FILE = Ok (rewritten worktree content))).
Proof.
  unfold cleanupEmptyProject. rewrite bind_run. unfold reads at 1.
  destruct (getProjectSessionCount fs projectID =? 0) eqn:C.
  2:{ exists fs. apply Z.eqb_neq in C. cbn. repeat split; tauto. }
  apply Z.eqb_eq in C.
  destruct (safeRm_run (projectFile projectID) false fs)
    as (fs1 & R1 & _ & E1 & S1 & F1).
  destruct (safeRm_run (projectSessionDir projectID) true fs1)
    as (fs2 & R2 & _ & E2 & S2 & F2).
  destruct (safeRm_run (snapshotDir projectID) true fs2)
    as (fs3 & R3 & _ & E3 & S3 & F3).
  pose proof (cleanFrecency_run worktree fs3) as R4.
  pose proof (cleanFrecency_absent worktree fs3) as A4.
  rewrite !bind_run, R1, !bind_run, R2, !bind_run, R3, !bind_run.
  destruct (cleanFrecencyForDirectory worktree fs3) as [fs4 [n|e]] eqn:R5.
  2:{ exfalso. destruct (readFile fs3 FRECENCY_FILE).
      - destruct R4 as (? & R4 & _). congruence.
      - congruence. }
  cbn [fst] in A4. cbn [ret].
  exists fs4. split; [reflexivity|]. split; [intros N; contradiction|].
  intros _. split; [|split; [|split; [|split]]].
  - intros U. apply A4.
    apply (absent_later fs1 fs3); [exact (shrinks_trans _ _ _ S2 S3)|].
    now apply E1.
  - intros U. apply A4. eapply absent_later; [exact S3|]. apply E2.
    exact (unrefused_later _ _ _ _ S1 U).
  - intros U. apply A4. apply E3.
    exact (unrefused_later _ _ _ _ (shrinks_trans _ _ _ S1 S2) U).
  - intros content RD.
    destruct (lookup FRECENCY_FILE (root fs3)) as [x|] eqn:L.
    + left.
      destruct (shrinks_lookup _ _
                  (shrinks_trans _ _ _ S1 (shrinks_trans _ _ _ S2 S3)) _ _ L)
        as (y & Ly & Rm).
      assert (RF : readFile fs3 FRECENCY_FILE = Ok content).
      { unfold readFile in *. rewrite L. rewrite Ly in RD.
        destruct y as [c|es]; [|discriminate].
        destruct x as [c'|es']; cbn in Rm; [now subst|contradiction]. }
      rewrite RF in R4. destruct R4 as (fs4' & R4 & C4 & _).
      injection R4 as <- _. exact C4.
    + right. apply A4. unfold exists_at. now rewrite L.
  - intros P content RD.
    assert (L : lookup FRECENCY_FILE (root fs3) = lookup FRECENCY_FILE (root fs)).
    { rewrite F3, F2, F1; auto using projectFile_apart, sessionDir_apart,
        snapshotDir_apart. }
    assert (RF : readFile fs3 FRECENCY_FILE = Ok content).
    { unfold readFile in *. now rewrite L. }
    rewrite RF in R4. destruct R4 as (fs4' & R4 & C4 & _).
    injection R4 as <- _. exact C4.
Qed.

End Cleanup.

Example three_sessions_loaded :
  loadSessions Demo.fs3 (loadProjects Demo.fs3) =
  [Demo.session_of "c" 3 30; Demo.session_of "b" 2 20; Demo.session_of "a" 1 10].
Proof. vm_compute. reflexivity. Qed.

(** With no session file left and the removal of the project record
    refused, [cleanupEmptyProject] returns true and the record is still
    on the disk. *)
Lemma cleanupEmptyProject_keeps_refused :
  getProjectSessionCount Demo.fs3_denied "p1" = 0 /\
  exists fs',
    cleanupEmptyProject "p1" "/a" Demo.fs3_denied = (fs', Ok true) /\
    exists_at fs' (projectFile "p1") = true.
Proof.
  split; [vm_compute; reflexivity|].
  eexists. split; vm_compute; reflexivity.
Qed.

(** Three sessions, two deleted in a batch: the project is not cleaned
    up and the disk stays; once the third is deleted too, the record, the
    session directory and the snapshot directory go, and the log loses the
    entries under the work tree. *)
Lemma cleanupEmptyProject_iff_empty_witness :
  (exists fs',
      cleanupEmptyProject "p1" "/home/u/work/app" Demo.fs3_one_left
        = (fs', Ok false) /\
      fs' = Demo.fs3_one_left) /\
  (exists fs',
      cleanupEmptyProject "p1" "/a" Demo.fs3_none_left = (fs', Ok true) /\
      exists_at fs' (projectFile "p1") = false /\
      exists_at fs' (projectSessionDir "p1") = false /\
      exists_at fs' (snapshotDir "p1") = false /\
      readFile fs' FRECENCY_FILE = Ok (Demo.frecency_line_c ++ Str.nl)%string).
Proof.
  split.
  - destruct (cleanupEmptyProject_iff_empty "p1" "/home/u/work/app"
                Demo.fs3_one_left) as (fs' & R & Hn & _).
    exists fs'. split; [exact R|]. apply Hn. vm_compute. discriminate.
  - destruct (cleanupEmptyProject_iff_empty "p1" "/a" Demo.fs3_none_left)
      as (fs' & R & _ & Hz).
    destruct (Hz eq_refl) as (H1 & H2 & H3 & _ & H4).
    exists fs'. split; [exact R|].
    split; [apply H1; vm_compute; reflexivity|].
    split; [apply H2; vm_compute; reflexivity|].
    split; [apply H3; vm_compute; reflexivity|].
    apply (H4 eq_refl
             (Demo.frecency_line_ab ++ Str.nl ++ Demo.frecency_line_c ++ Str.nl)%string).
    vm_compute. reflexivity.
Defined.

(** ** Sorting                                                          *)
(* ------------------------------------------------------------------ *)

Section SortFacts.
Context {A : Type} (cmp : A -> A -> Z).

Lemma insert_sorted_perm x l : Permutation (insert_sorted cmp x l) (x :: l).
Proof.
  induction l as [|y r IH]; cbn; [reflexivity|].
  destruct (cmp x y <=? 0); [reflexivity|].
  rewrite IH. apply perm_swap.
Qed.

Lemma sort_perm l : Permutation (sort cmp l) l.
Proof.
  induction l as [|x l IH]; cbn; [reflexivity|].
  rewrite insert_sorted_perm. now constructor.
Qed.

Lemma sort_In l x : In x (sort cmp l) <-> In x l.
Proof.
  split; apply Permutation_in; [|symmetry]; apply sort_perm.
Qed.

End SortFacts.

Lemma sumZ_perm l l' : Permutation l l' -> sumZ l = sumZ l'.
Proof. induction 1; cbn [sumZ] in *; lia. Qed.

Lemma sumZ_app l l' : sumZ (l ++ l') = sumZ l + sumZ l'.
Proof. induction l; cbn [sumZ app] in *; lia. Qed.

(* ------------------------------------------------------------------ *)
(** ** The size of a directory                                          *)
(* ------------------------------------------------------------------ *)



(* ------------------------------------------------------------------ *)
(* ------------------------------------------------------------------ *)
(** ** What [loadSessions] returns                                      *)
(* ------------------------------------------------------------------ *)


Section Sessions.
Context {rt : Runtime}.

Lemma collect_messages fs sessionID files : forall acc,
  fold_left
    (fun messages file =>
       if negb (isJson file) then messages
       else match readJsonFile parseMessage fs
                    (join (messageDir sessionID) file) with
            | Some message => messages ++ [message]
            | None => messages
            end)
    files acc
  = acc ++ recordsIn fs sessionID files.
Proof.
  induction files as [|file files IH]; intros acc; cbn [fold_left recordsIn flat_map].
  - now rewrite app_nil_r.
  - rewrite IH. fold (recordsIn fs sessionID files).
    destruct (isJson file); cbn [negb]; [|reflexivity].
    destruct (readJsonFile parseMessage fs _); [|reflexivity].
    now rewrite <- app_assoc.
Qed.

Lemma collect_ids fs sessionID files : forall acc,
  fold_left
    (fun messageIDs file =>
       if negb (isJson file) then messageIDs
       else match readJsonFile parseMessage fs
                    (join (messageDir sessionID) file) with
            | Some message => messageIDs ++ [Message.id message]
            | None => messageIDs
            end)
    files acc
  = acc ++ map Message.id (recordsIn fs sessionID files).
Proof.
  induction files as [|file files IH]; intros acc;
    cbn [fold_left recordsIn flat_map].
  - cbn. now rewrite app_nil_r.
  - rewrite IH. fold (recordsIn fs sessionID files).
    destruct (isJson file); cbn [negb]; [|reflexivity].
    destruct (readJsonFile parseMessage fs _); [|reflexivity].
    cbn [app map]. now rewrite <- app_assoc.
Qed.

(** The ids [deleteSession] reads are those of the message records. *)
Lemma readMessageIDs_records fs sessionID :
  readMessageIDs fs sessionID =
  match readdir fs (messageDir sessionID) with
  | Ok files => map Message.id (recordsIn fs sessionID files)
  | Throw _ => []
  end.
Proof.
  unfold readMessageIDs. destruct (readdir fs (messageDir sessionID)); [|reflexivity].
  now rewrite collect_ids.
Qed.



Lemma sessionFilesLoop_loaded fs projects projectID sessionFiles :
  forall sessions,
    Forall (loaded fs projects) sessions ->
    Forall (loaded fs projects)
      (fst (sessionFilesLoop fs (join SESSION_DIR projectID)
              match JsMap.get projectID projects with
              | Some project => Project.worktree project
              | None => "/"%string
              end sessionFiles sessions)).
Proof.
  induction sessionFiles as [|file rest IH]; intros sessions H;
    cbn [sessionFilesLoop]; [exact H|].
  destruct (isJson file) eqn:J; cbn [negb]; [|now apply IH].
  destruct (readJsonFile parseSession fs _) as [[session|image]|] eqn:R;
    [|exact H|now apply IH].
  apply IH. apply Forall_app. split; [exact H|].
  constructor; [|constructor].
  exists projectID, file. unfold loadedFrom. cbn. auto 10.
Qed.

Lemma projectDirsLoop_loaded fs projects projectDirs :
  forall sessions,
    Forall (loaded fs projects) sessions ->
    Forall (loaded fs projects) (projectDirsLoop fs projects projectDirs sessions).
Proof.
  induction projectDirs as [|projectID rest IH]; intros sessions H;
    cbn [projectDirsLoop]; [exact H|].
  destruct (lookup (join SESSION_DIR projectID) (root fs)) as [[c|es]|];
    [now apply IH| |exact H].
  destruct (readdir fs (join SESSION_DIR projectID)) as [files|e]; [|exact H].
  pose proof (sessionFilesLoop_loaded fs projects projectID files sessions H) as L.
  destruct (sessionFilesLoop _ _ _ _ _) as [sessions' goesOn].
  cbn [fst] in L. destruct goesOn; [now apply IH|exact L].
Qed.

Lemma loadSessions_loaded fs projects s :
  In s (loadSessions fs projects) -> loaded fs projects s.
Proof.
  unfold loadSessions. rewrite sort_In. revert s. apply Forall_forall.
  destruct (readdir fs SESSION_DIR); [|constructor].
  apply projectDirsLoop_loaded. constructor.
Qed.


End Sessions.



(** ** Grouping the sessions by project                                 *)
(* ------------------------------------------------------------------ *)

Lemma update_entry_keys {V} k (f : V -> V) (m : list (string * V)) :
  map fst (update_entry k f m) = map fst m.
Proof.
  unfold update_entry. rewrite map_map. apply map_ext.
  intros [k0 v]. cbn. now destruct (String.eqb k0 k).
Qed.

Lemma update_entry_In {V} k (f : V -> V) (m : list (string * V)) k' v' :
  In (k', v') (update_entry k f m) ->
  (k' = k /\ exists old, In (k, old) m /\ v' = f old) \/
  (k' <> k /\ In (k', v') m).
Proof.
  unfold update_entry. rewrite in_map_iff. intros ([k0 v0] & E & I).
  cbn [fst snd] in E. destruct (String.eqb k0 k) eqn:K.
  - apply String.eqb_eq in K. subst k0. injection E as <- <-. left. eauto.
  - apply String.eqb_neq in K. injection E as <- <-. right. auto.
Qed.

Lemma filter_snoc {A} (f : A -> bool) l x :
  filter f (l ++ [x]) = filter f l ++ (if f x then [x] else []).
Proof. rewrite filter_app. reflexivity. Qed.

Lemma addToGroup_grouped seen m s :
  grouped seen m -> grouped (seen ++ [s]) (addToGroup m s).
Proof.
  intros [K M A]. unfold addToGroup, JsMap.set, JsMap.has, JsMap.get.
  set (k := SessionInfo.projectID s).
  assert (Own : ofProject k s = true) by apply String.eqb_refl.
  assert (Other : forall k', k' <> k -> ofProject k' s = false).
  { intros k' N. apply String.eqb_neq. unfold k in N. congruence. }
  destruct (find_entry k m) as [ps|] eqn:F.
  - apply find_entry_In in F. destruct (M _ _ F) as [Eps _].
    split.
    + now rewrite update_entry_keys.
    + intros k' l' I. apply update_entry_In in I.
      destruct I as [[-> (old & Io & ->)]|[N I]].
      * rewrite filter_snoc, Own. split; [|now destruct ps].
        now rewrite Eps.
      * destruct (M _ _ I) as [E Ne]. rewrite filter_snoc, (Other _ N), app_nil_r.
        auto.
    + intros s' I. rewrite update_entry_keys. apply in_app_or in I.
      destruct I as [I|[<-|[]]]; [now apply A|].
      apply (in_map fst) in F. exact F.
  - apply find_entry_None in F.
    assert (Fresh : filter (ofProject k) seen = []).
    { destruct (filter (ofProject k) seen) as [|x r] eqn:E; [reflexivity|].
      assert (I : In x (filter (ofProject k) seen)) by (rewrite E; now left).
      apply filter_In in I. destruct I as [I Ix].
      apply String.eqb_eq in Ix. apply A in I. rewrite Ix in I. contradiction. }
    split.
    + rewrite map_app. cbn [map fst]. apply NoDup_app_remove_l with (l := []).
      cbn [app]. apply Permutation_NoDup with (l := k :: map fst m).
      * apply Permutation_cons_append.
      * now constructor.
    + intros k' l' I. apply in_app_or in I. destruct I as [I|[[= <- <-]|[]]].
      * destruct (M _ _ I) as [E Ne].
        assert (N : k' <> k).
        { intros ->. apply F. apply (in_map fst) in I. exact I. }
        rewrite filter_snoc, (Other _ N), app_nil_r. auto.
      * rewrite filter_snoc, Own, Fresh. split; [reflexivity|discriminate].
    + intros s' I. rewrite map_app. apply in_or_app. apply in_app_or in I.
      destruct I as [I|[<-|[]]]; [left; now apply A|right; now left].
Qed.

Lemma fold_addToGroup_grouped l : forall seen m,
  grouped seen m -> grouped (seen ++ l) (fold_left addToGroup l m).
Proof.
  induction l as [|s l IH]; intros seen m G; cbn [fold_left].
  - now rewrite app_nil_r.
  - replace (seen ++ s :: l) with ((seen ++ [s]) ++ l)
      by (now rewrite <- app_assoc).
    apply IH. now apply addToGroup_grouped.
Qed.

Lemma groupByProject_grouped sessions :
  grouped sessions (groupByProject sessions).
Proof.
  apply (fold_addToGroup_grouped sessions [] []).
  split; [constructor| |]; intros; contradiction.
Qed.

(* ------------------------------------------------------------------ *)
(** ** What [loadProjectInfos] returns                                  *)
(* ------------------------------------------------------------------ *)

Section Projects.
Context {rt : Runtime}.

Lemma second_loop fs (has : string -> bool) (projects : JsMap.t Project.t) :
  forall infos,
    fold_left
      (fun projectInfos entry =>
         if has (fst entry) then projectInfos
         else projectInfos ++ [emptyInfo fs (snd entry)])
      projects infos
    = infos ++ map (fun entry => emptyInfo fs (snd entry))
                   (filter (fun entry => negb (has (fst entry))) projects).
Proof.
  induction projects as [|entry rest IH]; intros infos; cbn [fold_left filter].
  - now rewrite app_nil_r.
  - rewrite IH. destruct (has (fst entry)); cbn [negb]; [reflexivity|].
    now rewrite <- app_assoc.
Qed.

Lemma loadProjectInfos_sorted fs sessions projects :
  loadProjectInfos fs sessions projects =
  sort byProjectUpdatedDesc (unsortedInfos fs sessions projects).
Proof.
  unfold loadProjectInfos, unsortedInfos, withoutSessions.
  now rewrite (second_loop fs (fun k => JsMap.has k (groupByProject sessions))).
Qed.

Lemma loadProjectInfos_In fs sessions projects info :
  In info (loadProjectInfos fs sessions projects) <->
  In info (unsortedInfos fs sessions projects).
Proof. rewrite loadProjectInfos_sorted. apply sort_In. Qed.

Lemma groupInfo_sessions fs projects group :
  ProjectInfo.sessions (groupInfo fs projects group) = snd group.
Proof.
  destruct group as [k l]. cbn [groupInfo snd].
  now destruct (JsMap.get k projects).
Qed.

Lemma totalSize_sum l : totalSize l = sumZ (map SessionInfo.sizeBytes l).
Proof.
  unfold totalSize.
  assert (G : forall a, fold_left (fun sum s => sum + SessionInfo.sizeBytes s) l a
                        = a + sumZ (map SessionInfo.sizeBytes l)).
  { induction l as [|s l IH]; intros a; cbn [fold_left map sumZ]; [lia|].
    rewrite IH. lia. }
  apply G.
Qed.

(** Every entry is of one of three kinds. *)
Lemma unsortedInfos_kinds fs sessions projects info :
  In info (unsortedInfos fs sessions projects) ->
  (exists key members,
      In (key, members) (groupByProject sessions) /\
      info = groupInfo fs projects (key, members)) \/
  (exists key project,
      In (key, project) projects /\
      JsMap.has key (groupByProject sessions) = false /\
      info = emptyInfo fs project).
Proof.
  unfold unsortedInfos, withoutSessions. intros I. apply in_app_or in I.
  destruct I as [I|I]; apply in_map_iff in I.
  - destruct I as ([key members] & <- & I). left. eauto.
  - destruct I as ([key project] & <- & I). apply filter_In in I.
    destruct I as [I H]. cbn [fst snd] in *. apply negb_true_iff in H.
    right. eauto.
Qed.

(** C5: every input session is in the sessions list of exactly one
    entry of the result: the entry built from the project record of its
    [projectID], or the placeholder made for that [projectID]. *)
Theorem session_in_exactly_one_project (fs : FS) (sessions : list SessionInfo.t)
  (projects : JsMap.t Project.t) (s : SessionInfo.t) :
  In s sessions ->
  exists before info after,
    loadProjectInfos fs sessions projects = before ++ info :: after /\
    In s (ProjectInfo.sessions info) /\
    (forall other, In other (before ++ after) ->
                   ~ In s (ProjectInfo.sessions other)) /\
    match JsMap.get (SessionInfo.projectID s) projects with
    | Some project => ProjectInfo.project info = project
    | None =>
        ProjectInfo.id info = SessionInfo.projectID s /\
        ProjectInfo.isOrphan info = true
    end.
Proof.
  intros Hs. destruct (groupByProject_grouped sessions) as [K M A].
  set (k := SessionInfo.projectID s).
  assert (Hk : In k (map fst (groupByProject sessions))) by now apply A.
  apply in_map_iff in Hk. destruct Hk as ([k0 l] & E & Hl).
  cbn [fst] in E. subst k0.
  destruct (in_split _ _ Hl) as (G1 & G2 & HG).
  destruct (M _ _ Hl) as [El _].
  set (info := groupInfo fs projects (k, l)).
  assert (Hin : In s (ProjectInfo.sessions info)).
  { unfold info. rewrite groupInfo_sessions. cbn [snd]. rewrite El.
    apply filter_In. split; [exact Hs|apply String.eqb_refl]. }
  set (U1 := map (groupInfo fs projects) G1).
  set (U2 := map (groupInfo fs projects) G2
             ++ map (fun entry => emptyInfo fs (snd entry))
                    (withoutSessions sessions projects)).
  assert (HU : unsortedInfos fs sessions projects = U1 ++ info :: U2).
  { unfold unsortedInfos, U1, U2, info. rewrite HG, map_app. cbn [map].
    now rewrite <- app_assoc. }
  assert (Others : forall other, In other (U1 ++ U2) ->
                                 ~ In s (ProjectInfo.sessions other)).
  { rewrite HG, map_app in K. cbn [map fst] in K.
    apply NoDup_remove_2 in K.
    assert (Grp : forall g, In g (G1 ++ G2) ->
                    ~ In s (ProjectInfo.sessions (groupInfo fs projects g))).
    { intros [k' l'] Ig Is. rewrite groupInfo_sessions in Is. cbn [snd] in Is.
      assert (Ig' : In (k', l') (groupByProject sessions)).
      { rewrite HG. apply in_app_or in Ig. apply in_or_app.
        destruct Ig; [left|right; right]; assumption. }
      destruct (M _ _ Ig') as [E' _]. rewrite E' in Is.
      apply filter_In in Is. destruct Is as [_ Is].
      apply String.eqb_eq in Is. fold k in Is. subst k'.
      apply K. rewrite <- map_app. apply (in_map fst) in Ig. exact Ig. }
    intros other Io. unfold U1, U2 in Io.
    rewrite app_assoc, <- map_app in Io. apply in_app_or in Io.
    destruct Io as [Io|Io]; apply in_map_iff in Io.
    - destruct Io as (g & <- & Ig). now apply Grp.
    - destruct Io as (e & <- & _). cbn. tauto. }
  assert (Hsorted : In info (loadProjectInfos fs sessions projects)).
  { apply loadProjectInfos_In. rewrite HU. apply in_or_app. right. now left. }
  destruct (in_split _ _ Hsorted) as (before & after & Hsplit).
  exists before, info, after. split; [exact Hsplit|]. split; [exact Hin|].
  split.
  - intros other Io. apply Others.
    assert (P : Permutation (before ++ after) (U1 ++ U2)).
    { apply Permutation_app_inv with (a := info).
      rewrite <- Hsplit, <- HU, loadProjectInfos_sorted. apply sort_perm. }
    eapply Permutation_in; eauto.
  - unfold info. cbn [groupInfo]. fold k.
    destruct (JsMap.get k projects); cbn; auto.
Qed.

End Projects.

(* ------------------------------------------------------------------ *)
(** ** The orphan flags of a snapshot                                   *)
(* ------------------------------------------------------------------ *)

Section Orphans.
Context {rt : Runtime}.

Lemma set_keyed projects project :
  keyed projects -> keyed (JsMap.set (Project.id project) project projects).
Proof.
  intros K key p I. unfold JsMap.set in I.
  destruct (JsMap.has (Project.id project) projects).
  - apply update_entry_In in I.
    destruct I as [[-> (old & _ & ->)]|[_ I]]; [reflexivity|now apply K].
  - apply in_app_or in I. destruct I as [I|[[= <- <-]|[]]];
      [now apply K|reflexivity].
Qed.

Lemma loadProjects_keyed fs : keyed (loadProjects fs).
Proof.
  unfold loadProjects. destruct (readdir fs PROJECT_DIR) as [files|e].
  2:{ intros ? ? []. }
  assert (G : forall projects, keyed projects ->
    keyed (fold_left
      (fun projects file =>
         if negb (isJson file) then projects
         else match readJsonFile parseProject fs (join PROJECT_DIR file) with
              | Some project => JsMap.set (Project.id project) project projects
              | None => projects
              end) files projects)).
  { induction files as [|file files IH]; intros projects K; cbn [fold_left];
      [exact K|].
    apply IH. destruct (negb (isJson file)); [exact K|].
    destruct (readJsonFile parseProject fs _); [|exact K].
    now apply set_keyed. }
  apply G. intros ? ? [].
Qed.

Lemma projectInfo_orphan fs sessions projects info :
  keyed projects ->
  In info (loadProjectInfos fs sessions projects) ->
  (ProjectInfo.isOrphan info = true <->
   directoryExists fs (ProjectInfo.worktree info) = false \/
   JsMap.get (ProjectInfo.id info) projects = None).
Proof.
  intros K I. apply loadProjectInfos_In, unsortedInfos_kinds in I.
  destruct I as [(key & members & _ & ->)|(key & project & I & _ & ->)].
  - cbn [groupInfo]. destruct (JsMap.get key projects) as [project|] eqn:G.
    + unfold ProjectInfo.worktree, ProjectInfo.id. cbn.
      unfold JsMap.get in G. apply find_entry_In in G.
      rewrite <- (K _ _ G). apply In_find_entry in G. destruct G as (w & G).
      unfold JsMap.get. rewrite G, negb_true_iff.
      split; [auto|]. intros [H|H]; [exact H|discriminate].
    + unfold ProjectInfo.id. cbn. rewrite G. tauto.
  - unfold ProjectInfo.worktree, ProjectInfo.id. cbn.
    rewrite <- (K _ _ I). apply In_find_entry in I. destruct I as (w & G).
    unfold JsMap.get. rewrite G, negb_true_iff.
    split; [auto|]. intros [H|H]; [exact H|discriminate].
Qed.

(** C4: in a loaded snapshot a session is flagged orphan exactly when its
    directory does not exist on the disk, and a project exactly when its
    work tree does not exist or it has no project record (the placeholder
    made for sessions whose [projectID] names no record). *)
Theorem orphan_flags (fs : FS) (clock : nat -> Z) :
  (forall s, In s (ld_sessions (loadAllData fs clock)) ->
     (SessionInfo.isOrphan s = true <->
      directoryExists fs (SessionInfo.directory s) = false)) /\
  (forall info, In info (ld_projects (loadAllData fs clock)) ->
     (ProjectInfo.isOrphan info = true <->
      directoryExists fs (ProjectInfo.worktree info) = false \/
      JsMap.get (ProjectInfo.id info) (loadProjects fs) = None)).
Proof.
  unfold loadAllData. cbn [ld_sessions ld_projects]. split.
  - intros s I. apply loadSessions_loaded in I.
    destruct I as (projectID & file & _ & _ & _ & _ & O & _).
    rewrite O. apply negb_true_iff.
  - intros info. apply projectInfo_orphan, loadProjects_keyed.
Qed.

End Orphans.

(** On the store [fs1]: [s1] works in a directory that exists, [s2] in one
    that is gone; [p9] has no record, [p2] has a work tree that is gone,
    [p1] has both. *)
Lemma orphan_flags_witness :
  Forall (fun s => SessionInfo.isOrphan s = true <->
                   directoryExists Demo.fs1 (SessionInfo.directory s) = false)
         (ld_sessions (loadAllData Demo.fs1 Demo.tick)) /\
  Forall (fun info => ProjectInfo.isOrphan info = true <->
                      directoryExists Demo.fs1 (ProjectInfo.worktree info) = false \/
                      JsMap.get (ProjectInfo.id info) (loadProjects Demo.fs1) = None)
         (ld_projects (loadAllData Demo.fs1 Demo.tick)) /\
  map (fun info => (ProjectInfo.id info, ProjectInfo.isOrphan info))
      (ld_projects (loadAllData Demo.fs1 Demo.tick))
  = [("p9", true); ("p1", false); ("p2", true)]%string.
Proof.
  destruct (orphan_flags Demo.fs1 Demo.tick) as [S P].
  split; [apply Forall_forall; exact S|].
  split; [apply Forall_forall; exact P|].
  vm_compute. reflexivity.
Defined.

(* ------------------------------------------------------------------ *)
(* ------------------------------------------------------------------ *)
(** ** The totals of the projects                                       *)
(* ------------------------------------------------------------------ *)

Section Totals.
Context {rt : Runtime}.

Lemma groupInfo_id fs projects group :
  keyed projects ->
  ProjectInfo.id (groupInfo fs projects group) = fst group.
Proof.
  intros K. destruct group as [k l]. cbn [groupInfo fst].
  destruct (JsMap.get k projects) as [p|] eqn:G; [|reflexivity].
  unfold ProjectInfo.id. cbn. unfold JsMap.get in G.
  apply find_entry_In in G. symmetry. now apply K.
Qed.

Lemma info_totals fs sessions projects info :
  In info (loadProjectInfos fs sessions projects) ->
  ProjectInfo.totalSizeBytes info =
    sumZ (map SessionInfo.sizeBytes (ProjectInfo.sessions info)) /\
  ProjectInfo.sessionCount info = Z.of_nat (length (ProjectInfo.sessions info)).
Proof.
  intros I. apply loadProjectInfos_In, unsortedInfos_kinds in I.
  destruct I as [(key & members & _ & ->)|(key & project & _ & _ & ->)].
  - cbn [groupInfo]. destruct (JsMap.get key projects);
      cbn; now rewrite totalSize_sum.
  - cbn. auto.
Qed.

(** The sessions of an entry are the input sessions of its id, in the
    order of the input. *)
Lemma info_members fs sessions projects info :
  keyed projects ->
  In info (loadProjectInfos fs sessions projects) ->
  ProjectInfo.sessions info = filter (ofProject (ProjectInfo.id info)) sessions.
Proof.
  intros K I. apply loadProjectInfos_In, unsortedInfos_kinds in I.
  destruct (groupByProject_grouped sessions) as [_ M A].
  destruct I as [(key & members & Ig & ->)|(key & project & Ip & H & ->)].
  - rewrite groupInfo_sessions, groupInfo_id by exact K. cbn [fst snd].
    now apply M.
  - unfold ProjectInfo.id. cbn. rewrite <- (K _ _ Ip).
    destruct (filter (ofProject key) sessions) as [|x r] eqn:E; [reflexivity|].
    assert (Ix : In x (filter (ofProject key) sessions)) by (rewrite E; now left).
    apply filter_In in Ix. destruct Ix as [Ix Ex]. apply String.eqb_eq in Ex.
    apply A in Ix. rewrite Ex in Ix.
    unfold JsMap.has, JsMap.get in H.
    destruct (find_entry key (groupByProject sessions)) eqn:F; [discriminate|].
    apply find_entry_None in F. contradiction.
Qed.

(** The totals of the entries, for a project map keyed by the ids of its
    records. *)
Lemma totals_of_keyed_map (fs : FS) (sessions : list SessionInfo.t)
  (projects : JsMap.t Project.t) :
  keyed projects ->
  (forall info,
      In info (loadProjectInfos fs sessions projects) ->
      let members := filter (ofProject (ProjectInfo.id info)) sessions in
      ProjectInfo.sessions info = members /\
      ProjectInfo.totalSizeBytes info = sumZ (map SessionInfo.sizeBytes members) /\
      ProjectInfo.sessionCount info = Z.of_nat (length members)) /\
  (forall s,
      In s sessions ->
      exists info,
        In info (loadProjectInfos fs sessions projects) /\
        ProjectInfo.id info = SessionInfo.projectID s /\
        In s (ProjectInfo.sessions info)) /\
  (forall key project,
      In (key, project) projects ->
      (forall s, In s sessions -> SessionInfo.projectID s <> key) ->
      exists info,
        In info (loadProjectInfos fs sessions projects) /\
        ProjectInfo.project info = project /\
        ProjectInfo.sessions info = [] /\
        ProjectInfo.sessionCount info = 0 /\
        ProjectInfo.totalSizeBytes info = 0).
Proof.
  intros K. split; [|split].
  - intros info I members.
    pose proof (info_members fs sessions projects info K I) as E.
    destruct (info_totals fs sessions projects info I) as [T C].
    fold members in E. rewrite E in T, C. auto.
  - intros s Is.
    destruct (groupByProject_grouped sessions) as [_ M A].
    specialize (A s Is). apply in_map_iff in A.
    destruct A as ([key members] & Ek & Ig). cbn [fst] in Ek. subst key.
    exists (groupInfo fs projects (SessionInfo.projectID s, members)).
    split; [|split].
    + apply loadProjectInfos_In. unfold unsortedInfos. apply in_or_app. left.
      now apply in_map.
    + now rewrite groupInfo_id.
    + rewrite groupInfo_sessions. cbn [snd].
      destruct (M _ _ Ig) as [-> _]. apply filter_In. split; [exact Is|].
      unfold ofProject. apply String.eqb_refl.
  - intros key project I None.
    exists (emptyInfo fs project). split; [|cbn; auto].
    apply loadProjectInfos_In. unfold unsortedInfos. apply in_or_app. right.
    apply in_map_iff. exists (key, project). split; [reflexivity|].
    apply filter_In. split; [exact I|]. cbn [fst]. apply negb_true_iff.
    unfold JsMap.has, JsMap.get.
    destruct (find_entry key (groupByProject sessions)) as [l|] eqn:F;
      [|reflexivity].
    apply find_entry_In in F.
    destruct (groupByProject_grouped sessions) as [_ M _].
    destruct (M _ _ F) as [E Ne]. destruct l as [|x l]; [congruence|].
    assert (Ix : In x (filter (ofProject key) sessions)) by (rewrite <- E; now left).
    apply filter_In in Ix. destruct Ix as [Ix Ex]. apply String.eqb_eq in Ex.
    exfalso. exact (None x Ix Ex).
Qed.

(** C8: with the project map that [loadProjects] builds, as in a
    snapshot, the sessions of every entry of the result of
    [loadProjectInfos] are the input sessions that carry its id,
    [totalSizeBytes] is the sum of their [sizeBytes] and [sessionCount]
    their number; every input session is among the sessions of the entry
    of its [projectID]; and a project record no session points to is in
    the result with no sessions, [sessionCount] 0 and [totalSizeBytes]
    0. *)
Theorem project_totals (fs loaded : FS) (sessions : list SessionInfo.t) :
  let projects := loadProjects loaded in
  (forall info,
      In info (loadProjectInfos fs sessions projects) ->
      let members := filter (ofProject (ProjectInfo.id info)) sessions in
      ProjectInfo.sessions info = members /\
      ProjectInfo.totalSizeBytes info = sumZ (map SessionInfo.sizeBytes members) /\
      ProjectInfo.sessionCount info = Z.of_nat (length members)) /\
  (forall s,
      In s sessions ->
      exists info,
        In info (loadProjectInfos fs sessions projects) /\
        ProjectInfo.id info = SessionInfo.projectID s /\
        In s (ProjectInfo.sessions info)) /\
  (forall key project,
      In (key, project) projects ->
      (forall s, In s sessions -> SessionInfo.projectID s <> key) ->
      exists info,
        In info (loadProjectInfos fs sessions projects) /\
        ProjectInfo.project info = project /\
        ProjectInfo.sessions info = [] /\
        ProjectInfo.sessionCount info = 0 /\
        ProjectInfo.totalSizeBytes info = 0).
Proof.
  intros projects.
  exact (totals_of_keyed_map fs sessions projects (loadProjects_keyed loaded)).
Qed.

End Totals.
(** ** Loading twice                                                    *)
(* ------------------------------------------------------------------ *)

Section SortedByKey.
Context {A : Type} (key : A -> Z).

Lemma insert_descending x l :
  descending key l ->
  descending key (insert_sorted (fun a b => key b - key a) x l).
Proof.
  unfold descending.
  induction l as [|y r IH]; intros H; cbn [insert_sorted].
  - repeat constructor.
  - inversion H as [|? ? Hr Hy]; subst.
    destruct (key y - key x <=? 0) eqn:E.
    + apply Z.leb_le in E. constructor; [exact H|].
      constructor; [lia|]. eapply Forall_impl; [|exact Hy].
      cbn. intros. lia.
    + apply Z.leb_gt in E. constructor; [now apply IH|].
      apply Forall_forall. intros z Iz.
      apply (Permutation_in _ (insert_sorted_perm _ x r)) in Iz.
      destruct Iz as [<-|Iz]; [lia|].
      rewrite Forall_forall in Hy. now apply Hy.
Qed.

Lemma sort_descending l :
  descending key (sort (fun a b => key b - key a) l).
Proof.
  induction l as [|x l IH]; cbn [sort fold_right]; [constructor|].
  now apply insert_descending.
Qed.

(** The sort is stable: elements of one key stay in the order they had. *)
Lemma insert_stable x l k :
  filter (fun y => key y =? k) (insert_sorted (fun a b => key b - key a) x l)
  = filter (fun y => key y =? k) (x :: l).
Proof.
  induction l as [|y r IH]; cbn [insert_sorted]; [reflexivity|].
  destruct (key y - key x <=? 0) eqn:E; [reflexivity|].
  apply Z.leb_gt in E. cbn [filter] in *. rewrite IH.
  destruct (key x =? k) eqn:Ex; [|reflexivity].
  apply Z.eqb_eq in Ex.
  assert (Ey : (key y =? k) = false) by (apply Z.eqb_neq; lia).
  now rewrite Ey.
Qed.

Lemma sort_stable l k :
  filter (fun y => key y =? k) (sort (fun a b => key b - key a) l)
  = filter (fun y => key y =? k) l.
Proof.
  induction l as [|x l IH]; cbn [sort fold_right]; [reflexivity|].
  fold (sort (fun a b => key b - key a) l).
  rewrite insert_stable. cbn [filter]. now rewrite IH.
Qed.

End SortedByKey.

(** A sort sees its comparator on the elements of the list only. *)
Lemma insert_sorted_ext {A} (f g : A -> A -> Z) x l :
  (forall y, In y l -> f x y = g x y) ->
  insert_sorted f x l = insert_sorted g x l.
Proof.
  induction l as [|y r IH]; intros E; cbn [insert_sorted]; [reflexivity|].
  rewrite (E y) by now left. destruct (g x y <=? 0); [reflexivity|].
  f_equal. apply IH. intros z I. apply E. now right.
Qed.

Lemma sort_ext_in {A} (f g : A -> A -> Z) l :
  (forall x y, In x l -> In y l -> f x y = g x y) ->
  sort f l = sort g l.
Proof.
  induction l as [|x l IH]; intros E; cbn [sort fold_right]; [reflexivity|].
  fold (sort f l). fold (sort g l).
  rewrite IH by (intros; apply E; now right).
  apply insert_sorted_ext. intros y I. apply E; [now left|].
  right. now apply (sort_In g).
Qed.

Section Repeat.
Context {rt : Runtime}.

Lemma logFilesLoop_dated fs clock1 clock2 files :
  forallb (matches logNamePattern) (filter isLog files) = true ->
  forall tick1 tick2 logs,
    logFilesLoop fs clock1 tick1 files logs
    = logFilesLoop fs clock2 tick2 files logs.
Proof.
  induction files as [|file rest IH]; intros H tick1 tick2 logs;
    cbn [logFilesLoop]; [reflexivity|].
  cbn [filter] in H. destruct (isLog file); cbn [negb]; [|now apply IH].
  cbn [forallb] in H. apply andb_true_iff in H. destruct H as [Hm Hr].
  destruct (lookup (join LOG_DIR file) (root fs)); [|reflexivity].
  unfold logDate. rewrite Hm. now apply IH.
Qed.

Lemma logFilesLoop_same_clock fs clock1 clock2 files :
  (forall k, clock1 k = clock2 k) ->
  forall tick logs,
    logFilesLoop fs clock1 tick files logs
    = logFilesLoop fs clock2 tick files logs.
Proof.
  intros E. induction files as [|file rest IH]; intros tick logs;
    cbn [logFilesLoop]; [reflexivity|].
  destruct (isLog file); cbn [negb]; [|apply IH].
  destruct (lookup (join LOG_DIR file) (root fs)); [|reflexivity].
  rewrite E. apply IH.
Qed.

Lemma logFilesLoop_entries fs clock1 clock2 files :
  forall tick1 tick2 logs1 logs2,
    map logEntry logs1 = map logEntry logs2 ->
    map logEntry (logFilesLoop fs clock1 tick1 files logs1)
    = map logEntry (logFilesLoop fs clock2 tick2 files logs2).
Proof.
  induction files as [|file rest IH]; intros tick1 tick2 logs1 logs2 E;
    cbn [logFilesLoop]; [exact E|].
  destruct (isLog file); cbn [negb]; [|now apply IH].
  destruct (lookup (join LOG_DIR file) (root fs)); [|exact E].
  apply IH. rewrite !map_app, E. reflexivity.
Qed.

(** C9, as amended: two loads of the same disk give the same sessions
    and the same projects, in the same order: sorted by [time.updated]
    descending, and stable otherwise (entries updated at the same time
    stand as the scan of the store, or the grouping, found them); they
    list the same log files with the same sizes; and they give the same
    logs in the same order when every log file name carries its date, or
    when the clock reads the same in both loads.  Otherwise the date of a
    log without a dated name, and with it the order of the logs, may
    differ. *)
Theorem loadAllData_repeatable (fs : FS) (clock1 clock2 : nat -> Z) :
  let first := loadAllData fs clock1 in
  let second := loadAllData fs clock2 in
  ld_sessions first = ld_sessions second /\
  ld_projects first = ld_projects second /\
  descending (fun s => updated (SessionInfo.time s)) (ld_sessions first) /\
  (forall k,
      filter (fun s => updated (SessionInfo.time s) =? k) (ld_sessions first)
      = filter (fun s => updated (SessionInfo.time s) =? k)
               (scannedSessions fs (loadProjects fs))) /\
  descending (fun p => updated (ProjectInfo.time p)) (ld_projects first) /\
  (forall k,
      filter (fun p => updated (ProjectInfo.time p) =? k) (ld_projects first)
      = filter (fun p => updated (ProjectInfo.time p) =? k)
               (unsortedInfos fs (ld_sessions first) (loadProjects fs))) /\
  Permutation (map logEntry (ld_logs first)) (map logEntry (ld_logs second)) /\
  (forallb (matches logNamePattern) (logNames fs) = true -> first = second) /\
  ((forall k, clock1 k = clock2 k) -> first = second).
Proof.
  unfold loadAllData. cbn [ld_sessions ld_projects ld_logs].
  split; [reflexivity|]. split; [reflexivity|].
  split; [apply (sort_descending (fun s => updated (SessionInfo.time s)))|].
  split.
  { intros k. unfold loadSessions. fold (scannedSessions fs (loadProjects fs)).
    apply (sort_stable (fun s => updated (SessionInfo.time s))). }
  split; [apply (sort_descending (fun p => updated (ProjectInfo.time p)))|].
  split.
  { intros k. rewrite loadProjectInfos_sorted.
    apply (sort_stable (fun p => updated (ProjectInfo.time p))). }
  unfold loadLogs, logNames. split.
  { rewrite (Permutation_map logEntry (sort_perm byDateDesc _)).
    rewrite (Permutation_map logEntry (sort_perm byDateDesc _)).
    destruct (readdir fs LOG_DIR) as [files|e]; [|reflexivity].
    now rewrite (logFilesLoop_entries fs clock1 clock2 files 0%nat 0%nat [] []). }
  split; intros H; f_equal; f_equal;
    destruct (readdir fs LOG_DIR) as [files|e]; try reflexivity.
  - now apply logFilesLoop_dated.
  - now apply logFilesLoop_same_clock.
Qed.

End Repeat.

(** The logs [a.log] and [b.log] of the store [fs1] have no dated name.
    When the clock moves on between them [b.log] comes first, when it
    does not [a.log] does: two loads of one disk, two snapshots. *)
Lemma loadAllData_log_order_differs :
  map LogFile.filename (ld_logs (loadAllData Demo.fs1 Demo.tick))
    = ["b.log"; "a.log"; "2026-01-17T071231.log"]%string /\
  map LogFile.filename (ld_logs (loadAllData Demo.fs1 Demo.still))
    = ["a.log"; "b.log"; "2026-01-17T071231.log"]%string /\
  loadAllData Demo.fs1 Demo.tick <> loadAllData Demo.fs1 Demo.still.
Proof.
  split; [vm_compute; reflexivity|]. split; [vm_compute; reflexivity|].
  intros E. apply (f_equal (fun d => map LogFile.filename (ld_logs d))) in E.
  vm_compute in E. discriminate.
Qed.

Lemma loadAllData_repeatable_witness :
  loadAllData Demo.fs4 Demo.tick = loadAllData Demo.fs4 Demo.still /\
  map LogFile.filename (ld_logs (loadAllData Demo.fs4 Demo.tick))
    = ["2026-02-01T010203.log"; "2026-01-17T071231.log"]%string.
Proof.
  split.
  - destruct (loadAllData_repeatable Demo.fs4 Demo.tick Demo.still)
      as (_ & _ & _ & _ & _ & _ & _ & Dated & _).
    apply Dated. vm_compute. reflexivity.
  - vm_compute. reflexivity.
Defined.

(* ------------------------------------------------------------------ *)
(* ------------------------------------------------------------------ *)
(** ** The theorems on the small store                                  *)
(* ------------------------------------------------------------------ *)

(** On [fs1] the session [s1] is in the entry of the project [p1] and in
    no other. *)
Lemma session_in_exactly_one_project_witness :
  exists before info after,
    loadProjectInfos Demo.fs1 (loadSessions Demo.fs1 (loadProjects Demo.fs1))
      (loadProjects Demo.fs1) = before ++ info :: after /\
    In Demo.session_s1 (ProjectInfo.sessions info) /\
    (forall other, In other (before ++ after) ->
                   ~ In Demo.session_s1 (ProjectInfo.sessions other)) /\
    ProjectInfo.id info = "p1"%string.
Proof.
  destruct (session_in_exactly_one_project Demo.fs1
              (loadSessions Demo.fs1 (loadProjects Demo.fs1))
              (loadProjects Demo.fs1) Demo.session_s1)
    as (before & info & after & E & I & O & P).
  - vm_compute. right. right. left. reflexivity.
  - exists before, info, after. repeat (split; [assumption|]).
    destruct info as [project ? ? ? ?]. vm_compute in P. rewrite P. reflexivity.
Defined.

(** On [fs1] every entry holds the loaded sessions of its id and has
    their totals, the session [s1] is in the entry of [p1], and the
    record [p2], which no session points to, is there with none. *)
Lemma project_totals_witness :
  let sessions := loadSessions Demo.fs1 (loadProjects Demo.fs1) in
  let infos := loadProjectInfos Demo.fs1 sessions (loadProjects Demo.fs1) in
  Forall (fun info =>
            ProjectInfo.sessions info
              = filter (ofProject (ProjectInfo.id info)) sessions /\
            ProjectInfo.totalSizeBytes info =
              sumZ (map SessionInfo.sizeBytes
                        (filter (ofProject (ProjectInfo.id info)) sessions)) /\
            ProjectInfo.sessionCount info =
              Z.of_nat (length (filter (ofProject (ProjectInfo.id info)) sessions)))
         infos /\
  (exists info,
      In info infos /\ ProjectInfo.id info = "p1"%string /\
      In Demo.session_s1 (ProjectInfo.sessions info)) /\
  exists info,
    In info infos /\
    ProjectInfo.project info = Demo.record_p2 /\
    ProjectInfo.sessions info = [] /\
    ProjectInfo.sessionCount info = 0 /\
    ProjectInfo.totalSizeBytes info = 0.
Proof.
  intros sessions infos.
  destruct (project_totals Demo.fs1 Demo.fs1 sessions) as (T & A & E).
  split; [apply Forall_forall; exact T|]. split.
  - apply (A Demo.session_s1). vm_compute. right. right. left. reflexivity.
  - apply (E "p2"%string Demo.record_p2).
    + vm_compute. right. left. reflexivity.
    + intros s I. vm_compute in I.
      destruct I as [<-|[<-|[<-|[]]]]; vm_compute; discriminate.
Defined.

(* ================================================================== *)
(** * Further properties of the engine                                  *)
(* ================================================================== *)

(* ------------------------------------------------------------------ *)
(** ** What a removal leaves alone                                      *)
(* ------------------------------------------------------------------ *)

(** Goals [diverge p q = true] on paths of the store. *)
Ltac apart :=
  unfold FRECENCY_FILE, LOG_DIR, SNAPSHOT_DIR, TODO_DIR, SESSION_DIFF_DIR,
    PROJECT_DIR, PART_DIR, MESSAGE_DIR, SESSION_DIR, STORAGE_DIR,
    OPENCODE_SHARE_DIR, OPENCODE_STATE_DIR, join;
  rewrite <- ?app_assoc; rewrite diverge_app; cbn [app];
  cbn [diverge String.eqb Ascii.eqb Bool.eqb];
  repeat match goal with
  | H : String.eqb ?a ?b = false |- context [String.eqb ?a ?b] => rewrite H
  | |- context [String.eqb ?a ?a] => rewrite String.eqb_refl
  end; cbn [diverge]; try reflexivity.

Section Siblings.
Context {rt : Runtime}.

(** X1: Deleting a session whose id, project id and message ids each
    name one entry leaves the data of every other such session id where
    it is: its record (in any project directory), its message directory,
    its diff and todo file; so do the project records and the frequency
    log. *)
Theorem deleteSession_spares_siblings (session : SessionInfo.t) (fs : FS)
  (other : string) :
  Path.plain (SessionInfo.id session) = true ->
  Path.plain (SessionInfo.projectID session) = true ->
  forallb Path.plain (typedIds (readMessageIDs fs (SessionInfo.id session)))
    = true ->
  Path.plain other = true ->
  other <> SessionInfo.id session ->
  let fs' := fst (deleteSession session fs) in
  (forall projectID,
      Path.plain projectID = true ->
      lookup (sessionFile projectID other) (root fs')
      = lookup (sessionFile projectID other) (root fs)) /\
  lookup (messageDir other) (root fs') = lookup (messageDir other) (root fs) /\
  lookup (diffFile other) (root fs') = lookup (diffFile other) (root fs) /\
  lookup (todoFile other) (root fs') = lookup (todoFile other) (root fs) /\
  getSessionMessageCount fs' other = getSessionMessageCount fs other /\
  (forall projectID,
      Path.plain projectID = true ->
      lookup (projectFile projectID) (root fs')
      = lookup (projectFile projectID) (root fs)) /\
  lookup FRECENCY_FILE (root fs') = lookup FRECENCY_FILE (root fs).
Proof.
  intros Pid Ppid Pm Po N fs'.
  assert (E1 : String.eqb (SessionInfo.id session) other = false)
    by (apply String.eqb_neq; congruence).
  assert (E2 : String.eqb (dotJson (SessionInfo.id session)) (dotJson other) = false)
    by (apply dotJson_differs; congruence).
  assert (G : forall q,
    (forall m, diverge (join PART_DIR m) q = true) ->
    diverge (join MESSAGE_DIR (SessionInfo.id session)) q = true ->
    diverge (join SESSION_DIFF_DIR (dotJson (SessionInfo.id session))) q = true ->
    diverge (join TODO_DIR (dotJson (SessionInfo.id session))) q = true ->
    diverge (join (join SESSION_DIR (SessionInfo.projectID session))
               (dotJson (SessionInfo.id session))) q = true ->
    lookup q (root fs') = lookup q (root fs)).
  { intros q P M D T S. apply deleteSession_frame. unfold steps, partSteps.
    apply Forall_app. split.
    - apply Forall_forall. intros st I. apply in_map_iff in I.
      destruct I as (m & <- & Im). cbn [fst].
      rewrite forallb_forall in Pm. rewrite (partDir_plain _ (Pm _ Im)).
      apply P.
    - rewrite (messageDir_plain _ Pid), (diffFile_plain _ Pid),
        (todoFile_plain _ Pid), (sessionFile_plain _ _ Ppid Pid).
      repeat constructor; assumption. }
  assert (Msg : lookup (messageDir other) (root fs')
                = lookup (messageDir other) (root fs)).
  { rewrite (messageDir_plain _ Po). apply G; [intros m| | | |]; apart. }
  split; [|split; [exact Msg|split; [|split; [|split; [|split]]]]].
  - intros projectID Pp. rewrite (sessionFile_plain _ _ Pp Po).
    apply G; [intros m| | | |]; try apart.
    destruct (String.eqb (SessionInfo.projectID session) projectID);
      reflexivity.
  - rewrite (diffFile_plain _ Po). apply G; [intros m| | | |]; apart.
  - rewrite (todoFile_plain _ Po). apply G; [intros m| | | |]; apart.
  - unfold getSessionMessageCount, readdir. now rewrite Msg.
  - intros projectID Pp. rewrite (projectFile_plain _ Pp).
    apply G; [intros m| | | |]; apart.
  - apply G; [intros m| | | |]; apart.
Qed.

End Siblings.

Lemma deleteSession_spares_siblings_witness :
  lookup (sessionFile "p1" "s2") (root (fst (deleteSession Demo.session_s1 Demo.fs1)))
  = lookup (sessionFile "p1" "s2") (root Demo.fs1).
Proof.
  refine (proj1 (deleteSession_spares_siblings Demo.session_s1 Demo.fs1 "s2"
                   _ _ _ _ _) "p1"%string _);
    try (vm_compute; reflexivity).
  vm_compute. discriminate.
Defined.

(** ** Deleting logs                                                    *)
(* ------------------------------------------------------------------ *)

Lemma deleteLog_run (log : LogFile.t) (fs : FS) :
  LogFile.path log <> [] ->
  if refused fs (LogFile.path log) false
  then exists e,
      deleteLog log fs = (fs, Ok (mkDLR false (LogFile.filename log) 0 (Some e)))
  else exists fs',
      deleteLog log fs =
        (fs', Ok (mkDLR true (LogFile.filename log) (LogFile.sizeBytes log) None)) /\
      exists_at fs' (LogFile.path log) = false /\
      shrinks fs fs' /\
      (forall q, diverge (LogFile.path log) q = true ->
                 lookup q (root fs') = lookup q (root fs)).
Proof.
  intros Hp. pose proof (rm_run (LogFile.path log) false fs) as R.
  unfold deleteLog, try_catch. rewrite bind_run.
  destruct (refused fs (LogFile.path log) false).
  - destruct R as (e & ->). exists e. reflexivity.
  - destruct R as (fs' & -> & E & S & F). exists fs'. cbn [ret]. auto.
Qed.

(** X2: [deleteLog] either removes the file and reports it, or reports the
    refusal and leaves the disk as it is: a log whose removal the system
    refuses, or whose path is a directory, gives success=false, no bytes
    freed and the message of the error. *)
Theorem deleteLog_outcome (log : LogFile.t) (fs : FS) :
  LogFile.path log <> [] ->
  if refused fs (LogFile.path log) false
  then exists e,
      deleteLog log fs = (fs, Ok (mkDLR false (LogFile.filename log) 0 (Some e)))
  else exists fs',
      deleteLog log fs =
        (fs', Ok (mkDLR true (LogFile.filename log) (LogFile.sizeBytes log) None)) /\
      exists_at fs' (LogFile.path log) = false /\
      shrinks fs fs' /\
      (forall q, diverge (LogFile.path log) q = true ->
                 lookup q (root fs') = lookup q (root fs)).
Proof.
  intros Hp. pose proof (deleteLog_run log fs Hp) as R.
  destruct (refused fs (LogFile.path log) false).
  - destruct R as (e & R). exists e. exact R.
  - destruct R as (fs' & R & E & S & F). exists fs'. auto.
Qed.

Lemma deleteLog_outcome_witness :
  (exists e,
      deleteLog (LogFile.mk LOG_DIR "log" (Some 0) 4096) Demo.fs1
      = (Demo.fs1, Ok (mkDLR false "log" 0 (Some e)))) /\
  (exists fs',
      deleteLog (LogFile.mk (join LOG_DIR "a.log") "a.log" (Some 0) 2) Demo.fs1
      = (fs', Ok (mkDLR true "a.log" 2 None)) /\
      exists_at fs' (join LOG_DIR "a.log") = false).
Proof.
  split.
  - pose proof (deleteLog_outcome (LogFile.mk LOG_DIR "log" (Some 0) 4096) Demo.fs1) as O.
    change (refused Demo.fs1 (LogFile.path (LogFile.mk LOG_DIR "log" (Some 0) 4096)) false)
      with true in O.
    apply O. vm_compute. discriminate.
  - pose proof (deleteLog_outcome (LogFile.mk (join LOG_DIR "a.log") "a.log" (Some 0) 2)
                  Demo.fs1) as O.
    change (refused Demo.fs1
              (LogFile.path (LogFile.mk (join LOG_DIR "a.log") "a.log" (Some 0) 2)) false)
      with false in O.
    destruct O as (fs' & R & E & _).
    + vm_compute. discriminate.
    + exists fs'. split; [exact R|exact E].
Defined.

Lemma deleteLogsLoop_run logs : forall fs0 fs acc,
  shrinks fs0 fs ->
  Forall (fun log => LogFile.path log <> []) logs ->
  exists fs' results,
    deleteLogsLoop logs acc fs = (fs', Ok (acc ++ results)) /\
    Forall2 (logReport fs0) logs results /\
    shrinks fs fs' /\
    Forall (fun log => refused fs0 (LogFile.path log) false = false ->
                       exists_at fs' (LogFile.path log) = false) logs.
Proof.
  induction logs as [|log rest IH]; intros fs0 fs acc S0 Hne.
  - exists fs, []. rewrite app_nil_r. cbn. auto using shrinks_refl.
  - inversion Hne as [|? ? Hp Hr]; subst.
    pose proof (deleteLog_run log fs Hp) as O.
    cbn [deleteLogsLoop]. rewrite bind_run.
    destruct (refused fs (LogFile.path log) false) eqn:Rf.
    + destruct O as (e & ->).
      destruct (IH fs0 fs (acc ++ [mkDLR false (LogFile.filename log) 0 (Some e)])
                  S0 Hr) as (fs' & results & R & F2 & S & A).
      exists fs', (mkDLR false (LogFile.filename log) 0 (Some e) :: results).
      rewrite R, <- app_assoc. split; [reflexivity|]. split; [|split; [exact S|]].
      * constructor; [|exact F2]. unfold logReport. cbn.
        split; [reflexivity|]. split; [|split; [reflexivity|discriminate]].
        intros U. rewrite (unrefused_later _ _ _ _ S0 U) in Rf. discriminate.
      * constructor; [|exact A]. intros U.
        rewrite (unrefused_later _ _ _ _ S0 U) in Rf. discriminate.
    + destruct O as (fs1 & -> & E1 & S1 & _).
      destruct (IH fs0 fs1
                  (acc ++ [mkDLR true (LogFile.filename log) (LogFile.sizeBytes log) None])
                  (shrinks_trans _ _ _ S0 S1) Hr) as (fs' & results & R & F2 & S & A).
      exists fs', (mkDLR true (LogFile.filename log) (LogFile.sizeBytes log) None
                   :: results).
      rewrite R, <- app_assoc. split; [reflexivity|].
      split; [|split; [exact (shrinks_trans _ _ _ S1 S)|]].
      * constructor; [|exact F2]. unfold logReport. cbn.
        split; [reflexivity|]. split; [auto|discriminate].
      * constructor; [|exact A]. intros _. exact (absent_later _ _ _ S E1).
Qed.

(** X3: [deleteLogs] gives one result per log, in order, whatever fails: a
    log whose removal is not refused is removed and reported with its
    recorded size, a failed one reports no bytes and an error, and the
    logs after it are still dealt with. *)
Theorem deleteLogs_batch (logs : list LogFile.t) (fs : FS) :
  Forall (fun log => LogFile.path log <> []) logs ->
  exists fs' results,
    deleteLogs logs fs = (fs', Ok results) /\
    Forall2 (logReport fs) logs results /\
    Forall (fun log => refused fs (LogFile.path log) false = false ->
                       exists_at fs' (LogFile.path log) = false) logs.
Proof.
  intros Hne.
  destruct (deleteLogsLoop_run logs fs fs [] (shrinks_refl fs) Hne)
    as (fs' & results & R & F & _ & A).
  exists fs', results. auto.
Qed.

Lemma deleteLogs_batch_witness :
  exists fs' results,
    deleteLogs (loadLogs Demo.fs1 Demo.tick) Demo.fs1 = (fs', Ok results) /\
    map log_success results = [true; true; true] /\
    logNames fs' = [].
Proof.
  destruct (deleteLogs_batch (loadLogs Demo.fs1 Demo.tick) Demo.fs1)
    as (fs' & results & R & _ & _).
  - vm_compute. repeat constructor; discriminate.
  - exists fs', results. split; [exact R|].
    vm_compute in R. injection R as <- <-. split; vm_compute; reflexivity.
Defined.

(* ------------------------------------------------------------------ *)
(* ------------------------------------------------------------------ *)
(** ** The message records of a session                                 *)
(* ------------------------------------------------------------------ *)

Section MessageRecords.
Context {rt : Runtime}.

Lemma shrinks_fades a b : shrinks a b -> fades a b.
Proof.
  intros [_ L] q x Q. destruct (L q x Q) as (y & Ly & R).
  exists y. split; [exact Ly|]. destruct x, y; cbn in R; auto.
Qed.

Lemma fades_refl a : fades a a.
Proof. apply shrinks_fades, shrinks_refl. Qed.

Lemma fades_trans a b c : fades a b -> fades b c -> fades a c.
Proof.
  intros F1 F2 q x Q. destruct (F2 q x Q) as (y & Ly & R).
  destruct (F1 q y Ly) as (z & Lz & R'). exists z. split; [exact Lz|].
  destruct x, y, z; try tauto. destruct R, R'; subst; auto.
Qed.

(** A file read after the disk faded, the log apart, was there before,
    with the same content. *)
Lemma fades_readFile a b p content :
  fades a b -> p <> FRECENCY_FILE ->
  readFile b p = Ok content -> readFile a p = Ok content.
Proof.
  intros F N. unfold readFile.
  destruct (lookup p (root b)) as [[c|es]|] eqn:E; try discriminate.
  intros [= <-]. destruct (F p _ E) as (y & -> & R).
  destruct y; [|contradiction]. destruct R as [R|R]; [contradiction|now subst].
Qed.

(** The log is no record: its name does not end in [.json]. *)
Lemma record_not_log dir file : isJson file = true -> join dir file <> FRECENCY_FILE.
Proof.
  intros J E. unfold FRECENCY_FILE, join in E. apply app_inj_tail in E.
  destruct E as [_ ->]. vm_compute in J. discriminate.
Qed.

Lemma messagesAll_fades ok a b sessionID :
  fades a b -> messagesAll ok a sessionID -> messagesAll ok b sessionID.
Proof.
  intros S H file message J R. apply (H file message J).
  unfold readJsonFile in *.
  destruct (readFile b _) as [content|e] eqn:E; [|discriminate].
  now rewrite (fades_readFile _ _ _ _ S (record_not_log _ _ J) E).
Qed.

(** Cleaning the log leaves the rest of the disk as it is. *)
Lemma cleanFrecency_fades directory fs :
  fades fs (fst (cleanFrecencyForDirectory directory fs)).
Proof.
  unfold cleanFrecencyForDirectory, try_catch. rewrite bind_run.
  destruct (readFile fs FRECENCY_FILE) as [content|e] eqn:R; [|apply fades_refl].
  match goal with
  | |- context [fold_left ?f ?l ?a] => destruct (fold_left f l a) as [kept n]
  end.
  rewrite bind_run. unfold writeFile.
  match goal with
  | |- context [write ?p ?c ?n] => destruct (write p c n) as [n'|] eqn:W
  end; cbn [fst ret]; [|apply fades_refl].
  assert (L : exists c, lookup FRECENCY_FILE (root fs) = Some (File c)).
  { unfold readFile in R.
    destruct (lookup FRECENCY_FILE (root fs)) as [[c|es]|]; try discriminate.
    eauto. }
  destruct L as [c L]. intros q x Q. cbn [root] in Q.
  exact (write_over_file_kept _ _ _ _ _ _ _ L W Q).
Qed.

Lemma messagesAll_ids ok fs sessionID :
  messagesAll ok fs sessionID -> forallb ok (readMessageIDs fs sessionID) = true.
Proof.
  intros H. rewrite readMessageIDs_records.
  destruct (readdir fs (messageDir sessionID)) as [files|e]; [|reflexivity].
  apply forallb_forall. intros id I. apply in_map_iff in I.
  destruct I as (message & <- & I). unfold recordsIn in I.
  apply in_flat_map in I. destruct I as (file & _ & I).
  destruct (isJson file) eqn:J; [|destruct I].
  destruct (readJsonFile parseMessage fs _) as [m|] eqn:R; [|destruct I].
  destruct I as [<-|[]]. exact (H file m J R).
Qed.

Lemma ids_messagesAll ok fs sessionID :
  forallb ok (readMessageIDs fs sessionID) = true -> messagesAll ok fs sessionID.
Proof.
  intros H file message J R. rewrite forallb_forall in H. apply H.
  rewrite readMessageIDs_records.
  assert (E : exists_at fs (join (messageDir sessionID) file) = true).
  { unfold readJsonFile, readFile in R. unfold exists_at.
    now destruct (lookup (join (messageDir sessionID) file) (root fs)). }
  destruct (lookup_listed _ _ _ E) as (files & -> & I).
  apply in_map. unfold recordsIn. apply in_flat_map.
  exists file. split; [exact I|]. rewrite J, R. now left.
Qed.

Lemma typedIds_found ids m : In m (typedIds ids) -> In (Some m) ids.
Proof.
  induction ids as [|[id|] ids IH]; cbn; [tauto| |tauto].
  intros [->|I]; auto.
Qed.

(** The steps of a session with plain ids stay in the store. *)
Lemma steps_apart_from_log fs session :
  plainSession fs session = true ->
  Forall (fun st => diverge (fst st) FRECENCY_FILE = true) (steps fs session).
Proof.
  unfold plainSession. rewrite !andb_true_iff. intros [[Pid Ppid] Pm].
  unfold steps, partSteps. apply Forall_app. split.
  - apply Forall_forall. intros st I. apply in_map_iff in I.
    destruct I as (m & <- & I). cbn [fst].
    apply typedIds_found in I. rewrite forallb_forall in Pm.
    specialize (Pm _ I). cbn [plainId] in Pm.
    rewrite (partDir_plain _ Pm). apart.
  - rewrite (messageDir_plain _ Pid), (diffFile_plain _ Pid),
      (todoFile_plain _ Pid), (sessionFile_plain _ _ Ppid Pid).
    repeat constructor; cbn [fst]; apart.
Qed.

Lemma plainSession_fades a b session :
  fades a b -> plainSession a session = true -> plainSession b session = true.
Proof.
  intros S. unfold plainSession. rewrite !andb_true_iff.
  intros [P M]. split; [exact P|].
  apply messagesAll_ids. apply (messagesAll_fades _ a b _ S).
  now apply ids_messagesAll.
Qed.

Lemma typedSession_fades a b session :
  fades a b -> typedSession a session = true -> typedSession b session = true.
Proof.
  intros S M. unfold typedSession, allTyped in *.
  apply messagesAll_ids. apply (messagesAll_fades _ a b _ S).
  now apply ids_messagesAll.
Qed.

End MessageRecords.

(* ------------------------------------------------------------------ *)
(** ** Deleting a project                                               *)
(* ------------------------------------------------------------------ *)

Section DeleteProject.
Context {rt : Runtime}.

(** One turn of the first loop: a session that is deleted is counted
    with its size, one whose deletion fails is passed over. *)
Lemma deleteProjectSession_run session fs t :
  exists fs' n,
    deleteProjectSession session (fs, t) =
      ((fs', if typedSession fs session
             then mkTally (tally_sessions t + 1) (tally_files t + n)
                    (tally_bytes t + SessionInfo.sizeBytes session)
                    (tally_frecency t)
             else t), Ok tt) /\
    0 <= n /\
    shrinks fs fs' /\
    (plainSession fs session = true ->
     lookup FRECENCY_FILE (root fs') = lookup FRECENCY_FILE (root fs)).
Proof.
  destruct (deleteSession_run session fs) as (fs' & n & S & R).
  pose proof (deleteSession_frame session fs FRECENCY_FILE) as F.
  unfold typedSession.
  destruct (allTyped (readMessageIDs fs (SessionInfo.id session)));
    destruct R as (R & _ & B & _); rewrite R in F; cbn [fst] in F;
    exists fs', n; (split; [|split; [lia|split; [exact S|]]]);
    try (intros P; apply F; now apply steps_apart_from_log);
    unfold deleteProjectSession; rewrite bind_run; unfold beside;
    cbn [fst snd]; rewrite R; reflexivity.
Qed.

Lemma deleteProjectSessions_run sessions : forall fs0 fs t,
  fades fs0 fs ->
  exists fs' done n,
    for_of sessions deleteProjectSession (fs, t) =
      ((fs', mkTally (tally_sessions t + Z.of_nat (length done))
                     (tally_files t + n)
                     (tally_bytes t + sumZ (map SessionInfo.sizeBytes done))
                     (tally_frecency t)), Ok tt) /\
    0 <= n /\
    shrinks fs fs' /\
    (length done <= length sessions)%nat /\
    (forallb (typedSession fs0) sessions = true -> done = sessions) /\
    (forallb (plainSession fs0) sessions = true ->
     lookup FRECENCY_FILE (root fs') = lookup FRECENCY_FILE (root fs)).
Proof.
  induction sessions as [|session rest IH]; intros fs0 fs t S0.
  - exists fs, [], 0. cbn [for_of length map sumZ ret]. rewrite !Z.add_0_r.
    destruct t. cbn. split; [reflexivity|]. split; [lia|].
    split; [apply shrinks_refl|]. split; [lia|]. split; reflexivity.
  - destruct (deleteProjectSession_run session fs t)
      as (fs1 & n1 & R1 & N1 & S1 & F1).
    set (t1 := if typedSession fs session
               then mkTally (tally_sessions t + 1) (tally_files t + n1)
                      (tally_bytes t + SessionInfo.sizeBytes session)
                      (tally_frecency t)
               else t) in R1.
    destruct (IH fs0 fs1 t1 (fades_trans _ _ _ S0 (shrinks_fades _ _ S1)))
      as (fs' & done & n & R & N & S & L & T & F).
    exists fs',
      (if typedSession fs session then session :: done else done),
      (if typedSession fs session then n1 + n else n).
    cbn [for_of]. rewrite bind_run, R1, R.
    split.
    { unfold t1. destruct (typedSession fs session);
        cbn [tally_sessions tally_files tally_bytes tally_frecency length
             map sumZ]; f_equal; f_equal; f_equal; lia. }
    split; [destruct (typedSession fs session); lia|].
    split; [exact (shrinks_trans _ _ _ S1 S)|].
    split; [destruct (typedSession fs session); cbn [length]; lia|].
    split.
    + cbn [forallb]. rewrite andb_true_iff. intros [Ts Tr].
      rewrite (typedSession_fades _ _ _ S0 Ts). now rewrite (T Tr).
    + cbn [forallb]. rewrite andb_true_iff. intros [Ps Pr].
      rewrite (F Pr). apply F1. exact (plainSession_fades _ _ _ S0 Ps).
Qed.

(** What one call of [deleteProject] does; [done] are the sessions whose
    deletion succeeded, and [fs0] is a disk that [fs] came from. *)
Lemma deleteProject_run (project : ProjectInfo.t) (fs0 fs : FS) :
  fades fs0 fs ->
  exists fs' done files removedEntries,
    deleteProject project fs =
      (fs', Ok (mkDPR true (ProjectInfo.id project)
                  (Z.of_nat (length done))
                  files
                  (sumZ (map SessionInfo.sizeBytes done))
                  removedEntries None)) /\
    0 <= files /\
    fades fs fs' /\
    (length done <= length (ProjectInfo.sessions project))%nat /\
    (forallb (typedSession fs0) (ProjectInfo.sessions project) = true ->
     done = ProjectInfo.sessions project) /\
    (refused fs (projectFile (ProjectInfo.id project)) false = false ->
     exists_at fs' (projectFile (ProjectInfo.id project)) = false) /\
    (refused fs (projectSessionDir (ProjectInfo.id project)) true = false ->
     exists_at fs' (projectSessionDir (ProjectInfo.id project)) = false) /\
    (refused fs (snapshotDir (ProjectInfo.id project)) true = false ->
     exists_at fs' (snapshotDir (ProjectInfo.id project)) = false) /\
    (Path.plain (ProjectInfo.id project) = true ->
     forallb (plainSession fs0) (ProjectInfo.sessions project) = true ->
     match readFile fs FRECENCY_FILE with
     | Ok content =>
         readFile fs' FRECENCY_FILE =
           Ok (rewritten (ProjectInfo.worktree project) content) /\
         removedEntries = removedCount (ProjectInfo.worktree project) content
     | Throw _ => removedEntries = 0
     end).
Proof.
  intros Fd. set (id := ProjectInfo.id project).
  destruct (deleteProjectSessions_run (ProjectInfo.sessions project) fs0 fs
              (mkTally 0 0 0 0) Fd)
    as (fsa & done & n0 & R0 & N0 & S0 & L0 & T0 & F0).
  cbn [tally_sessions tally_files tally_bytes tally_frecency] in R0.
  destruct (safeRm_run (projectFile id) false fsa)
    as (fs1 & R1 & _ & E1 & S1 & F1).
  destruct (safeRm_run (projectSessionDir id) true fs1)
    as (fs2 & R2 & _ & E2 & S2 & F2).
  destruct (safeRm_run (snapshotDir id) true fs2)
    as (fs3 & R3 & _ & E3 & S3 & F3).
  pose proof (cleanFrecency_run (ProjectInfo.worktree project) fs3) as R4.
  pose proof (cleanFrecency_absent (ProjectInfo.worktree project) fs3) as A4.
  destruct (cleanFrecencyForDirectory (ProjectInfo.worktree project) fs3)
    as [fs4 [n4|e4]] eqn:R5.
  2:{ exfalso. destruct (readFile fs3 FRECENCY_FILE).
      - destruct R4 as (? & R4 & _). congruence.
      - congruence. }
  cbn [fst] in A4.
  set (k1 := if refused fsa (projectFile id) false then 0 else 1).
  set (k3 := if refused fs2 (snapshotDir id) true then 0 else 1).
  assert (Run :
    deleteProject project fs =
      (fs4, Ok (mkDPR true id (Z.of_nat (length done)) (n0 + k1 + k3)
                  (sumZ (map SessionInfo.sizeBytes done)) n4 None))).
  { unfold deleteProject, deleteProjectBody. fold id.
    set (t0 := mkTally (0 + Z.of_nat (length done)) (0 + n0)
                 (0 + sumZ (map SessionInfo.sizeBytes done)) 0) in *.
    set (t1 := mkTally (tally_sessions t0) (tally_files t0 + k1)
                 (tally_bytes t0) (tally_frecency t0)).
    set (t3 := mkTally (tally_sessions t1) (tally_files t1 + k3)
                 (tally_bytes t1) (tally_frecency t1)).
    assert (B1 : beside (safeRm (projectFile id) false) (fsa, t0)
                 = ((fs1, t0), Ok (negb (refused fsa (projectFile id) false))))
      by (unfold beside; cbn [fst snd]; now rewrite R1).
    assert (C1 : (if negb (refused fsa (projectFile id) false)
                  then countFile else ret tt) (fs1, t0) = ((fs1, t1), Ok tt)).
    { unfold t1, k1, countFile, update, ret.
      destruct (refused fsa (projectFile id) false); cbn [negb fst snd];
        [|reflexivity].
      destruct t0. cbn. now rewrite Z.add_0_r. }
    assert (B2 : beside (safeRm (projectSessionDir id) true) (fs1, t1)
                 = ((fs2, t1), Ok (negb (refused fs1 (projectSessionDir id) true))))
      by (unfold beside; cbn [fst snd]; now rewrite R2).
    assert (B3 : beside (safeRm (snapshotDir id) true) (fs2, t1)
                 = ((fs3, t1), Ok (negb (refused fs2 (snapshotDir id) true))))
      by (unfold beside; cbn [fst snd]; now rewrite R3).
    assert (C3 : (if negb (refused fs2 (snapshotDir id) true)
                  then countFile else ret tt) (fs3, t1) = ((fs3, t3), Ok tt)).
    { unfold t3, k3, countFile, update, ret.
      destruct (refused fs2 (snapshotDir id) true); cbn [negb fst snd];
        [|reflexivity].
      destruct t1. cbn. now rewrite Z.add_0_r. }
    assert (B4 : beside (cleanFrecencyForDirectory (ProjectInfo.worktree project))
                   (fs3, t3) = ((fs4, t3), Ok n4))
      by (unfold beside; cbn [fst snd]; now rewrite R5).
    rewrite bind_run, R0; cbv beta iota.
    rewrite bind_run, B1; cbv beta iota.
    rewrite bind_run, C1; cbv beta iota.
    rewrite bind_run, B2; cbv beta iota.
    rewrite bind_run, B3; cbv beta iota.
    rewrite bind_run, C3; cbv beta iota.
    rewrite bind_run, B4; cbv beta iota.
    unfold update. cbn. repeat f_equal; lia. }
  assert (K : 0 <= n0 + k1 + k3).
  { unfold k1, k3.
    destruct (refused fsa _ _), (refused fs2 _ _); lia. }
  exists fs4, done, (n0 + k1 + k3), n4.
  split; [exact Run|]. split; [exact K|].
  split.
  { pose proof (cleanFrecency_fades (ProjectInfo.worktree project) fs3) as F4.
    rewrite R5 in F4. cbn [fst] in F4.
    apply (fades_trans _ fs3); [|exact F4]. apply shrinks_fades.
    exact (shrinks_trans _ _ _ S0
             (shrinks_trans _ _ _ S1 (shrinks_trans _ _ _ S2 S3))). }
  split; [exact L0|]. split; [exact T0|].
  split; [|split; [|split]].
  - intros U. apply A4.
    apply (absent_later fs1 fs3); [exact (shrinks_trans _ _ _ S2 S3)|].
    apply E1. exact (unrefused_later _ _ _ _ S0 U).
  - intros U. apply A4. apply (absent_later fs2 fs3); [exact S3|]. apply E2.
    exact (unrefused_later _ _ _ _ (shrinks_trans _ _ _ S0 S1) U).
  - intros U. apply A4. apply E3.
    exact (unrefused_later _ _ _ _
             (shrinks_trans _ _ _ (shrinks_trans _ _ _ S0 S1) S2) U).
  - intros P Ps.
    assert (L : lookup FRECENCY_FILE (root fs3) = lookup FRECENCY_FILE (root fs)).
    { rewrite F3, F2, F1, (F0 Ps); auto using projectFile_apart,
        sessionDir_apart, snapshotDir_apart. }
    assert (RF : readFile fs3 FRECENCY_FILE = readFile fs FRECENCY_FILE).
    { unfold readFile. now rewrite L. }
    rewrite RF in R4.
    destruct (readFile fs FRECENCY_FILE) as [content|e].
    + destruct R4 as (fs4' & R4 & C4 & _). injection R4 as <- <-. auto.
    + now injection R4 as _ <-.
Qed.

End DeleteProject.

Example scene_loaded :
  loadProjectInfos Scene.fs5 (loadSessions Scene.fs5 (loadProjects Scene.fs5))
    (loadProjects Scene.fs5) = [Scene.info_p1].
Proof. vm_compute. reflexivity. Qed.

Section DeleteProjectFacts.
Context {rt : Runtime}.


(** X5: For a project whose id names one entry, and whose sessions have
    ids, project ids and message ids that do, when the system refuses
    none of the three removals: after [deleteProject] the project record,
    the project's session directory and its snapshot directory are gone,
    no session file of the project is left, and the frequency log is the
    old one without the entries under the project's work tree, their
    number being [frecencyEntriesRemoved]. *)
Theorem deleteProject_cascade (project : ProjectInfo.t) (fs : FS)
  (content : string) :
  Path.plain (ProjectInfo.id project) = true ->
  forallb (plainSession fs) (ProjectInfo.sessions project) = true ->
  refused fs (projectFile (ProjectInfo.id project)) false = false ->
  refused fs (projectSessionDir (ProjectInfo.id project)) true = false ->
  refused fs (snapshotDir (ProjectInfo.id project)) true = false ->
  readFile fs FRECENCY_FILE = Ok content ->
  exists fs' r,
    deleteProject project fs = (fs', Ok r) /\
    exists_at fs' (projectFile (ProjectInfo.id project)) = false /\
    exists_at fs' (projectSessionDir (ProjectInfo.id project)) = false /\
    getProjectSessionCount fs' (ProjectInfo.id project) = 0 /\
    exists_at fs' (snapshotDir (ProjectInfo.id project)) = false /\
    readFile fs' FRECENCY_FILE = Ok (rewritten (ProjectInfo.worktree project) content) /\
    frecencyEntriesRemoved r = removedCount (ProjectInfo.worktree project) content.
Proof.
  intros P Ps U1 U2 U3 RD.
  destruct (deleteProject_run project fs fs (fades_refl fs))
    as (fs' & done & files & n & R & _ & _ & _ & _ & A1 & A2 & A3 & L).
  specialize (L P Ps). rewrite RD in L. destruct L as [L N].
  eexists. eexists. split; [exact R|]. cbn [frecencyEntriesRemoved].
  specialize (A2 U2).
  repeat (split; auto).
  unfold getProjectSessionCount, readdir. unfold exists_at in A2.
  now destruct (lookup (projectSessionDir (ProjectInfo.id project)) (root fs')).
Qed.

End DeleteProjectFacts.


Lemma deleteProject_cascade_witness :
  exists fs' r,
    deleteProject Scene.info_p1 Scene.fs5 = (fs', Ok r) /\
    exists_at fs' (projectFile "p1") = false /\
    exists_at fs' (projectSessionDir "p1") = false /\
    getProjectSessionCount fs' "p1" = 0 /\
    exists_at fs' (snapshotDir "p1") = false /\
    readFile fs' FRECENCY_FILE = Ok (Demo.frecency_line_c ++ Str.nl)%string /\
    frecencyEntriesRemoved r = 1.
Proof.
  destruct (deleteProject_cascade Scene.info_p1 Scene.fs5
              (Demo.frecency_line_ab ++ Str.nl ++ Demo.frecency_line_c ++ Str.nl)%string)
    as (fs' & r & R & A & B & C & D & E & F);
    try (vm_compute; reflexivity).
  exists fs', r. split; [exact R|]. split; [exact A|]. split; [exact B|].
  split; [exact C|]. split; [exact D|].
  split; [rewrite E|rewrite F]; vm_compute; reflexivity.
Defined.

(* ------------------------------------------------------------------ *)
(** ** Nothing on the disk is missed by [loadSessions]                  *)
(* ------------------------------------------------------------------ *)

Section Complete.
Context {rt : Runtime}.


(** Where every record has a string for its id the scan of a directory
    goes to its end. *)
Lemma sessionFilesLoop_goesOn fs dir worktree files : forall acc,
  forallb (typedFile fs dir) files = true ->
  snd (sessionFilesLoop fs dir worktree files acc) = true.
Proof.
  induction files as [|file rest IH]; intros acc T; cbn [sessionFilesLoop];
    [reflexivity|].
  cbn [forallb] in T. apply andb_true_iff in T. destruct T as [Tf Tr].
  unfold typedFile in Tf.
  destruct (isJson file); cbn [negb]; [|now apply IH].
  destruct (readJsonFile parseSession fs (join dir file)) as [[session|image]|];
    [now apply IH|discriminate|now apply IH].
Qed.





(** X9: A session with no message directory, no diff and no todo file weighs
    what its record file weighs and counts no messages. *)
Theorem bare_session_size (fs : FS) (projects : JsMap.t Project.t)
  (s : SessionInfo.t) :
  In s (loadSessions fs projects) ->
  exists_at fs (messageDir (SessionInfo.id s)) = false ->
  exists_at fs (diffFile (SessionInfo.id s)) = false ->
  exists_at fs (todoFile (SessionInfo.id s)) = false ->
  SessionInfo.messageCount s = 0 /\
  exists projectID file,
    readJsonFile parseSession fs (join (join SESSION_DIR projectID) file)
      = Some (Session.Typed (SessionInfo.session s)) /\
    SessionInfo.sizeBytes s = getFileSize fs (join (join SESSION_DIR projectID) file).
Proof.
  intros I M D T. destruct (loadSessions_loaded _ _ _ I) as (projectID & file & L).
  destruct L as (_ & R & Sz & C & _).
  unfold exists_at in M, D, T.
  assert (Z0 : getSessionSize fs (SessionInfo.id s) = 0).
  { unfold getSessionSize, getDirSize, readdir, getFileSize.
    destruct (lookup (messageDir (SessionInfo.id s)) (root fs)); [discriminate|].
    destruct (lookup (diffFile (SessionInfo.id s)) (root fs)); [discriminate|].
    destruct (lookup (todoFile (SessionInfo.id s)) (root fs)); [discriminate|].
    reflexivity. }
  split.
  - rewrite C. unfold getSessionMessageCount, readdir.
    now destruct (lookup (messageDir (SessionInfo.id s)) (root fs)).
  - exists projectID, file. split; [exact R|]. rewrite Sz, Z0. lia.
Qed.

Lemma recordsIn_length fs sessionID files :
  (length (recordsIn fs sessionID files) <= length (filter isJson files))%nat.
Proof.
  induction files as [|file files IH]; cbn [recordsIn flat_map filter];
    [reflexivity|].
  fold (recordsIn fs sessionID files).
  destruct (isJson file); [|exact IH].
  destruct (readJsonFile parseMessage fs _); cbn [app length]; lia.
Qed.

(** X10: [messageCount] counts the [.json] files of the message directory,
    so it is never below the number of messages [loadMessages] can read
    from it. *)
Theorem messageCount_bounds_loadMessages (fs : FS)
  (projects : JsMap.t Project.t) (s : SessionInfo.t) :
  In s (loadSessions fs projects) ->
  Z.of_nat (length (loadMessages fs (SessionInfo.id s)))
    <= SessionInfo.messageCount s.
Proof.
  intros I. destruct (loadSessions_loaded _ _ _ I) as (projectID & file & L).
  destruct L as (_ & _ & _ & C & _). rewrite C.
  unfold loadMessages, getSessionMessageCount.
  rewrite (Permutation_length (sort_perm byCreatedAsc _)).
  destruct (readdir fs (messageDir (SessionInfo.id s))) as [files|e];
    [|reflexivity].
  rewrite collect_messages. cbn [app].
  apply Nat2Z.inj_le, recordsIn_length.
Qed.

End Complete.


Lemma bare_session_size_witness :
  SessionInfo.messageCount Demo.session_bare = 0 /\
  exists projectID file,
    readJsonFile parseSession Demo.fs2 (join (join SESSION_DIR projectID) file)
      = Some (Session.Typed (SessionInfo.session Demo.session_bare)) /\
    SessionInfo.sizeBytes Demo.session_bare
      = getFileSize Demo.fs2 (join (join SESSION_DIR projectID) file).
Proof.
  apply (bare_session_size Demo.fs2 (loadProjects Demo.fs2) Demo.session_bare);
    vm_compute; auto.
Defined.

(** In the second store the message directory of [a] holds a record and
    a draft that does not parse: two are counted, one is loaded. *)
Lemma messageCount_bounds_loadMessages_witness :
  Z.of_nat (length (loadMessages Scene.fs5 "a")) <= 2 /\
  length (loadMessages Scene.fs5 "a") = 1%nat.
Proof.
  split.
  - apply (messageCount_bounds_loadMessages Scene.fs5 (loadProjects Scene.fs5)
             Scene.session_a).
    vm_compute. right. left. reflexivity.
  - vm_compute. reflexivity.
Defined.

(* ------------------------------------------------------------------ *)
(** ** The project map and the ids of a snapshot                        *)
(* ------------------------------------------------------------------ *)

Lemma NoDup_snoc {A} (l : list A) (x : A) :
  NoDup l -> ~ In x l -> NoDup (l ++ [x]).
Proof.
  intros N I. apply Permutation_NoDup with (l := x :: l).
  - apply Permutation_cons_append.
  - now constructor.
Qed.

Lemma set_keys_NoDup {V} k (v : V) (m : JsMap.t V) :
  NoDup (map fst m) -> NoDup (map fst (JsMap.set k v m)).
Proof.
  intros N. unfold JsMap.set, JsMap.has, JsMap.get.
  destruct (find_entry k m) eqn:F.
  - now rewrite update_entry_keys.
  - rewrite map_app. apply NoDup_snoc; [exact N|]. now apply find_entry_None.
Qed.

Lemma set_has_same {V} k (v : V) (m : JsMap.t V) :
  JsMap.has k (JsMap.set k v m) = true.
Proof.
  unfold JsMap.set, JsMap.has, JsMap.get.
  destruct (find_entry k m) eqn:F.
  - rewrite find_entry_update, String.eqb_refl, F. reflexivity.
  - rewrite find_entry_app_fresh, F, String.eqb_refl. reflexivity.
Qed.

Lemma set_has_kept {V} k (v : V) (m : JsMap.t V) k' :
  JsMap.has k' m = true -> JsMap.has k' (JsMap.set k v m) = true.
Proof.
  unfold JsMap.set, JsMap.has, JsMap.get. intros H.
  destruct (find_entry k' m) eqn:F'; [|discriminate].
  destruct (find_entry k m) eqn:F.
  - rewrite find_entry_update, F'. now destruct (String.eqb k k').
  - now rewrite find_entry_app_fresh, F'.
Qed.

Section ProjectMap.
Context {rt : Runtime}.

Lemma projectsLoop_index fs files : forall projects,
  NoDup (map fst projects) ->
  (forall k p, In (k, p) projects -> k = Project.id p /\ fromRecord fs p) ->
  let result := fold_left (projectsStep fs) files projects in
  NoDup (map fst result) /\
  (forall k p, In (k, p) result -> k = Project.id p /\ fromRecord fs p) /\
  (forall k, JsMap.has k projects = true -> JsMap.has k result = true) /\
  (forall file p, In file files -> isJson file = true ->
     readJsonFile parseProject fs (join PROJECT_DIR file) = Some p ->
     JsMap.has (Project.id p) result = true).
Proof.
  induction files as [|file rest IH]; intros projects N S; cbn [fold_left].
  - cbn zeta. split; [exact N|]. split; [exact S|]. split; [auto|].
    intros ? ? [].
  - assert (N' : NoDup (map fst (projectsStep fs projects file))).
    { unfold projectsStep. destruct (negb (isJson file)); [exact N|].
      destruct (readJsonFile parseProject fs _); [|exact N].
      now apply set_keys_NoDup. }
    assert (S' : forall k p, In (k, p) (projectsStep fs projects file) ->
                             k = Project.id p /\ fromRecord fs p).
    { unfold projectsStep. destruct (isJson file) eqn:J; cbn [negb]; [|exact S].
      destruct (readJsonFile parseProject fs _) as [project|] eqn:R; [|exact S].
      intros k p I. unfold JsMap.set in I.
      destruct (JsMap.has (Project.id project) projects).
      - apply update_entry_In in I.
        destruct I as [[-> (old & _ & ->)]|[_ I]]; [|now apply S].
        split; [reflexivity|]. exists file. auto.
      - apply in_app_or in I. destruct I as [I|[[= <- <-]|[]]]; [now apply S|].
        split; [reflexivity|]. exists file. auto. }
    assert (H' : forall k, JsMap.has k projects = true ->
                           JsMap.has k (projectsStep fs projects file) = true).
    { intros k H. unfold projectsStep. destruct (negb (isJson file)); [exact H|].
      destruct (readJsonFile parseProject fs _); [|exact H].
      now apply set_has_kept. }
    destruct (IH _ N' S') as (A & B & C & D). cbn zeta.
    split; [exact A|]. split; [exact B|]. split; [auto|].
    intros f p [->|I] J R; [|now apply (D f p)].
    apply C. unfold projectsStep. rewrite J, R. cbn [negb]. apply set_has_same.
Qed.

Lemma loadProjects_distinct (fs : FS) :
  NoDup (map fst (loadProjects fs)).
Proof.
  unfold loadProjects. destruct (readdir fs PROJECT_DIR) as [files|e];
    [|constructor].
  destruct (projectsLoop_index fs files []) as (A & _); [constructor| |exact A].
  intros ? ? [].
Qed.

(** X11: [loadProjects] holds one entry per project id, under that id; each
    is the record of a [.json] file of the project directory, and the id
    of every record that parses is in the map. *)
Theorem loadProjects_index (fs : FS) :
  NoDup (map fst (loadProjects fs)) /\
  (forall key project,
      In (key, project) (loadProjects fs) ->
      key = Project.id project /\ fromRecord fs project) /\
  (forall files file project,
      readdir fs PROJECT_DIR = Ok files -> In file files ->
      isJson file = true ->
      readJsonFile parseProject fs (join PROJECT_DIR file) = Some project ->
      JsMap.has (Project.id project) (loadProjects fs) = true).
Proof.
  unfold loadProjects. destruct (readdir fs PROJECT_DIR) as [files|e].
  - destruct (projectsLoop_index fs files []) as (A & B & _ & D).
    + constructor.
    + intros ? ? [].
    + split; [exact A|]. split; [exact B|].
      intros files' file project [= <-]. apply D.
  - split; [constructor|]. split; [intros ? ? []|discriminate].
Qed.

Lemma NoDup_filter {A} (f : A -> bool) (g : A -> string) l :
  NoDup (map g l) -> NoDup (map g (filter f l)).
Proof.
  induction l as [|x l IH]; cbn; [auto|]. intros N.
  inversion N as [|? ? Hx Hl]; subst. destruct (f x); cbn; [|auto].
  constructor; [|auto]. intros I. apply Hx.
  apply in_map_iff in I. destruct I as (y & E & Iy).
  apply filter_In in Iy. apply in_map_iff. exists y. tauto.
Qed.

Lemma NoDup_append {A} (l l' : list A) :
  NoDup l -> NoDup l' -> (forall x, In x l -> ~ In x l') -> NoDup (l ++ l').
Proof.
  induction l as [|x l IH]; intros N N' D; [exact N'|].
  inversion N as [|? ? Hx Hl]; subst. cbn. constructor.
  - intros I. apply in_app_or in I. destruct I as [I|I]; [auto|].
    apply (D x); [now left|exact I].
  - apply IH; auto. intros y Iy. apply D. now right.
Qed.

Lemma loadProjectInfos_ids fs sessions projects :
  keyed projects -> NoDup (map fst projects) ->
  NoDup (map ProjectInfo.id (loadProjectInfos fs sessions projects)).
Proof.
  intros K N.
  apply Permutation_NoDup
    with (l := map ProjectInfo.id (unsortedInfos fs sessions projects)).
  { apply Permutation_map. rewrite loadProjectInfos_sorted.
    symmetry. apply sort_perm. }
  unfold unsortedInfos. rewrite map_app, !map_map.
  rewrite (map_ext _ fst) by (intros g; now apply groupInfo_id).
  destruct (groupByProject_grouped sessions) as [KG _ _].
  assert (E : map (fun entry => ProjectInfo.id (emptyInfo fs (snd entry)))
                  (withoutSessions sessions projects)
              = map fst (withoutSessions sessions projects)).
  { apply map_ext_in. intros [k p] I. unfold withoutSessions in I.
    apply filter_In in I. destruct I as [I _]. cbn. symmetry. now apply K. }
  rewrite E. apply NoDup_append; [exact KG| |].
  - unfold withoutSessions. now apply NoDup_filter.
  - intros k Ig Iw. apply in_map_iff in Iw. destruct Iw as ([k' p] & <- & Iw).
    unfold withoutSessions in Iw. apply filter_In in Iw.
    destruct Iw as [_ H]. cbn [fst] in *. apply negb_true_iff in H.
    unfold JsMap.has, JsMap.get in H.
    destruct (find_entry k' (groupByProject sessions)) eqn:F; [discriminate|].
    apply find_entry_None in F. contradiction.
Qed.

(** X12: No two entries of the projects of a snapshot have the same id. *)
Theorem snapshot_project_ids_distinct (fs : FS) (clock : nat -> Z) :
  NoDup (map ProjectInfo.id (ld_projects (loadAllData fs clock))).
Proof.
  unfold loadAllData. cbn [ld_projects].
  apply loadProjectInfos_ids; [|apply loadProjects_distinct].
  intros k p I. exact (loadProjects_keyed fs k p I).
Qed.

End ProjectMap.

Lemma loadProjects_index_witness :
  JsMap.has "p2"%string (loadProjects Demo.fs1) = true.
Proof.
  destruct (loadProjects_index Demo.fs1) as (_ & _ & C).
  apply (C ["p1.json"; "p2.json"; "notes.txt"]%string "p2.json"%string
           Demo.record_p2);
    vm_compute; auto.
Defined.

(* ------------------------------------------------------------------ *)
(* ------------------------------------------------------------------ *)
(** ** The sessions of the projects of a snapshot                       *)
(* ------------------------------------------------------------------ *)

Lemma update_entry_absent {V} k (f : V -> V) (m : list (string * V)) :
  ~ In k (map fst m) -> update_entry k f m = m.
Proof.
  unfold update_entry.
  induction m as [|[k0 v0] r IH]; [reflexivity|]. cbn [map fst snd]. intros N.
  destruct (String.eqb k0 k) eqn:E.
  - apply String.eqb_eq in E. exfalso. apply N. now left.
  - rewrite IH; [reflexivity|]. intros I. apply N. now right.
Qed.

Lemma update_entry_members {A} k (ps : list A) (x : A)
  (m : list (string * list A)) :
  NoDup (map fst m) -> In (k, ps) m ->
  Permutation (flat_map snd (update_entry k (fun _ => ps ++ [x]) m))
              (flat_map snd m ++ [x]).
Proof.
  induction m as [|[k0 v0] r IH]; [intros _ []|].
  intros N I. inversion N as [|? ? Hk Hr]; subst.
  change (update_entry k (fun _ => ps ++ [x]) ((k0, v0) :: r))
    with ((if String.eqb k0 k then (k0, ps ++ [x]) else (k0, v0))
          :: update_entry k (fun _ => ps ++ [x]) r).
  cbn [flat_map]. destruct (String.eqb k0 k) eqn:E.
  - apply String.eqb_eq in E. subst k0.
    rewrite (update_entry_absent _ _ _ Hk).
    destruct I as [[= ->]|I].
    + cbn [snd]. rewrite <- !app_assoc. apply Permutation_app_head.
      apply Permutation_app_comm.
    + exfalso. apply Hk. apply (in_map fst) in I. exact I.
  - destruct I as [[= -> ->]|I]; [rewrite String.eqb_refl in E; discriminate|].
    cbn [snd]. rewrite (IH Hr I). now rewrite app_assoc.
Qed.

Lemma addToGroup_members seen m s :
  grouped seen m ->
  Permutation (flat_map snd (addToGroup m s)) (flat_map snd m ++ [s]).
Proof.
  intros [K _ _]. unfold addToGroup, JsMap.set, JsMap.has, JsMap.get.
  destruct (find_entry (SessionInfo.projectID s) m) as [ps|] eqn:F.
  - apply update_entry_members; [exact K|now apply find_entry_In].
  - rewrite flat_map_app. cbn. reflexivity.
Qed.

Lemma fold_addToGroup_members l : forall seen m,
  grouped seen m ->
  Permutation (flat_map snd m) seen ->
  Permutation (flat_map snd (fold_left addToGroup l m)) (seen ++ l).
Proof.
  induction l as [|s l IH]; intros seen m G P; cbn [fold_left].
  - now rewrite app_nil_r.
  - replace (seen ++ s :: l) with ((seen ++ [s]) ++ l)
      by (now rewrite <- app_assoc).
    apply IH; [now apply addToGroup_grouped|].
    rewrite (addToGroup_members _ _ _ G). now apply Permutation_app_tail.
Qed.

Lemma groupByProject_members sessions :
  Permutation (flat_map snd (groupByProject sessions)) sessions.
Proof.
  apply (fold_addToGroup_members sessions [] []); [|reflexivity].
  split; [constructor| |]; intros; contradiction.
Qed.

Lemma sumZ_flat_map {A B} (f : A -> list B) (h : B -> Z) (l : list A) :
  sumZ (map h (flat_map f l)) = sumZ (map (fun a => sumZ (map h (f a))) l).
Proof.
  induction l as [|a l IH]; [reflexivity|].
  cbn [flat_map map sumZ]. now rewrite map_app, sumZ_app, IH.
Qed.

Lemma sumZ_ones {A} (l : list A) : sumZ (map (fun _ => 1) l) = Z.of_nat (length l).
Proof. induction l as [|a l IH]; [reflexivity|]. cbn [map sumZ length]. lia. Qed.

Lemma descending_filter {A} (key : A -> Z) (f : A -> bool) l :
  descending key l -> descending key (filter f l).
Proof.
  unfold descending. induction 1 as [|x l S IH F]; cbn; [constructor|].
  destruct (f x); [|exact IH]. constructor; [exact IH|].
  apply Forall_forall. intros y I. apply filter_In in I.
  rewrite Forall_forall in F. apply F. tauto.
Qed.

Lemma fold_min_le r : forall a,
  fold_left Z.min r a <= a /\ forall y, In y r -> fold_left Z.min r a <= y.
Proof.
  induction r as [|x r IH]; intros a; cbn [fold_left]; [split; [lia|intros ? []]|].
  destruct (IH (Z.min a x)) as [A B]. split; [lia|].
  intros y [<-|I]; [lia|auto].
Qed.

Lemma fold_max_ge r : forall a,
  a <= fold_left Z.max r a /\ forall y, In y r -> y <= fold_left Z.max r a.
Proof.
  induction r as [|x r IH]; intros a; cbn [fold_left]; [split; [lia|intros ? []]|].
  destruct (IH (Z.max a x)) as [A B]. split; [lia|].
  intros y [<-|I]; [lia|auto].
Qed.

Lemma Math_min_least l y : In y l -> Math_min l <= y.
Proof.
  destruct l as [|x r]; [intros []|]. cbn [Math_min].
  destruct (fold_min_le r x) as [A B]. intros [<-|I]; auto.
Qed.

Lemma Math_max_greatest l y : In y l -> y <= Math_max l.
Proof.
  destruct l as [|x r]; [intros []|]. cbn [Math_max].
  destruct (fold_max_ge r x) as [A B]. intros [<-|I]; auto.
Qed.

Section Members.
Context {rt : Runtime}.

Lemma unsortedInfos_sessions fs sessions projects :
  flat_map ProjectInfo.sessions (unsortedInfos fs sessions projects)
  = flat_map snd (groupByProject sessions).
Proof.
  unfold unsortedInfos. rewrite flat_map_app.
  assert (E : flat_map ProjectInfo.sessions
                (map (fun entry => emptyInfo fs (snd entry))
                     (withoutSessions sessions projects)) = []).
  { induction (withoutSessions sessions projects); [reflexivity|]. cbn. auto. }
  rewrite E, app_nil_r.
  induction (groupByProject sessions) as [|g gs IH]; [reflexivity|].
  cbn [map flat_map]. now rewrite groupInfo_sessions, IH.
Qed.

(** X13: [loadProjectInfos] deals the sessions out: the sessions of all
    entries together are the input sessions, each once, so the session
    counts add up to their number and the sizes to the sum of their
    sizes. *)
Theorem loadProjectInfos_deals_out (fs : FS) (sessions : list SessionInfo.t)
  (projects : JsMap.t Project.t) :
  let infos := loadProjectInfos fs sessions projects in
  Permutation (flat_map ProjectInfo.sessions infos) sessions /\
  sumZ (map ProjectInfo.sessionCount infos) = Z.of_nat (length sessions) /\
  sumZ (map ProjectInfo.totalSizeBytes infos)
    = sumZ (map SessionInfo.sizeBytes sessions).
Proof.
  cbn zeta.
  assert (P : Permutation
                (flat_map ProjectInfo.sessions (loadProjectInfos fs sessions projects))
                sessions).
  { rewrite loadProjectInfos_sorted.
    rewrite (Permutation_flat_map _ (sort_perm byProjectUpdatedDesc _)).
    rewrite unsortedInfos_sessions. apply groupByProject_members. }
  split; [exact P|]. split.
  - rewrite <- (Permutation_length P), <- sumZ_ones, sumZ_flat_map.
    f_equal. apply map_ext_in. intros info I.
    rewrite sumZ_ones. now apply (info_totals fs sessions projects).
  - rewrite <- (sumZ_perm _ _ (Permutation_map SessionInfo.sizeBytes P)).
    rewrite sumZ_flat_map. f_equal. apply map_ext_in. intros info I.
    now apply (info_totals fs sessions projects).
Qed.

(** X14: In a snapshot the sessions of a project are the sessions of the
    snapshot with that [projectID], in the order of the snapshot: most
    recently updated first. *)
Theorem snapshot_project_members (fs : FS) (clock : nat -> Z)
  (info : ProjectInfo.t) :
  In info (ld_projects (loadAllData fs clock)) ->
  ProjectInfo.sessions info =
    filter (ofProject (ProjectInfo.id info)) (ld_sessions (loadAllData fs clock)) /\
  descending (fun s => updated (SessionInfo.time s)) (ProjectInfo.sessions info).
Proof.
  unfold loadAllData. cbn [ld_projects ld_sessions]. intros I.
  assert (E := info_members fs _ _ info (loadProjects_keyed fs) I).
  split; [exact E|]. rewrite E. apply descending_filter.
  apply (sort_descending (fun s => updated (SessionInfo.time s))).
Qed.

(** X15: A project of a snapshot that has no record is a placeholder: flagged
    orphan, never empty, named by the [projectID] of its sessions, placed at
    the directory of its first session, created when its earliest session
    was and updated when its latest was. *)
Theorem snapshot_placeholder (fs : FS) (clock : nat -> Z) (info : ProjectInfo.t) :
  In info (ld_projects (loadAllData fs clock)) ->
  JsMap.get (ProjectInfo.id info) (loadProjects fs) = None ->
  ProjectInfo.isOrphan info = true /\
  (exists first rest,
      ProjectInfo.sessions info = first :: rest /\
      ProjectInfo.worktree info = SessionInfo.directory first) /\
  (forall s, In s (ProjectInfo.sessions info) ->
      SessionInfo.projectID s = ProjectInfo.id info /\
      created (ProjectInfo.time info) <= created (SessionInfo.time s) /\
      updated (SessionInfo.time s) <= updated (ProjectInfo.time info)).
Proof.
  unfold loadAllData. cbn [ld_projects]. intros I G.
  pose proof (loadProjects_keyed fs) as K.
  apply loadProjectInfos_In, unsortedInfos_kinds in I.
  destruct (groupByProject_grouped (loadSessions fs (loadProjects fs)))
    as [_ M _].
  destruct I as [(key & members & Ig & ->)|(key & project & Ip & _ & ->)].
  - rewrite groupInfo_id in G by exact K. cbn [fst] in G.
    destruct (M _ _ Ig) as [E Ne]. cbn [groupInfo]. rewrite G.
    unfold ProjectInfo.id, ProjectInfo.worktree, ProjectInfo.time. cbn.
    split; [reflexivity|]. split.
    + destruct members as [|first rest]; [congruence|]. eauto.
    + intros s Is. split; [|split].
      * rewrite E in Is. apply filter_In in Is. destruct Is as [_ Es].
        now apply String.eqb_eq in Es.
      * apply Math_min_least.
        apply (in_map (fun s => created (SessionInfo.time s))) in Is. exact Is.
      * apply Math_max_greatest.
        apply (in_map (fun s => updated (SessionInfo.time s))) in Is. exact Is.
  - exfalso. unfold ProjectInfo.id in G. cbn in G. rewrite <- (K _ _ Ip) in G.
    apply In_find_entry in Ip. destruct Ip as (w & F).
    unfold JsMap.get in G. congruence.
Qed.

End Members.

Lemma snapshot_project_members_witness :
  map SessionInfo.id (ProjectInfo.sessions Scene.info_p1) = ["b"; "a"]%string /\
  descending (fun s => updated (SessionInfo.time s))
             (ProjectInfo.sessions Scene.info_p1).
Proof.
  destruct (snapshot_project_members Scene.fs5 Demo.tick Scene.info_p1) as [E D].
  - vm_compute. left. reflexivity.
  - split; [reflexivity|exact D].
Defined.

(** On the first store the project [p9] has no record. *)
Lemma snapshot_placeholder_witness :
  exists info,
    In info (ld_projects (loadAllData Demo.fs1 Demo.tick)) /\
    ProjectInfo.id info = "p9"%string /\
    ProjectInfo.isOrphan info = true /\
    ProjectInfo.worktree info = "/home/u/gone"%string /\
    ProjectInfo.time info = mkTime 3 15.
Proof.
  set (info := ProjectInfo.mk
                 (Project.mk "p9" "/home/u/gone" None None (mkTime 3 15)) 1 114 true
                 (ProjectInfo.sessions
                    (hd Scene.info_p1 (ld_projects (loadAllData Demo.fs1 Demo.tick))))).
  assert (I : In info (ld_projects (loadAllData Demo.fs1 Demo.tick)))
    by (vm_compute; left; reflexivity).
  destruct (snapshot_placeholder Demo.fs1 Demo.tick info I) as (O & _ & _).
  - vm_compute. reflexivity.
  - exists info. split; [exact I|]. split; [reflexivity|].
    split; [exact O|]. split; reflexivity.
Defined.

(* ------------------------------------------------------------------ *)
(* ------------------------------------------------------------------ *)
(** ** The logs of a snapshot, and deleting all of them                 *)
(* ------------------------------------------------------------------ *)

Section LogsComplete.
Context {rt : Runtime}.

Lemma logFilesLoop_all fs clock files : forall tick logs,
  (forall f, In f files -> exists_at fs (join LOG_DIR f) = true) ->
  map logEntry (logFilesLoop fs clock tick files logs) =
  map logEntry logs ++ map (listedLog fs) (filter isLog files).
Proof.
  induction files as [|file rest IH]; intros tick logs E.
  - cbn. now rewrite app_nil_r.
  - cbn [logFilesLoop filter]. destruct (isLog file) eqn:L; cbn [negb].
    + pose proof (E file (or_introl eq_refl)) as X. unfold exists_at in X.
      destruct (lookup (join LOG_DIR file) (root fs)); [|discriminate].
      rewrite IH by (intros; apply E; now right).
      rewrite map_app, <- app_assoc. reflexivity.
    + apply IH. intros; apply E; now right.
Qed.

Lemma loadLogs_entries fs clock :
  Permutation (map logEntry (loadLogs fs clock)) (map (listedLog fs) (logNames fs)).
Proof.
  unfold loadLogs, logNames.
  etransitivity; [apply Permutation_map, sort_perm|].
  destruct (readdir fs LOG_DIR) as [files|e] eqn:R; [|reflexivity].
  rewrite logFilesLoop_all; [reflexivity|].
  intros f I. exact (readdir_entry _ _ _ _ R I).
Qed.

(** X16: [loadLogs] lists every entry of the log directory whose name ends in
    [.log], each once, with its path, its name and the size of the file;
    when every date is one (no name has the pattern and names no date),
    the most recent comes first; a missing log directory gives the empty
    list. *)
Theorem loadLogs_complete (fs : FS) (clock : nat -> Z) :
  Permutation (map logEntry (loadLogs fs clock))
              (map (listedLog fs) (logNames fs)) /\
  (forallb dated (loadLogs fs clock) = true ->
   descending logTime (loadLogs fs clock)) /\
  (exists_at fs LOG_DIR = false -> loadLogs fs clock = []).
Proof.
  split; [apply loadLogs_entries|]. split.
  - unfold loadLogs. intros D.
    match goal with
    | |- descending _ (sort _ ?l) =>
        rewrite (sort_ext_in byDateDesc (fun a b => logTime b - logTime a) l)
    end; [apply (sort_descending logTime)|].
    intros x y Ix Iy. rewrite forallb_forall in D.
    pose proof (D x (proj2 (sort_In byDateDesc _ x) Ix)) as Dx.
    pose proof (D y (proj2 (sort_In byDateDesc _ y) Iy)) as Dy.
    unfold dated in Dx, Dy. unfold byDateDesc, logTime.
    destruct (LogFile.date x), (LogFile.date y); try discriminate.
    reflexivity.
  - unfold exists_at, loadLogs, readdir.
    destruct (lookup LOG_DIR (root fs)); [discriminate|reflexivity].
Qed.

Lemma logReports_all fs logs : forall results,
  Forall2 (logReport fs) logs results ->
  Forall (fun log => refused fs (LogFile.path log) false = false) logs ->
  Forall (fun r => log_success r = true) results /\
  map log_bytesFreed results = map LogFile.sizeBytes logs.
Proof.
  induction logs as [|log rest IH]; intros results F2 U;
    inversion F2 as [|? r ? rs H1 H2]; subst.
  - split; [constructor|reflexivity].
  - inversion U as [|? ? U1 U2]; subst.
    destruct (IH rs H2 U2) as [A B]. destruct H1 as (_ & H1 & _).
    destruct (H1 U1) as [S1 B1]. split; [now constructor|].
    cbn [map]. now rewrite B1, B.
Qed.

(** X17: Deleting all the logs of a snapshot: when the system refuses none of
    the removals, every result reports success, the bytes reported freed
    are the sizes of the listed files, and no log is listed afterwards. *)
Theorem deleteLogs_all_clears (fs : FS) (clock : nat -> Z) :
  (forall name, In name (logNames fs) ->
                refused fs (join LOG_DIR name) false = false) ->
  exists fs' results,
    deleteLogs (loadLogs fs clock) fs = (fs', Ok results) /\
    Forall (fun r => log_success r = true) results /\
    sumZ (map log_bytesFreed results) =
      sumZ (map (fun name => getFileSize fs (join LOG_DIR name)) (logNames fs)) /\
    logNames fs' = [].
Proof.
  intros U.
  pose proof (loadLogs_entries fs clock) as P.
  assert (Q : forall log, In log (loadLogs fs clock) ->
            exists name, In name (logNames fs) /\ logEntry log = listedLog fs name).
  { intros log I. apply (in_map logEntry) in I.
    apply (Permutation_in _ P) in I. apply in_map_iff in I.
    destruct I as (name & E & I). exists name. auto. }
  assert (Hne : Forall (fun log => LogFile.path log <> []) (loadLogs fs clock)).
  { apply Forall_forall. intros log I. destruct (Q log I) as (name & _ & E).
    injection E as E _ _. rewrite E. apply join_nonempty. }
  assert (Hu : Forall (fun log => refused fs (LogFile.path log) false = false)
                      (loadLogs fs clock)).
  { apply Forall_forall. intros log I. destruct (Q log I) as (name & N & E).
    injection E as E _ _. rewrite E. now apply U. }
  destruct (deleteLogsLoop_run (loadLogs fs clock) fs fs [] (shrinks_refl fs) Hne)
    as (fs' & results & R & F2 & S & A).
  destruct (logReports_all _ _ _ F2 Hu) as [Ok1 B].
  exists fs', results. split; [exact R|]. split; [exact Ok1|]. split.
  - rewrite B.
    replace (map LogFile.sizeBytes (loadLogs fs clock))
      with (map snd (map logEntry (loadLogs fs clock)))
      by (rewrite map_map; reflexivity).
    rewrite (sumZ_perm _ _ (Permutation_map snd P)), map_map. reflexivity.
  - destruct (logNames fs') as [|name rest] eqn:N; [reflexivity|exfalso].
    assert (I : In name (logNames fs')) by (rewrite N; now left).
    unfold logNames in I.
    destruct (readdir fs' LOG_DIR) as [names|e] eqn:RD; [|contradiction].
    apply filter_In in I. destruct I as [I L].
    pose proof (readdir_entry _ _ _ _ RD I) as E.
    assert (E0 : exists_at fs (join LOG_DIR name) = true).
    { unfold exists_at in *.
      destruct (lookup (join LOG_DIR name) (root fs')) as [x|] eqn:X;
        [|discriminate].
      destruct (shrinks_lookup _ _ S _ _ X) as (y & -> & _). reflexivity. }
    destruct (lookup_listed _ _ _ E0) as (names0 & RD0 & I0).
    assert (I1 : In name (logNames fs)).
    { unfold logNames. rewrite RD0. apply filter_In. auto. }
    apply (in_map (listedLog fs)) in I1.
    apply (Permutation_in _ (Permutation_sym P)) in I1.
    apply in_map_iff in I1. destruct I1 as (log & EL & IL).
    rewrite Forall_forall in A, Hu. specialize (A log IL (Hu log IL)).
    injection EL as EL _ _. rewrite EL in A. congruence.
Qed.

End LogsComplete.

(** A name can have the pattern and name no date. *)
Example log_without_date : logDate 0 "2026-13-01T000000.log" = None.
Proof. vm_compute. reflexivity. Qed.

(** On the store [fs1], loaded while the clock moves on. *)
Lemma loadLogs_complete_witness :
  descending logTime (loadLogs Demo.fs1 Demo.tick) /\
  map LogFile.filename (loadLogs Demo.fs1 Demo.tick)
    = ["b.log"; "a.log"; "2026-01-17T071231.log"]%string.
Proof.
  split.
  - apply (loadLogs_complete Demo.fs1 Demo.tick). vm_compute. reflexivity.
  - vm_compute. reflexivity.
Defined.

Lemma deleteLogs_all_clears_witness :
  exists fs' results,
    deleteLogs (loadLogs Demo.fs1 Demo.tick) Demo.fs1 = (fs', Ok results) /\
    Forall (fun r => log_success r = true) results /\
    sumZ (map log_bytesFreed results) =
      sumZ (map (fun name => getFileSize Demo.fs1 (join LOG_DIR name))
                (logNames Demo.fs1)) /\
    logNames fs' = [].
Proof.
  apply (deleteLogs_all_clears Demo.fs1 Demo.tick).
  intros name I. vm_compute in I.
  repeat (destruct I as [<-|I]; [vm_compute; reflexivity|]). contradiction.
Defined.

(* ------------------------------------------------------------------ *)
(* ------------------------------------------------------------------ *)
(** ** Formatting ([utils.ts])                                          *)
(* ------------------------------------------------------------------ *)

Lemma length_repeat_space (k : nat) :
  length (Js.repeat (Js.lit " ") k) = k.
Proof.
  induction k as [|k IH]; cbn [Js.repeat]; [reflexivity|].
  rewrite length_app, IH. reflexivity.
Qed.

Lemma slice_head (s : Js.str) (n : Z) :
  0 <= n -> Js.slice s 0 n = firstn (Z.to_nat n) s.
Proof.
  intros H. unfold Js.slice, Js.length.
  replace (n <? 0) with false by (symmetry; apply Z.ltb_ge; lia).
  cbn [Z.ltb Z.compare]. rewrite (Z.min_l 0) by lia. cbn [Z.to_nat skipn].
  rewrite Z.sub_0_r.
  destruct (Z.min_spec n (Z.of_nat (length s))) as [[L ->]|[L ->]];
    [reflexivity|].
  rewrite Nat2Z.id, firstn_all. symmetry. apply firstn_all2. lia.
Qed.

Lemma length_slice_head (s : Js.str) (n : Z) :
  0 <= n -> Js.length (Js.slice s 0 n) = Z.min n (Js.length s).
Proof.
  intros H. rewrite slice_head by exact H. unfold Js.length.
  rewrite length_firstn. lia.
Qed.

Lemma startsWith_app (a b : Js.str) : Js.startsWith (a ++ b) a = true.
Proof.
  induction a as [|c a IH]; cbn; [now destruct b|].
  now rewrite N.eqb_refl, IH.
Qed.

(** X18: [padRight] and [padLeft] give exactly [length] code units.  A
    string that is too long is cut to its first [length] units by both;
    a shorter one is followed by spaces in [padRight] and preceded by
    them in [padLeft]. *)
Theorem pad_width (str : Js.str) (length : Z) :
  0 <= length ->
  Js.length (padRight str length) = length /\
  Js.length (padLeft str length) = length /\
  (length <= Js.length str ->
   padLeft str length = padRight str length /\
   padRight str length = firstn (Z.to_nat length) str) /\
  (Js.length str < length ->
   padRight str length
   = str ++ Js.repeat (Js.lit " ") (Z.to_nat (length - Js.length str)) /\
   padLeft str length
   = Js.repeat (Js.lit " ") (Z.to_nat (length - Js.length str)) ++ str).
Proof.
  intros H. unfold padRight, padLeft.
  destruct (Js.length str >=? length) eqn:G.
  - apply Z.geb_le in G. rewrite length_slice_head by exact H.
    split; [lia|]. split; [lia|]. split; [|lia].
    intros _. split; [reflexivity|now apply slice_head].
  - rewrite Z.geb_leb in G. apply Z.leb_gt in G.
    unfold Js.length in *.
    rewrite !length_app, length_repeat_space.
    split; [lia|]. split; [lia|]. split; [lia|]. intros _. split; reflexivity.
Qed.

Lemma pad_width_witness :
  Js.length (padRight (Js.lit "session") 4) = 4 /\
  Js.length (padLeft (Js.lit "7") 3) = 3.
Proof.
  split.
  - apply (pad_width (Js.lit "session") 4). lia.
  - apply (pad_width (Js.lit "7") 3). lia.
Defined.

Lemma length_slice_tail (s : Js.str) (k : Z) :
  0 < k <= Js.length s -> Js.length (Js.sliceFrom s (- k)) = k.
Proof.
  intros H. unfold Js.sliceFrom, Js.slice, Js.length in *.
  replace (- k <? 0) with true by (symmetry; apply Z.ltb_lt; lia).
  replace (Z.of_nat (length s) <? 0) with false
    by (symmetry; apply Z.ltb_ge; lia).
  rewrite length_firstn, length_skipn. lia.
Qed.

Lemma slice_from_zero (s : Js.str) : Js.sliceFrom s 0 = s.
Proof.
  unfold Js.sliceFrom, Js.slice, Js.length. cbn [Z.ltb Z.compare].
  replace (Z.of_nat (length s) <? 0) with false
    by (symmetry; apply Z.ltb_ge; lia).
  rewrite (Z.min_l 0), Z.min_id by lia. cbn [Z.to_nat skipn].
  rewrite Z.sub_0_r, Nat2Z.id. apply firstn_all.
Qed.

Lemma halves (n : Z) : Js.ceilHalf n + Js.floorHalf n = n.
Proof.
  unfold Js.ceilHalf, Js.floorHalf.
  pose proof (Z.div_mod n 2 ltac:(lia)). pose proof (Z.mod_pos_bound n 2 ltac:(lia)).
  pose proof (Z.div_mod (- n) 2 ltac:(lia)).
  pose proof (Z.mod_pos_bound (- n) 2 ltac:(lia)). lia.
Qed.

Lemma halves_bounds (n : Z) :
  2 <= n -> 1 <= Js.floorHalf n /\ 1 <= Js.ceilHalf n <= n.
Proof.
  intros H. pose proof (halves n) as E. unfold Js.ceilHalf, Js.floorHalf in *.
  pose proof (Z.div_mod n 2 ltac:(lia)). pose proof (Z.mod_pos_bound n 2 ltac:(lia)).
  pose proof (Z.div_mod (- n) 2 ltac:(lia)).
  pose proof (Z.mod_pos_bound (- n) 2 ltac:(lia)). lia.
Qed.

(** X19: For a width of five or more, what [truncatePath] returns fits the
    width, counted in code units; and when neither the path nor its form
    with [~] for the home directory fits, it has exactly that width. *)
Theorem truncatePath_fits (env_HOME : option Js.str) (path : Js.str)
  (maxLength : Z) :
  5 <= maxLength ->
  Js.length (truncatePath env_HOME path maxLength) <= maxLength /\
  (maxLength < Js.length path ->
   maxLength < Js.length (displayPath env_HOME path) ->
   Js.length (truncatePath env_HOME path maxLength) = maxLength).
Proof.
  intros H. unfold truncatePath.
  destruct (Js.length path <=? maxLength) eqn:A.
  { apply Z.leb_le in A. split; [exact A|lia]. }
  destruct (Js.length (displayPath env_HOME path) <=? maxLength) eqn:B.
  { apply Z.leb_le in B. split; [exact B|lia]. }
  apply Z.leb_gt in A, B.
  set (d := displayPath env_HOME path) in *.
  change (Js.length (Js.lit "...")) with 3.
  destruct (halves_bounds (maxLength - 3) ltac:(lia)) as [F C].
  pose proof (halves (maxLength - 3)) as E.
  assert (L : Js.length (Js.slice d 0 (Js.ceilHalf (maxLength - 3))
                         ++ Js.lit "..."
                         ++ Js.sliceFrom d (- Js.floorHalf (maxLength - 3)))
              = maxLength).
  { unfold Js.length at 1. rewrite !length_app, !Nat2Z.inj_add.
    fold (Js.length (Js.slice d 0 (Js.ceilHalf (maxLength - 3)))).
    fold (Js.length (Js.sliceFrom d (- Js.floorHalf (maxLength - 3)))).
    rewrite length_slice_head, length_slice_tail by lia. cbn [length Js.lit
      list_ascii_of_string map]. lia. }
  split; [lia|auto].
Qed.

Lemma truncatePath_fits_witness :
  Js.length (truncatePath (Some (Js.lit "/home/u"))
               (Js.lit "/home/u/projects/deep/down/app") 12) <= 12.
Proof.
  apply (truncatePath_fits (Some (Js.lit "/home/u"))
           (Js.lit "/home/u/projects/deep/down/app") 12).
  lia.
Defined.

(** X20: For a width of three or four the tail is [slice(-0)], the whole
    path: what [truncatePath] returns for a longer path is longer than
    the path it shortens. *)
Theorem truncatePath_narrow (env_HOME : option Js.str) (path : Js.str)
  (maxLength : Z) :
  3 <= maxLength <= 4 ->
  maxLength < Js.length path ->
  maxLength < Js.length (displayPath env_HOME path) ->
  truncatePath env_HOME path maxLength =
    Js.slice (displayPath env_HOME path) 0 (maxLength - 3) ++ Js.lit "..."
    ++ displayPath env_HOME path.
Proof.
  intros H A B. unfold truncatePath.
  replace (Js.length path <=? maxLength) with false
    by (symmetry; apply Z.leb_gt; lia).
  replace (Js.length (displayPath env_HOME path) <=? maxLength) with false
    by (symmetry; apply Z.leb_gt; lia).
  change (Js.length (Js.lit "...")) with 3.
  assert (C : maxLength = 3 \/ maxLength = 4) by lia.
  destruct C as [-> | ->]; cbn [Z.sub Z.add Z.opp Z.pos_sub Pos.pred_double];
    change (Js.floorHalf 0) with 0; change (Js.floorHalf 1) with 0;
    change (Js.ceilHalf 0) with 0; change (Js.ceilHalf 1) with 1;
    cbn [Z.opp]; now rewrite slice_from_zero.
Qed.

Lemma truncatePath_narrow_witness :
  truncatePath None (Js.lit "/a/bc") 4 = Js.lit "/.../a/bc".
Proof.
  rewrite (truncatePath_narrow None (Js.lit "/a/bc") 4); [reflexivity|lia| |];
    vm_compute; reflexivity.
Defined.

(** X21: A path under a non-empty home directory that is too long as it
    stands, and fits with [~] for the home directory, is shown with
    [~]. *)
Theorem truncatePath_home (home rest : Js.str) (maxLength : Z) :
  home <> [] ->
  maxLength < Js.length (home ++ rest) ->
  1 + Js.length rest <= maxLength ->
  truncatePath (Some home) (home ++ rest) maxLength = Js.lit "~" ++ rest.
Proof.
  intros N A B. unfold truncatePath.
  replace (Js.length (home ++ rest) <=? maxLength) with false
    by (symmetry; apply Z.leb_gt; lia).
  assert (D : displayPath (Some home) (home ++ rest) = Js.lit "~" ++ rest).
  { unfold displayPath. rewrite startsWith_app.
    replace (Js.length home =? 0) with false.
    2:{ symmetry. apply Z.eqb_neq. unfold Js.length. destruct home; [congruence|].
        cbn [length]. lia. }
    cbn [negb andb]. f_equal.
    unfold Js.sliceFrom, Js.slice, Js.length.
    replace (Z.of_nat (length home) <? 0) with false
      by (symmetry; apply Z.ltb_ge; lia).
    replace (Z.of_nat (length (home ++ rest)) <? 0) with false
      by (symmetry; apply Z.ltb_ge; lia).
    rewrite length_app.
    rewrite !Z.min_l by lia. rewrite Nat2Z.id, skipn_app, skipn_all, Nat.sub_diag.
    cbn [app skipn]. apply firstn_all2. lia. }
  rewrite D.
  replace (Js.length (Js.lit "~" ++ rest) <=? maxLength) with true;
    [reflexivity|].
  symmetry. apply Z.leb_le. unfold Js.length in *.
  cbn [Js.lit list_ascii_of_string map app length]. lia.
Qed.

Lemma truncatePath_home_witness :
  truncatePath (Some (Js.lit "/home/u")) (Js.lit "/home/u/app") 6
  = Js.lit "~/app".
Proof.
  apply (truncatePath_home (Js.lit "/home/u") (Js.lit "/app") 6);
    [discriminate|vm_compute..]; [reflexivity|discriminate].
Defined.

Lemma gtb_div (d c : Z) : 0 < c -> (d / c >? 0) = (c <=? d).
Proof.
  intros H. rewrite Z.gtb_ltb.
  destruct (c <=? d) eqn:E.
  - apply Z.leb_le in E. apply Z.ltb_lt. apply Z.div_str_pos. lia.
  - apply Z.leb_gt in E. apply Z.ltb_ge.
    assert (d / c < 1) by (apply Z.div_lt_upper_bound; lia). lia.
Qed.

(** X22: For times a [Date] can hold, from the epoch on, the unit
    [formatRelativeTime] shows is the largest of year (365 days), month
    (30 days), week, day, hour and minute that the elapsed time reaches,
    with the whole number of those units; below a minute, and for a time
    stamp in the future, it is [just now]. *)
Theorem formatRelativeTime_table (now timestamp : Z) :
  isTime now -> isTime timestamp ->
  let diff := now - timestamp in
  let minute := 60000 in
  let hour := 60 * minute in
  let day := 24 * hour in
  (diff < minute -> formatRelativeTime now timestamp = Js.lit "just now") /\
  (minute <= diff < hour ->
   formatRelativeTime now timestamp
   = Js.template (diff / minute) ++ Js.lit "m ago") /\
  (hour <= diff < day ->
   formatRelativeTime now timestamp
   = Js.template (diff / hour) ++ Js.lit "h ago") /\
  (day <= diff < 7 * day ->
   formatRelativeTime now timestamp
   = Js.template (diff / day) ++ Js.lit "d ago") /\
  (7 * day <= diff < 30 * day ->
   formatRelativeTime now timestamp
   = Js.template (diff / (7 * day)) ++ Js.lit "w ago") /\
  (30 * day <= diff < 365 * day ->
   formatRelativeTime now timestamp
   = Js.template (diff / (30 * day)) ++ Js.lit "mo ago") /\
  (365 * day <= diff ->
   formatRelativeTime now timestamp
   = Js.template (diff / (365 * day)) ++ Js.lit "y ago").
Proof.
  intros _ _ diff minute hour day. unfold formatRelativeTime. fold diff.
  rewrite !Z.div_div by lia.
  rewrite !gtb_div by lia.
  change (1000 * 60) with minute. change (minute * 60) with hour.
  change (hour * 24) with day.
  change (day * 365) with (365 * day). change (day * 30) with (30 * day).
  change (day * 7) with (7 * day).
  subst minute hour day.
  repeat split; intros H;
    repeat match goal with
    | |- context [?a <=? ?b] =>
        let E := fresh in
        destruct (a <=? b) eqn:E;
        [apply Z.leb_le in E | apply Z.leb_gt in E]; try lia
    end; reflexivity.
Qed.

Lemma formatRelativeTime_table_witness :
  formatRelativeTime 1793000000000 (1793000000000 - 29 * 86400000)
  = Js.lit "4w ago".
Proof.
  destruct (formatRelativeTime_table 1793000000000 (1793000000000 - 29 * 86400000))
    as (_ & _ & _ & _ & W & _); [unfold isTime; lia..|].
  rewrite W; [vm_compute; reflexivity|lia].
Defined.

(* ------------------------------------------------------------------ *)
(** ** The storage figures of a project                                 *)
(* ------------------------------------------------------------------ *)

Lemma filter_perm {A} (f : A -> bool) (l l' : list A) :
  Permutation l l' -> Permutation (filter f l) (filter f l').
Proof.
  induction 1 as [|x l l' P IH|x y l|l l' l'' P IH P' IH']; cbn [filter].
  - constructor.
  - destruct (f x); [now constructor|exact IH].
  - destruct (f x), (f y); try reflexivity. apply perm_swap.
  - now transitivity (filter f l').
Qed.

Lemma filter_none {A} (f : A -> bool) (l : list A) :
  (forall x, In x l -> f x = false) -> filter f l = [].
Proof.
  induction l as [|x l IH]; intros H; cbn [filter]; [reflexivity|].
  rewrite (H x (or_introl eq_refl)). apply IH. intros y I. apply H. now right.
Qed.

Section StorageFacts.
Context {rt : Runtime}.

Lemma partsStep_fold fs sessionID files : forall info,
  let r := fold_left (partsStep fs sessionID) files info in
  storage_sessionFiles r = storage_sessionFiles info /\
  storage_messageFiles r = storage_messageFiles info /\
  storage_diffSize r = storage_diffSize info /\
  storage_todoSize r = storage_todoSize info /\
  storage_totalMessages r = storage_totalMessages info /\
  storage_partFiles r - storage_partFiles info
    = storage_totalParts r - storage_totalParts info.
Proof.
  induction files as [|file rest IH]; intros info; cbn zeta; cbn [fold_left].
  - repeat split; lia.
  - specialize (IH (partsStep fs sessionID info file)). cbn zeta in IH.
    destruct IH as (A & B & C & D & E & F).
    rewrite A, B, C, D, E. unfold partsStep in *.
    destruct (readJsonFile parseMessage fs _) as [msg|]; [|repeat split; lia].
    destruct (Message.id msg) as [messageID|]; [|repeat split; lia].
    destruct (readdir fs (partDir messageID)); cbn in *;
      repeat split; lia.
Qed.

Lemma messagesStep_adds fs sessionID info :
  let r := messagesStep fs sessionID info in
  storage_sessionFiles r = storage_sessionFiles info /\
  storage_diffSize r = storage_diffSize info /\
  storage_todoSize r = storage_todoSize info /\
  storage_messageFiles r - storage_messageFiles info
    = storage_totalMessages r - storage_totalMessages info /\
  storage_partFiles r - storage_partFiles info
    = storage_totalParts r - storage_totalParts info /\
  storage_totalMessages r =
    storage_totalMessages info + getSessionMessageCount fs sessionID.
Proof.
  cbn zeta. unfold messagesStep, getSessionMessageCount.
  destruct (readdir fs (messageDir sessionID)) as [entries|e];
    [|repeat split; lia].
  pose proof (partsStep_fold fs sessionID (filter isJson entries)
    (mkStorage (storage_sessionFiles info)
       (storage_messageFiles info + Z.of_nat (length (filter isJson entries)))
       (storage_partFiles info) (storage_diffSize info) (storage_todoSize info)
       (storage_totalMessages info + Z.of_nat (length (filter isJson entries)))
       (storage_totalParts info))) as P.
  cbn zeta in P. cbn in P. destruct P as (A & B & C & D & E & F).
  rewrite A, B, C, D, E. repeat split; lia.
Qed.

(** What one session record adds to the counters. *)
Lemma storageStep_adds fs dir info file :
  let r := storageStep fs dir info file in
  storage_sessionFiles r = storage_sessionFiles info /\
  storage_messageFiles r - storage_messageFiles info
    = storage_totalMessages r - storage_totalMessages info /\
  storage_partFiles r - storage_partFiles info
    = storage_totalParts r - storage_totalParts info /\
  match (if isJson file then readJsonFile parseSession fs (join dir file)
         else None) with
  | Some (Session.Typed session) =>
      storage_totalMessages r =
        storage_totalMessages info + getSessionMessageCount fs (Session.id session) /\
      storage_diffSize r =
        storage_diffSize info + getFileSize fs (diffFile (Session.id session)) /\
      storage_todoSize r =
        storage_todoSize info + getFileSize fs (todoFile (Session.id session))
  | Some (Session.NoId image) =>
      storage_totalMessages r = storage_totalMessages info /\
      storage_diffSize r = storage_diffSize info + getFileSize fs (diffFile image) /\
      storage_todoSize r = storage_todoSize info + getFileSize fs (todoFile image)
  | None =>
      storage_totalMessages r = storage_totalMessages info /\
      storage_diffSize r = storage_diffSize info /\
      storage_todoSize r = storage_todoSize info
  end.
Proof.
  cbn zeta. unfold storageStep.
  destruct (isJson file); cbn [negb]; [|repeat split; lia].
  destruct (readJsonFile parseSession fs _) as [[session|image]|];
    [| |repeat split; lia];
    cbn [idImage storage_sessionFiles storage_messageFiles storage_partFiles
         storage_diffSize storage_todoSize storage_totalMessages
         storage_totalParts]; [|repeat split; lia].
  destruct (messagesStep_adds fs (Session.id session) info)
    as (A & B & C & D & E & F).
  cbn zeta in *. rewrite A, B, C, F in *. repeat split; lia.
Qed.

Lemma storage_fold_agree fs dir files : forall info,
  let r := fold_left (storageStep fs dir) files info in
  storage_sessionFiles r = storage_sessionFiles info /\
  storage_messageFiles r - storage_messageFiles info
    = storage_totalMessages r - storage_totalMessages info /\
  storage_partFiles r - storage_partFiles info
    = storage_totalParts r - storage_totalParts info.
Proof.
  induction files as [|file rest IH]; intros info; cbn zeta; cbn [fold_left].
  - repeat split; lia.
  - specialize (IH (storageStep fs dir info file)).
    cbn zeta in IH. destruct IH as (A & B & C).
    destruct (storageStep_adds fs dir info file) as (A' & B' & C' & _).
    repeat split; lia.
Qed.

(** X23: [getProjectStorageInfo] keeps two pairs of counters that never part:
    [messageFiles] is [totalMessages] and [partFiles] is [totalParts]. *)
Theorem storage_counters_agree (fs : FS) (projectID : string) :
  let info := getProjectStorageInfo fs projectID in
  storage_messageFiles info = storage_totalMessages info /\
  storage_partFiles info = storage_totalParts info.
Proof.
  cbn zeta. unfold getProjectStorageInfo.
  destruct (readdir fs (projectSessionDir projectID)) as [entries|e];
    [|split; reflexivity].
  destruct (storage_fold_agree fs (projectSessionDir projectID) entries
              (mkStorage (Z.of_nat (length (filter isJson entries))) 0 0 0 0 0 0))
    as (_ & B & C).
  cbn in B, C. split; lia.
Qed.

(** X24: The loader and the manager count the session files of a project
    alike: [sessionFiles] is what [getProjectSessionCount] returns; and
    for a project with no session directory every figure is zero. *)
Theorem storage_sessionFiles_is_count (fs : FS) (projectID : string) :
  storage_sessionFiles (getProjectStorageInfo fs projectID)
    = getProjectSessionCount fs projectID /\
  (exists_at fs (projectSessionDir projectID) = false ->
   getProjectStorageInfo fs projectID = mkStorage 0 0 0 0 0 0 0).
Proof.
  unfold getProjectStorageInfo, getProjectSessionCount, exists_at, readdir.
  destruct (lookup (projectSessionDir projectID) (root fs)) as [[c|es]|];
    try (split; [reflexivity|intros; reflexivity || discriminate]).
  split; [|discriminate].
  destruct (storage_fold_agree fs (projectSessionDir projectID) (map fst es)
              (mkStorage (Z.of_nat (length (filter isJson (map fst es)))) 0 0 0 0 0 0))
    as (A & _).
  exact A.
Qed.

Lemma sessionFilesLoop_app fs dir worktree files : forall acc,
  sessionFilesLoop fs dir worktree files acc
  = (acc ++ fst (sessionFilesLoop fs dir worktree files []),
     snd (sessionFilesLoop fs dir worktree files [])).
Proof.
  induction files as [|file rest IH]; intros acc; cbn [sessionFilesLoop].
  - cbn. now rewrite app_nil_r.
  - destruct (isJson file); cbn [negb]; [|apply IH].
    destruct (readJsonFile parseSession fs _) as [[session|image]|];
      [| |apply IH].
    + rewrite IH. rewrite (IH ([] ++ _)). cbn [fst snd].
      now rewrite <- app_assoc.
    + cbn. now rewrite app_nil_r.
Qed.

Lemma storage_fold_sessions fs dir worktree files : forall info,
  forallb (typedFile fs dir) files = true ->
  let r := fold_left (storageStep fs dir) files info in
  let here := fst (sessionFilesLoop fs dir worktree files []) in
  storage_totalMessages r =
    storage_totalMessages info + sumZ (map SessionInfo.messageCount here) /\
  storage_diffSize r =
    storage_diffSize info
    + sumZ (map (fun s => getFileSize fs (diffFile (SessionInfo.id s))) here) /\
  storage_todoSize r =
    storage_todoSize info
    + sumZ (map (fun s => getFileSize fs (todoFile (SessionInfo.id s))) here) /\
  (length here <= length (filter isJson files))%nat.
Proof.
  induction files as [|file rest IH]; intros info T; cbn zeta;
    cbn [fold_left sessionFilesLoop filter].
  - cbn. repeat split; lia.
  - cbn [forallb] in T. apply andb_true_iff in T. destruct T as [Tf Tr].
    specialize (IH (storageStep fs dir info file) Tr).
    cbn zeta in IH. destruct IH as (A & B & C & D).
    destruct (storageStep_adds fs dir info file) as (_ & _ & _ & S).
    unfold typedFile in Tf.
    destruct (isJson file); cbn [negb].
    2:{ destruct S as (S1 & S2 & S3). rewrite A, B, C, S1, S2, S3. auto. }
    destruct (readJsonFile parseSession fs _) as [[session|image]|];
      [|discriminate|].
    2:{ destruct S as (S1 & S2 & S3). rewrite A, B, C, S1, S2, S3.
        cbn [length]. repeat split; lia. }
    destruct S as (S1 & S2 & S3). rewrite A, B, C, S1, S2, S3.
    cbn [app]. rewrite (sessionFilesLoop_app fs _ _ rest (_ :: _)).
    cbn [fst app map sumZ length SessionInfo.messageCount].
    unfold SessionInfo.id. cbn [SessionInfo.session].
    repeat split; lia.
Qed.

(** The counters over the entries made of the directory. *)
Lemma storage_sums_here fs projects projectID :
  Path.plain projectID = true ->
  typedDir fs projectID = true ->
  let info := getProjectStorageInfo fs projectID in
  let here := loadedHere fs projects projectID in
  storage_totalMessages info = sumZ (map SessionInfo.messageCount here) /\
  storage_diffSize info =
    sumZ (map (fun s => getFileSize fs (diffFile (SessionInfo.id s))) here) /\
  storage_todoSize info =
    sumZ (map (fun s => getFileSize fs (todoFile (SessionInfo.id s))) here) /\
  Z.of_nat (length here) <= storage_sessionFiles info.
Proof.
  intros P T. cbn zeta. unfold getProjectStorageInfo, loadedHere.
  rewrite (projectSessionDir_plain _ P). unfold typedDir in T.
  destruct (readdir fs (join SESSION_DIR projectID)) as [entries|e];
    [|cbn; repeat split; lia].
  destruct (storage_fold_sessions fs (join SESSION_DIR projectID)
              match JsMap.get projectID projects with
              | Some project => Project.worktree project
              | None => "/"%string
              end entries
              (mkStorage (Z.of_nat (length (filter isJson entries))) 0 0 0 0 0 0) T)
    as (A & B & C & D).
  destruct (storage_fold_agree fs (join SESSION_DIR projectID) entries
              (mkStorage (Z.of_nat (length (filter isJson entries))) 0 0 0 0 0 0))
    as (E & _).
  cbn zeta in *. rewrite A, B, C, E. cbn. repeat split; lia.
Qed.

(** X25: For a project id that names one entry, and a directory of it in
    which every session record has a string for its id, the figures of
    [getProjectStorageInfo] are sums over the entries that [loadSessions]
    makes of the same directory: [totalMessages] of their message counts,
    [diffSize] and [todoSize] of the sizes of their diff and todo files;
    [sessionFiles] is at least their number. *)
Theorem storage_sums_loaded (fs : FS) (projects : JsMap.t Project.t)
  (projectID : string) :
  Path.plain projectID = true ->
  typedDir fs projectID = true ->
  let info := getProjectStorageInfo fs projectID in
  let here := loadedHere fs projects projectID in
  storage_totalMessages info = sumZ (map SessionInfo.messageCount here) /\
  storage_diffSize info =
    sumZ (map (fun s => getFileSize fs (diffFile (SessionInfo.id s))) here) /\
  storage_todoSize info =
    sumZ (map (fun s => getFileSize fs (todoFile (SessionInfo.id s))) here) /\
  Z.of_nat (length here) <= storage_sessionFiles info.
Proof.
  intros P T info here.
  destruct (storage_sums_here fs projects projectID P T) as (A & B & C & D).
  repeat split; assumption.
Qed.

Lemma sessionFilesLoop_from fs dir worktree files :
  Forall (fun s => exists file,
            In file files /\ isJson file = true /\
            readJsonFile parseSession fs (join dir file)
            = Some (Session.Typed (SessionInfo.session s)))
         (fst (sessionFilesLoop fs dir worktree files [])).
Proof.
  induction files as [|file rest IH]; cbn [sessionFilesLoop]; [constructor|].
  assert (IH' : Forall (fun s => exists file0,
                   In file0 (file :: rest) /\ isJson file0 = true /\
                   readJsonFile parseSession fs (join dir file0)
                   = Some (Session.Typed (SessionInfo.session s)))
                 (fst (sessionFilesLoop fs dir worktree rest []))).
  { eapply Forall_impl; [|exact IH]. intros s (f & I & R). exists f.
    split; [now right|exact R]. }
  destruct (isJson file) eqn:J; cbn [negb]; [|exact IH'].
  destruct (readJsonFile parseSession fs (join dir file)) as [[session|image]|] eqn:R;
    [|constructor|exact IH'].
  cbn [app]. rewrite sessionFilesLoop_app. cbn [fst].
  apply Forall_app. split; [|exact IH'].
  constructor; [|constructor]. exists file. split; [now left|]. split; assumption.
Qed.

Lemma filedByProject_dir fs projectID files :
  filedByProject fs = true ->
  readdir fs (join SESSION_DIR projectID) = Ok files ->
  forallb
    (fun file =>
       if isJson file then
         match readJsonFile parseSession fs
                 (join (join SESSION_DIR projectID) file) with
         | Some (Session.Typed session) =>
             String.eqb (Session.projectID session) projectID
         | Some (Session.NoId _) => false
         | None => true
         end
       else true) files = true.
Proof.
  unfold filedByProject. intros W RD.
  assert (E : exists_at fs (join SESSION_DIR projectID) = true).
  { unfold exists_at. unfold readdir in RD.
    now destruct (lookup (join SESSION_DIR projectID) (root fs)). }
  destruct (lookup_listed _ _ _ E) as (dirs & RS & Id). rewrite RS in W.
  rewrite forallb_forall in W. specialize (W projectID Id). now rewrite RD in W.
Qed.

Lemma filedByProject_record fs projectID files file session :
  filedByProject fs = true ->
  readdir fs (join SESSION_DIR projectID) = Ok files -> In file files ->
  isJson file = true ->
  readJsonFile parseSession fs (join (join SESSION_DIR projectID) file)
    = Some (Session.Typed session) ->
  Session.projectID session = projectID.
Proof.
  intros W RD I J R. pose proof (filedByProject_dir _ _ _ W RD) as F.
  rewrite forallb_forall in F. specialize (F file I). rewrite J, R in F.
  now apply String.eqb_eq.
Qed.

Lemma filedByProject_typedDir fs projectID :
  filedByProject fs = true -> typedDir fs projectID = true.
Proof.
  intros W. unfold typedDir.
  destruct (readdir fs (join SESSION_DIR projectID)) as [files|e] eqn:RD;
    [|reflexivity].
  pose proof (filedByProject_dir _ _ _ W RD) as F.
  rewrite forallb_forall in F. apply forallb_forall. intros file I.
  specialize (F file I). unfold typedFile.
  destruct (isJson file); [|reflexivity].
  destruct (readJsonFile parseSession fs _) as [[s|image]|];
    [reflexivity|discriminate|reflexivity].
Qed.

Lemma loadedHere_projectID fs projects projectID s :
  filedByProject fs = true -> In s (loadedHere fs projects projectID) ->
  SessionInfo.projectID s = projectID.
Proof.
  intros W I. unfold loadedHere in I.
  destruct (readdir fs (join SESSION_DIR projectID)) as [files|e] eqn:RD;
    [|contradiction].
  pose proof (sessionFilesLoop_from fs (join SESSION_DIR projectID)
                match JsMap.get projectID projects with
                | Some project => Project.worktree project
                | None => "/"%string
                end files) as F.
  rewrite Forall_forall in F. destruct (F s I) as (file & If & J & R).
  exact (filedByProject_record _ _ _ _ _ W RD If J R).
Qed.

Lemma projectDirsLoop_flat fs projects dirs : forall acc,
  forallb (typedDir fs) dirs = true ->
  Forall (fun name => exists_at fs (join SESSION_DIR name) = true) dirs ->
  projectDirsLoop fs projects dirs acc
  = acc ++ flat_map (loadedHere fs projects) dirs.
Proof.
  induction dirs as [|d rest IH]; intros acc T E; cbn [projectDirsLoop flat_map].
  - now rewrite app_nil_r.
  - inversion E as [|? ? E1 E2]; subst. unfold exists_at in E1.
    cbn [forallb] in T. apply andb_true_iff in T. destruct T as [Td Tr].
    unfold typedDir in Td.
    unfold loadedHere at 1. unfold readdir in *.
    destruct (lookup (join SESSION_DIR d) (root fs)) as [[c|es]|];
      [| |discriminate].
    + cbn [app]. now apply IH.
    + rewrite sessionFilesLoop_app.
      rewrite (sessionFilesLoop_goesOn _ _ _ _ [] Td).
      rewrite (IH _ Tr E2). now rewrite app_assoc.
Qed.

Lemma filter_here_other fs projects key dirs :
  filedByProject fs = true -> ~ In key dirs ->
  filter (ofProject key) (flat_map (loadedHere fs projects) dirs) = [].
Proof.
  intros W N. apply filter_none. intros s I. apply in_flat_map in I.
  destruct I as (d & Id & Is). unfold ofProject.
  rewrite (loadedHere_projectID _ _ _ _ W Is). apply String.eqb_neq.
  intros ->. contradiction.
Qed.

Lemma filter_here fs projects key dirs :
  filedByProject fs = true -> NoDup dirs -> In key dirs ->
  filter (ofProject key) (flat_map (loadedHere fs projects) dirs)
  = loadedHere fs projects key.
Proof.
  intros W. induction dirs as [|d rest IH]; intros N I; [contradiction|].
  inversion N as [|? ? N1 N2]; subst. cbn [flat_map]. rewrite filter_app.
  destruct (string_dec d key) as [->|D].
  - rewrite (filter_here_other _ _ _ _ W N1), app_nil_r.
    apply filter_all. apply forallb_forall. intros s Is. unfold ofProject.
    rewrite (loadedHere_projectID _ _ _ _ W Is). apply String.eqb_refl.
  - destruct I as [I|I]; [contradiction|]. rewrite (IH N2 I).
    rewrite filter_none; [reflexivity|]. intros s Is. unfold ofProject.
    rewrite (loadedHere_projectID _ _ _ _ W Is). now apply String.eqb_neq.
Qed.

Lemma loadedHere_unlisted fs projects key :
  (forall dirs, readdir fs SESSION_DIR = Ok dirs -> ~ In key dirs) ->
  loadedHere fs projects key = [].
Proof.
  intros N. unfold loadedHere.
  destruct (readdir fs (join SESSION_DIR key)) as [files|e] eqn:R; [|reflexivity].
  exfalso.
  assert (E : exists_at fs (join SESSION_DIR key) = true).
  { unfold exists_at. unfold readdir in R.
    now destruct (lookup (join SESSION_DIR key) (root fs)). }
  destruct (lookup_listed _ _ _ E) as (dirs & RD & I). exact (N dirs RD I).
Qed.

Lemma project_sessions_here fs clock info :
  filedByProject fs = true ->
  (forall dirs, readdir fs SESSION_DIR = Ok dirs -> NoDup dirs) ->
  In info (ld_projects (loadAllData fs clock)) ->
  Permutation (ProjectInfo.sessions info)
              (loadedHere fs (loadProjects fs) (ProjectInfo.id info)).
Proof.
  intros W N I. cbn [loadAllData ld_projects] in I.
  rewrite (info_members _ _ _ _ (loadProjects_keyed fs) I).
  unfold loadSessions.
  etransitivity; [apply filter_perm, sort_perm|].
  destruct (readdir fs SESSION_DIR) as [dirs|e] eqn:RD.
  - rewrite projectDirsLoop_flat.
    2:{ apply forallb_forall. intros d _. now apply filedByProject_typedDir. }
    2:{ apply Forall_forall; intros d Id; exact (readdir_entry _ _ _ _ RD Id). }
    cbn [app].
    destruct (in_dec string_dec (ProjectInfo.id info) dirs) as [Y|Y].
    + rewrite (filter_here _ _ _ _ W (N dirs eq_refl) Y). reflexivity.
    + rewrite (filter_here_other _ _ _ _ W Y).
      rewrite loadedHere_unlisted; [reflexivity|].
      intros dirs' E. rewrite RD in E. injection E as E. now subst dirs'.
  - cbn [filter]. rewrite loadedHere_unlisted; [reflexivity|].
    intros dirs' E. rewrite RD in E. discriminate.
Qed.

(** X26: In a store where every session record has a string for its id
    and lies in the directory of its project, the sessions a snapshot
    gives a project are the entries made of its directory; so, for a
    project id that names one entry, the [totalMessages] of its storage
    figures is the sum of the message counts of its sessions, and
    [sessionFiles] is at least its [sessionCount]. *)
Theorem storage_totals_of_project (fs : FS) (clock : nat -> Z)
  (info : ProjectInfo.t) :
  filedByProject fs = true ->
  (forall dirs, readdir fs SESSION_DIR = Ok dirs -> NoDup dirs) ->
  Path.plain (ProjectInfo.id info) = true ->
  In info (ld_projects (loadAllData fs clock)) ->
  let figures := getProjectStorageInfo fs (ProjectInfo.id info) in
  Permutation (ProjectInfo.sessions info)
              (loadedHere fs (loadProjects fs) (ProjectInfo.id info)) /\
  storage_totalMessages figures
    = sumZ (map SessionInfo.messageCount (ProjectInfo.sessions info)) /\
  ProjectInfo.sessionCount info <= storage_sessionFiles figures.
Proof.
  intros W N Pl I. cbn zeta.
  pose proof (project_sessions_here fs clock info W N I) as P.
  split; [exact P|].
  cbn [loadAllData ld_projects] in I.
  destruct (info_totals _ _ _ _ I) as [_ C].
  destruct (storage_sums_here fs (loadProjects fs) (ProjectInfo.id info) Pl
              (filedByProject_typedDir _ _ W)) as (A & _ & _ & D).
  rewrite A, C.
  rewrite (sumZ_perm _ _ (Permutation_map SessionInfo.messageCount P)).
  rewrite (Permutation_length P). split; [reflexivity|exact D].
Qed.

End StorageFacts.

Lemma storage_sums_loaded_witness :
  storage_totalMessages (getProjectStorageInfo Scene.fs5 "p1") = 2 /\
  storage_diffSize (getProjectStorageInfo Scene.fs5 "p1") = 0.
Proof.
  destruct (storage_sums_loaded Scene.fs5 (loadProjects Scene.fs5) "p1")
    as (A & B & _); try (vm_compute; reflexivity).
  rewrite A, B. vm_compute. split; reflexivity.
Defined.

Lemma storage_totals_of_project_witness :
  storage_totalMessages
    (getProjectStorageInfo Scene.fs5 (ProjectInfo.id Scene.info_p1))
  = sumZ (map SessionInfo.messageCount (ProjectInfo.sessions Scene.info_p1)).
Proof.
  apply (storage_totals_of_project Scene.fs5 Demo.tick Scene.info_p1).
  - vm_compute. reflexivity.
  - intros dirs E. vm_compute in E. injection E as <-.
    repeat constructor; cbn; intuition discriminate.
  - vm_compute. reflexivity.
  - vm_compute. left. reflexivity.
Defined.

Lemma storage_sessionFiles_is_count_witness :
  getProjectStorageInfo (mkFS (Dir []) []) "p1" = mkStorage 0 0 0 0 0 0 0.
Proof.
  apply (storage_sessionFiles_is_count (mkFS (Dir []) []) "p1").
  vm_compute. reflexivity.
Defined.

(** ** What the views report of a deletion                              *)
(* ------------------------------------------------------------------ *)

Lemma pick_cons {A} (items : list A) index indices :
  pick items (index :: indices) =
  match at_index items index with
  | Some item => item :: pick items indices
  | None => pick items indices
  end.
Proof. unfold pick. cbn [flat_map]. now destruct (at_index items index). Qed.

Lemma rm_message p recursive fs fs' e :
  rm p recursive fs = (fs', Throw e) -> truthy e = true.
Proof.
  unfold rm. destruct (lookup p (root fs)) as [n|]; [|discriminate].
  destruct (is_denied fs p); [intros [= _ <-]; reflexivity|].
  destruct p as [|name rest]; [intros [= _ <-]; reflexivity|].
  destruct n as [c|es]; [discriminate|].
  destruct recursive; [discriminate|]. intros [= _ <-]. reflexivity.
Qed.

Section LogView.
Context {rt : Runtime}.

Lemma logs_total_sum logs indices : forall sum,
  fold_left
    (fun sum index =>
       match at_index logs index with
       | Some log => sum + LogFile.sizeBytes log
       | None => sum
       end) indices sum
  = sum + sumZ (map LogFile.sizeBytes (pick logs indices)).
Proof.
  induction indices as [|index rest IH]; intros sum; cbn [fold_left].
  - cbn. lia.
  - rewrite IH, pick_cons. destruct (at_index logs index); cbn [map sumZ]; lia.
Qed.

Lemma deleteLog_kinds log fs :
  exists fs' r,
    deleteLog log fs = (fs', Ok r) /\
    (log_success r = true \/
     (log_success r = false /\
      exists e, log_error r = Some e /\ truthy e = true)).
Proof.
  unfold deleteLog, try_catch. rewrite bind_run.
  destruct (rm (LogFile.path log) false fs) as [fs' [[]|e]] eqn:R.
  - eexists. eexists. split; [reflexivity|]. left. reflexivity.
  - eexists. eexists. split; [reflexivity|]. right. split; [reflexivity|].
    exists e. split; [reflexivity|]. exact (rm_message _ _ _ _ _ R).
Qed.

Lemma deleteLogsLoop_kinds logs : forall acc fs,
  exists fs' results,
    deleteLogsLoop logs acc fs = (fs', Ok (acc ++ results)) /\
    length results = length logs /\
    Forall (fun r => log_success r = true \/
                     (log_success r = false /\
                      exists e, log_error r = Some e /\ truthy e = true))
           results.
Proof.
  induction logs as [|log rest IH]; intros acc fs.
  - exists fs, []. rewrite app_nil_r. cbn. auto.
  - destruct (deleteLog_kinds log fs) as (fs1 & r & R & K).
    destruct (IH (acc ++ [r]) fs1) as (fs' & results & Rl & L & F).
    exists fs', (r :: results). cbn [deleteLogsLoop]. rewrite bind_run, R, Rl.
    rewrite <- app_assoc. cbn [app length]. auto.
Qed.

Lemma tally_fold_accounts results : forall acc,
  Forall (fun r => log_success r = true \/
                   (log_success r = false /\
                    exists e, log_error r = Some e /\ truthy e = true))
         results ->
  let r := fold_left LogListView.tally results acc in
  deletedCount r + Z.of_nat (length (errors r))
    = deletedCount acc + Z.of_nat (length (errors acc))
      + Z.of_nat (length results) /\
  deletedCount acc <= deletedCount r.
Proof.
  induction results as [|x rest IH]; intros acc F; cbn zeta; cbn [fold_left].
  - cbn. lia.
  - inversion F as [|? ? K F']; subst. specialize (IH (LogListView.tally acc x) F').
    cbn zeta in IH. destruct IH as [A B].
    assert (T : deletedCount (LogListView.tally acc x)
                + Z.of_nat (length (errors (LogListView.tally acc x)))
                = deletedCount acc + Z.of_nat (length (errors acc)) + 1 /\
                deletedCount acc <= deletedCount (LogListView.tally acc x)).
    { unfold LogListView.tally.
      destruct K as [S|(S & e & E & T)]; rewrite S.
      - cbn [deletedCount errors]. lia.
      - rewrite E, T. cbn [deletedCount errors]. rewrite length_app.
        cbn [length]. lia. }
    cbn [length]. lia.
Qed.

(** X27: The log view accounts for every selected log: each is either counted
    in [deletedCount] or named in [errors]; an index outside the list is
    passed over. *)
Theorem LogListView_accounts (logs : list LogFile.t) (indices : list Z)
  (fs : FS) :
  exists fs' r,
    LogListView.executeDelete logs indices fs = (fs', Ok r) /\
    deletedCount r + Z.of_nat (length (errors r))
      = Z.of_nat (length (pick logs indices)) /\
    0 <= deletedCount r.
Proof.
  unfold LogListView.executeDelete, deleteLogs. rewrite bind_run.
  destruct (deleteLogsLoop_kinds (pick logs indices) [] fs)
    as (fs' & results & R & L & F).
  rewrite R. cbn [app ret]. eexists. eexists. split; [reflexivity|].
  destruct (tally_fold_accounts results (mkDeleteResult 0 0 []) F) as [A B].
  cbn in A, B. rewrite L in A. split; [exact A|exact B].
Qed.

Lemma tally_fold_success results : forall acc,
  Forall (fun r => log_success r = true) results ->
  fold_left LogListView.tally results acc =
  mkDeleteResult (deletedCount acc + Z.of_nat (length results))
    (freedBytes acc + sumZ (map log_bytesFreed results)) (errors acc).
Proof.
  induction results as [|x rest IH]; intros acc F; cbn [fold_left].
  - cbn. rewrite !Z.add_0_r. now destruct acc.
  - inversion F as [|? ? S F']; subst. rewrite (IH _ F').
    unfold LogListView.tally. rewrite S. cbn [deletedCount freedBytes errors].
    cbn [length map sumZ]. f_equal; lia.
Qed.

(** X28: When the system refuses none of the removals, the log view reports
    every selected log deleted, no error, and as freed bytes the size
    that [getTotalSize] announced for the same indices; and the selected
    logs are gone. *)
Theorem LogListView_frees_announced (logs : list LogFile.t)
  (indices : list Z) (fs : FS) :
  Forall (fun log => LogFile.path log <> [] /\
                     refused fs (LogFile.path log) false = false)
         (pick logs indices) ->
  exists fs' r,
    LogListView.executeDelete logs indices fs = (fs', Ok r) /\
    deletedCount r = Z.of_nat (length (pick logs indices)) /\
    freedBytes r = LogListView.getTotalSize logs indices /\
    errors r = [] /\
    Forall (fun log => exists_at fs' (LogFile.path log) = false)
           (pick logs indices).
Proof.
  intros H.
  assert (Hne : Forall (fun log => LogFile.path log <> []) (pick logs indices))
    by (eapply Forall_impl; [|exact H]; cbn; tauto).
  assert (Hu : Forall (fun log => refused fs (LogFile.path log) false = false)
                      (pick logs indices))
    by (eapply Forall_impl; [|exact H]; cbn; tauto).
  destruct (deleteLogsLoop_run (pick logs indices) fs fs [] (shrinks_refl fs) Hne)
    as (fs' & results & R & F2 & _ & A).
  destruct (logReports_all _ _ _ F2 Hu) as [S B].
  unfold LogListView.executeDelete, deleteLogs. rewrite bind_run, R. cbn [app ret].
  eexists. eexists. split; [reflexivity|].
  rewrite (tally_fold_success _ _ S). cbn [deletedCount freedBytes errors].
  rewrite B, (Forall2_length F2).
  unfold LogListView.getTotalSize. rewrite logs_total_sum.
  repeat split; try lia.
  rewrite Forall_forall in A, Hu |- *. intros log I. exact (A log I (Hu log I)).
Qed.

End LogView.

Lemma LogListView_frees_announced_witness :
  exists fs' r,
    LogListView.executeDelete (loadLogs Demo.fs1 Demo.tick) [0; 2; 7] Demo.fs1
      = (fs', Ok r) /\
    deletedCount r = 2 /\
    freedBytes r = LogListView.getTotalSize (loadLogs Demo.fs1 Demo.tick) [0; 2; 7].
Proof.
  destruct (LogListView_frees_announced (loadLogs Demo.fs1 Demo.tick) [0; 2; 7]
              Demo.fs1) as (fs' & r & R & C & B & _).
  - vm_compute. repeat constructor; discriminate.
  - exists fs', r. split; [exact R|]. split; [exact C|exact B].
Defined.

Section OrphanView.
Context {rt : Runtime}.

Import OrphanListView.















End OrphanView.



(* ------------------------------------------------------------------ *)
(** ** Reading the frequency log back                                   *)
(* ------------------------------------------------------------------ *)

Lemma isSpace2_LF a : Str.isSpace2 a Str.LF = false.
Proof. unfold Str.isSpace2. apply andb_false_r. Qed.

Lemma isSpace3_LF_mid a c : Str.isSpace3 a Str.LF c = false.
Proof.
  unfold Str.isSpace3.
  change (Str.byte 154 Str.LF) with false.
  change (Str.byte 128 Str.LF) with false.
  change (Str.byte 129 Str.LF) with false.
  change (Str.byte 187 Str.LF) with false.
  rewrite !andb_false_r. reflexivity.
Qed.

Lemma isSpace3_LF_last a b : Str.isSpace3 a b Str.LF = false.
Proof.
  unfold Str.isSpace3.
  change (Str.byte 128 Str.LF) with false.
  change (Str.byte 168 Str.LF) with false.
  change (Str.byte 169 Str.LF) with false.
  change (Str.byte 175 Str.LF) with false.
  change (Str.byte 159 Str.LF) with false.
  change (Str.byte 191 Str.LF) with false.
  change (Nat.leb 128 (nat_of_ascii Str.LF)) with false.
  rewrite !andb_false_r. reflexivity.
Qed.

Lemma trimStart_eq s :
  Str.trimStart s =
  match s with
  | EmptyString => EmptyString
  | String a r =>
      if Str.isSpace a then Str.trimStart r
      else
        match r with
        | String b r2 =>
            if Str.isSpace2 a b then Str.trimStart r2
            else
              match r2 with
              | String c r3 => if Str.isSpace3 a b c then Str.trimStart r3 else s
              | EmptyString => s
              end
        | EmptyString => s
        end
  end.
Proof. destruct s; reflexivity. Qed.

Lemma allSpace_eq s :
  Str.allSpace s =
  match s with
  | EmptyString => true
  | String a r =>
      if Str.isSpace a then Str.allSpace r
      else
        match r with
        | String b r2 =>
            if Str.isSpace2 a b then Str.allSpace r2
            else
              match r2 with
              | String c r3 => (Str.isSpace3 a b c && Str.allSpace r3)%bool
              | EmptyString => false
              end
        | EmptyString => false
        end
  end.
Proof. destruct s; reflexivity. Qed.

Lemma length_trimStart n : forall s,
  (String.length s <= n)%nat ->
  (String.length (Str.trimStart s) <= String.length s)%nat.
Proof.
  induction n as [|n IH]; intros s L.
  - destruct s; [cbn; lia|cbn in L; lia].
  - rewrite trimStart_eq.
    destruct s as [|a r]; [cbn; lia|]. cbn [String.length] in L |- *.
    destruct (Str.isSpace a).
    { specialize (IH r ltac:(lia)). lia. }
    destruct r as [|b r2]; [cbn [String.length]; lia|].
    cbn [String.length] in L |- *.
    destruct (Str.isSpace2 a b).
    { specialize (IH r2 ltac:(lia)). lia. }
    destruct r2 as [|c r3]; [cbn [String.length]; lia|].
    cbn [String.length] in L |- *.
    destruct (Str.isSpace3 a b c); [|cbn [String.length]; lia].
    specialize (IH r3 ltac:(lia)). lia.
Qed.

Lemma length_trimEnd s :
  (String.length (Str.trimEnd s) <= String.length s)%nat.
Proof.
  induction s as [|c r IH]; [cbn; lia|].
  cbn [Str.trimEnd]. destruct (Str.allSpace (String c r)); cbn [String.length]; lia.
Qed.

Lemma trimStart_plain s : headSpace s = false -> Str.trimStart s = s.
Proof.
  rewrite trimStart_eq. unfold headSpace.
  destruct s as [|a r]; [reflexivity|].
  destruct (Str.isSpace a); [discriminate|]. cbn [orb].
  destruct r as [|b r2]; [reflexivity|].
  destruct (Str.isSpace2 a b); [discriminate|]. cbn [orb].
  destruct r2 as [|c r3]; [reflexivity|].
  now destruct (Str.isSpace3 a b c).
Qed.

Lemma trimStart_shorter s :
  headSpace s = true ->
  (String.length (Str.trimStart s) < String.length s)%nat.
Proof.
  rewrite trimStart_eq. unfold headSpace.
  destruct s as [|a r]; [discriminate|]. cbn [String.length].
  destruct (Str.isSpace a).
  { intros _. pose proof (length_trimStart _ r (le_n _)). lia. }
  cbn [orb]. destruct r as [|b r2]; [discriminate|]. cbn [String.length].
  destruct (Str.isSpace2 a b).
  { intros _. pose proof (length_trimStart _ r2 (le_n _)). lia. }
  cbn [orb]. destruct r2 as [|c r3]; [discriminate|]. cbn [String.length].
  destruct (Str.isSpace3 a b c); [|discriminate].
  intros _. pose proof (length_trimStart _ r3 (le_n _)). lia.
Qed.

Lemma trimEnd_solid s : Str.trimEnd s = s -> solid s = true.
Proof.
  induction s as [|c r IH]; [reflexivity|].
  cbn [Str.trimEnd solid].
  destruct (Str.allSpace (String c r)); [discriminate|].
  intros E. injection E as E. cbn [negb andb]. auto.
Qed.

(** A line that [trim] leaves as it is has no white space at its start
    and none at its end. *)
Lemma tidy_ends line :
  tidy line = true ->
  line <> EmptyString /\ headSpace line = false /\ solid line = true.
Proof.
  unfold tidy, Str.trim. intros H. apply andb_true_iff in H.
  destruct H as [N T]. apply negb_true_iff, String.eqb_neq in N.
  apply String.eqb_eq in T. split; [exact N|].
  assert (Hd : headSpace line = false).
  { destruct (headSpace line) eqn:Hd; [|reflexivity]. exfalso.
    pose proof (trimStart_shorter _ Hd).
    pose proof (length_trimEnd (Str.trimStart line)).
    rewrite T in *. lia. }
  split; [exact Hd|].
  rewrite (trimStart_plain _ Hd) in T. now apply trimEnd_solid.
Qed.

Lemma headSpace_line x rest :
  x <> EmptyString ->
  headSpace (x ++ String Str.LF rest) = headSpace x.
Proof.
  intros N. destruct x as [|a [|b [|c r3]]]; [congruence| | |];
    cbn [String.append headSpace].
  - rewrite isSpace2_LF. destruct rest; [reflexivity|].
    now rewrite isSpace3_LF_mid.
  - now rewrite isSpace3_LF_last.
  - reflexivity.
Qed.

Lemma allSpace_line n : forall t r,
  (String.length t <= n)%nat ->
  Str.allSpace (t ++ String Str.LF r) = (Str.allSpace t && Str.allSpace r)%bool.
Proof.
  induction n as [|n IH]; intros t r L.
  - destruct t; [reflexivity|cbn in L; lia].
  - rewrite (allSpace_eq (t ++ _)), (allSpace_eq t).
    destruct t as [|a t1]; [reflexivity|].
    cbn [String.length] in L. cbn [String.append].
    destruct (Str.isSpace a); [apply IH; lia|].
    destruct t1 as [|b t2]; cbn [String.append].
    { rewrite isSpace2_LF. destruct r; [reflexivity|].
      now rewrite isSpace3_LF_mid. }
    cbn [String.length] in L.
    destruct (Str.isSpace2 a b); [apply IH; lia|].
    destruct t2 as [|c t3]; cbn [String.append].
    { now rewrite isSpace3_LF_last. }
    cbn [String.length] in L.
    destruct (Str.isSpace3 a b c); [|reflexivity].
    cbn [andb]. apply IH. lia.
Qed.

Lemma solid_line x rest :
  Str.allSpace rest = false -> solid rest = true ->
  solid (x ++ String Str.LF rest) = true.
Proof.
  intros A S. induction x as [|c r IH].
  - cbn [String.append solid]. rewrite S, andb_true_r.
    change (String Str.LF rest) with (EmptyString ++ String Str.LF rest)%string.
    rewrite (allSpace_line _ _ _ (le_n _)), A. reflexivity.
  - cbn [String.append solid]. rewrite IH, andb_true_r.
    change (String c (r ++ String Str.LF rest))
      with (String c r ++ String Str.LF rest)%string.
    rewrite (allSpace_line _ _ _ (le_n _)), A, andb_false_r. reflexivity.
Qed.

Lemma solid_nonempty s :
  s <> EmptyString -> solid s = true -> Str.allSpace s = false.
Proof.
  destruct s as [|c r]; [congruence|]. intros _ S. cbn [solid] in S.
  apply andb_true_iff in S. now apply negb_true_iff.
Qed.

Lemma trimEnd_then_nl s : solid s = true -> Str.trimEnd (s ++ Str.nl) = s.
Proof.
  induction s as [|c r IH]; [reflexivity|]. intros S.
  pose proof (solid_nonempty (String c r) ltac:(discriminate) S) as A.
  cbn [solid] in S. apply andb_true_iff in S. destruct S as [_ S].
  cbn [String.append Str.trimEnd].
  change (String c (r ++ Str.nl))
    with (String c r ++ String Str.LF EmptyString)%string.
  rewrite (allSpace_line _ _ _ (le_n _)), A. cbn [andb].
  cbn [String.append]. fold Str.nl. now rewrite (IH S).
Qed.

Lemma joinLines_cons x y ys :
  Str.joinLines (x :: y :: ys) = (x ++ String Str.LF (Str.joinLines (y :: ys)))%string.
Proof. reflexivity. Qed.

Lemma joinLines_solid x xs :
  forallb tidy (x :: xs) = true ->
  Str.joinLines (x :: xs) <> EmptyString /\
  solid (Str.joinLines (x :: xs)) = true.
Proof.
  revert x. induction xs as [|y ys IH]; intros x H;
    cbn [forallb] in H; apply andb_true_iff in H; destruct H as [Hx Hr];
    destruct (tidy_ends _ Hx) as (N & _ & S).
  - cbn. auto.
  - destruct (IH y Hr) as [Ny Sy]. rewrite joinLines_cons. split.
    + destruct x; discriminate.
    + apply solid_line; [now apply solid_nonempty|exact Sy].
Qed.

Lemma append_line x rest tail :
  ((x ++ String Str.LF rest) ++ tail)%string
  = (x ++ String Str.LF (rest ++ tail))%string.
Proof.
  induction x as [|c r IH]; [reflexivity|].
  cbn [String.append]. now rewrite IH.
Qed.

Lemma trim_joinLines x xs :
  forallb tidy (x :: xs) = true ->
  Str.trim (Str.joinLines (x :: xs) ++ Str.nl) = Str.joinLines (x :: xs).
Proof.
  intros T. destruct (joinLines_solid x xs T) as [_ S].
  cbn [forallb] in T. apply andb_true_iff in T. destruct T as [Tx _].
  destruct (tidy_ends _ Tx) as (N & Hd & _).
  unfold Str.trim. rewrite trimStart_plain; [now apply trimEnd_then_nl|].
  destruct xs as [|y ys].
  - change (Str.joinLines [x]) with x. unfold Str.nl.
    now rewrite headSpace_line.
  - rewrite joinLines_cons, append_line. now rewrite headSpace_line.
Qed.

Lemma split_noLF_line x : noLF x = true -> Str.split Str.LF x = [x].
Proof.
  induction x as [|c r IH]; [reflexivity|].
  cbn [noLF Str.split]. intros H. apply andb_true_iff in H.
  destruct H as [Hc Hr]. apply negb_true_iff in Hc. rewrite Hc, (IH Hr).
  reflexivity.
Qed.

Lemma split_line_then x rest :
  noLF x = true ->
  Str.split Str.LF (x ++ Str.nl ++ rest) = x :: Str.split Str.LF rest.
Proof.
  induction x as [|c r IH]; intros H.
  - cbn [String.append Str.nl Str.split]. now rewrite Ascii.eqb_refl.
  - cbn [noLF] in H. apply andb_true_iff in H. destruct H as [Hc Hr].
    apply negb_true_iff in Hc.
    cbn [String.append Str.split]. rewrite Hc.
    change (r ++ String Str.LF rest)%string with (r ++ Str.nl ++ rest)%string.
    now rewrite (IH Hr).
Qed.

Lemma split_joinLines ls :
  ls <> [] -> forallb noLF ls = true ->
  Str.split Str.LF (Str.joinLines ls) = ls.
Proof.
  induction ls as [|x xs IH]; [congruence|]. intros _ H.
  cbn [forallb] in H. apply andb_true_iff in H. destruct H as [Hx Hr].
  destruct xs as [|y ys].
  - cbn. now apply split_noLF_line.
  - change (Str.joinLines (x :: y :: ys))
      with (x ++ Str.nl ++ Str.joinLines (y :: ys))%string.
    rewrite (split_line_then _ _ Hx), IH; [reflexivity|discriminate|exact Hr].
Qed.

Lemma split_lines_noLF s : forallb noLF (Str.split Str.LF s) = true.
Proof.
  induction s as [|c r IH]; [reflexivity|].
  cbn [Str.split]. destruct (Ascii.eqb c Str.LF) eqn:E; [exact IH|].
  destruct (Str.split Str.LF r) as [|w ws]; cbn [forallb noLF] in *.
  - now rewrite E.
  - rewrite E. exact IH.
Qed.

Lemma forallb_filter {A} (f g : A -> bool) l :
  forallb f l = true -> forallb f (filter g l) = true.
Proof.
  induction l as [|x l IH]; [reflexivity|]. cbn. intros H.
  apply andb_true_iff in H. destruct H as [Hx Hl].
  destruct (g x); cbn; [rewrite Hx|]; auto.
Qed.

Section ReadBack.
Context {rt : Runtime}.

Lemma entryLines_noLF content : forallb noLF (entryLines content) = true.
Proof. apply forallb_filter, split_lines_noLF. Qed.

Lemma entryLines_nonempty content :
  forallb (fun line => negb (String.eqb line "")) (entryLines content) = true.
Proof.
  unfold entryLines. apply forallb_forall. intros l I.
  apply filter_In in I. tauto.
Qed.

(** The lines of the rewritten log are the kept lines. *)
Lemma entryLines_rewritten prefix content :
  forallb tidy (entryLines content) = true ->
  entryLines (rewritten prefix content) = keptLines prefix content.
Proof.
  intros T.
  assert (Tk : forallb tidy (keptLines prefix content) = true)
    by (now apply forallb_filter).
  assert (Nk : forallb noLF (keptLines prefix content) = true)
    by (apply forallb_filter, entryLines_noLF).
  assert (Ek : forallb (fun line => negb (String.eqb line ""))
                 (keptLines prefix content) = true)
    by (apply forallb_filter, entryLines_nonempty).
  unfold rewritten, entryLines at 1.
  destruct (keptLines prefix content) as [|x xs] eqn:K; [reflexivity|].
  rewrite (trim_joinLines x xs Tk).
  rewrite split_joinLines; [|discriminate|exact Nk].
  now apply filter_all.
Qed.

Lemma loadFrecency_lines fs content :
  readFile fs FRECENCY_FILE = Ok content ->
  loadFrecency fs =
  flat_map (fun line => match parseFrecency line with
                        | Some entry => [entry]
                        | None => []
                        end) (entryLines content).
Proof.
  intros R. unfold loadFrecency, entryLines. rewrite R.
  generalize (Str.split Str.LF (Str.trim content)). intros lines.
  assert (G : forall acc,
    fold_left
      (fun entries line =>
         if String.eqb line "" then entries
         else match parseFrecency line with
              | Some entry => entries ++ [entry]
              | None => entries
              end) lines acc
    = acc ++ flat_map (fun line => match parseFrecency line with
                                   | Some entry => [entry]
                                   | None => []
                                   end)
               (filter (fun line => negb (String.eqb line "")) lines)).
  { induction lines as [|line lines IH]; intros acc; cbn [fold_left filter].
    - cbn. now rewrite app_nil_r.
    - rewrite IH. destruct (String.eqb line ""); cbn [negb]; [reflexivity|].
      cbn [flat_map]. destruct (parseFrecency line); [|reflexivity].
      now rewrite <- app_assoc. }
  apply (G []).
Qed.

(** X6: After [cleanFrecencyForDirectory prefix], [loadFrecency] returns the
    entries it returned before but those whose path starts with
    [prefix], in the same order, for a log whose non-empty lines have no
    white space, as [trim] knows it, at either end. *)
Theorem loadFrecency_after_clean (prefix : string) (fs : FS) (content : string) :
  readFile fs FRECENCY_FILE = Ok content ->
  forallb tidy (entryLines content) = true ->
  loadFrecency (fst (cleanFrecencyForDirectory prefix fs)) =
  filter (fun entry => negb (pathUnder prefix entry)) (loadFrecency fs).
Proof.
  intros R T. pose proof (cleanFrecency_run prefix fs) as C. rewrite R in C.
  destruct C as (fs' & C & R' & _). rewrite C. cbn [fst].
  rewrite (loadFrecency_lines fs' _ R'), (loadFrecency_lines fs _ R).
  rewrite (entryLines_rewritten _ _ T). unfold keptLines. clear T.
  induction (entryLines content) as [|line lines IH]; [reflexivity|].
  cbn [filter flat_map]. unfold underPrefix at 1.
  destruct (parseFrecency line) as [entry|] eqn:P; cbn [negb app filter].
  - destruct (pathUnder prefix entry); cbn [negb].
    + exact IH.
    + cbn [flat_map]. rewrite P. cbn [app]. now rewrite IH.
  - cbn [flat_map]. rewrite P. cbn [app]. exact IH.
Qed.

(** X7: Cleaning a second time for the same prefix removes nothing and
    writes the log back as it is, for a log whose non-empty lines have
    no white space, as [trim] knows it, at either end. *)
Theorem cleanFrecency_twice (prefix : string) (fs : FS) (content : string) :
  readFile fs FRECENCY_FILE = Ok content ->
  forallb tidy (entryLines content) = true ->
  exists fs1 fs2,
    cleanFrecencyForDirectory prefix fs = (fs1, Ok (removedCount prefix content)) /\
    cleanFrecencyForDirectory prefix fs1 = (fs2, Ok 0) /\
    readFile fs2 FRECENCY_FILE = readFile fs1 FRECENCY_FILE.
Proof.
  intros R T. pose proof (cleanFrecency_run prefix fs) as C. rewrite R in C.
  destruct C as (fs1 & C1 & R1 & _).
  pose proof (cleanFrecency_run prefix fs1) as C. rewrite R1 in C.
  destruct C as (fs2 & C2 & R2 & _).
  assert (K : keptLines prefix (rewritten prefix content) = keptLines prefix content).
  { unfold keptLines at 1. rewrite (entryLines_rewritten _ _ T).
    unfold keptLines. clear T.
    induction (entryLines content) as [|l ls IH]; [reflexivity|]. cbn [filter].
    destruct (underPrefix prefix l) eqn:U; cbn [negb]; [exact IH|].
    cbn [filter]. rewrite U. cbn [negb]. now rewrite IH. }
  assert (N : removedCount prefix (rewritten prefix content) = 0).
  { unfold removedCount. rewrite (entryLines_rewritten _ _ T). unfold keptLines.
    clear T.
    induction (entryLines content) as [|l ls IH]; [reflexivity|]. cbn [filter].
    destruct (underPrefix prefix l) eqn:U; cbn [negb]; [exact IH|].
    cbn [filter]. rewrite U. exact IH. }
  exists fs1, fs2. rewrite N in C2. split; [exact C1|]. split; [exact C2|].
  rewrite R2, R1. unfold rewritten at 1. now rewrite K.
Qed.

End ReadBack.

Lemma loadFrecency_after_clean_witness :
  map FrecencyEntry.path
      (loadFrecency (fst (cleanFrecencyForDirectory "/a" Demo.fs1)))
  = [Some "/c"]%string.
Proof.
  assert (R : readFile Demo.fs1 FRECENCY_FILE
              = Ok (Demo.frecency_line_ab ++ Str.nl
                    ++ Demo.frecency_line_c ++ Str.nl)%string)
    by (vm_compute; reflexivity).
  assert (T : forallb tidy
                (entryLines (Demo.frecency_line_ab ++ Str.nl
                             ++ Demo.frecency_line_c ++ Str.nl)%string) = true)
    by (vm_compute; reflexivity).
  rewrite (loadFrecency_after_clean "/a" Demo.fs1 _ R T).
  vm_compute. reflexivity.
Defined.

Lemma cleanFrecency_twice_witness :
  exists fs1 fs2,
    cleanFrecencyForDirectory "/a" Demo.fs1 = (fs1, Ok 1) /\
    cleanFrecencyForDirectory "/a" fs1 = (fs2, Ok 0) /\
    readFile fs2 FRECENCY_FILE = readFile fs1 FRECENCY_FILE.
Proof.
  assert (R : readFile Demo.fs1 FRECENCY_FILE
              = Ok (Demo.frecency_line_ab ++ Str.nl
                    ++ Demo.frecency_line_c ++ Str.nl)%string)
    by (vm_compute; reflexivity).
  assert (T : forallb tidy
                (entryLines (Demo.frecency_line_ab ++ Str.nl
                             ++ Demo.frecency_line_c ++ Str.nl)%string) = true)
    by (vm_compute; reflexivity).
  destruct (cleanFrecency_twice "/a" Demo.fs1 _ R T)
    as (fs1 & fs2 & C1 & C2 & E).
  exists fs1, fs2. split; [exact C1|]. split; [exact C2|exact E].
Defined.
